(** * FLAC metadata rewriting: a shallow embedding of [flac.go]

    The Go package rewrites the Vorbis comment block of a FLAC container in
    place, on an [io.ReadWriteSeeker].  The command line tool of the
    repository passes it a regular file ([os.OpenFile]); the stream is
    modelled accordingly, as the bytes of the file and a cursor.

    Go's [int] and [int64] are modelled as [Z]: every quantity below is a
    file position, a length of a byte slice or a 24-bit header field, far
    from the 64-bit range. *)

From Stdlib Require Import Strings.String Strings.Byte.
From Stdlib Require Import ZArith List Lia Bool.
Import ListNotations.
Local Open Scope Z_scope.

(** ** The stream *)

Record File : Type := mkFile {
  content : list byte;   (* the bytes of the file *)
  pos : nat              (* the cursor; it may lie beyond the end *)
}.

Definition size (f : File) : Z := Z.of_nat (length (content f)).

(** The values of Go's [error] that the package meets. *)
Inductive error : Type :=
| EOF                       (* io.EOF *)
| ErrUnexpectedEOF          (* io.ErrUnexpectedEOF *)
| ErrNegativePosition       (* Seek to a negative position *)
| errorString (s : String.string). (* errors.New(s) *)

(** Run-time panics of the Go program. *)
Inductive panic : Type :=
| MakesliceLenOutOfRange
| SliceBoundsOutOfRange.

(** An operation on the stream returns a value and the stream after it,
    panics (the stream is left as it was at that point), or is cut off by
    the fuel that bounds the loops of the model. *)
Inductive outcome (A : Type) : Type :=
| Done (a : A) (f : File)
| Panicked (p : panic) (f : File)
| OutOfFuel.
Arguments Done {A} a f.
Arguments Panicked {A} p f.
Arguments OutOfFuel {A}.

Definition IO (A : Type) : Type := File -> outcome A.

Definition ret {A} (a : A) : IO A := fun f => Done a f.

Definition bind {A B} (c : IO A) (k : A -> IO B) : IO B :=
  fun f =>
    match c f with
    | Done a f' => k a f'
    | Panicked p f' => Panicked p f'
    | OutOfFuel => OutOfFuel
    end.

Definition throw {A} (p : panic) : IO A := fun f => Panicked p f.

Declare Scope io_scope.
Delimit Scope io_scope with io.
Notation "x <- c ;; k" := (bind c (fun x => k))
  (at level 61, c at next level, right associativity) : io_scope.
Notation "c ;;; k" := (bind c (fun _ => k))
  (at level 61, right associativity) : io_scope.
Local Open Scope io_scope.

(** A Go result [(value, error)] whose value is meaningless on error. *)
Inductive res (A : Type) : Type :=
| Val (a : A)
| Err (e : error).
Arguments Val {A} a.
Arguments Err {A} e.

Inductive whence : Type := SeekStart | SeekCurrent | SeekEnd.

(** [rw.Seek(offset, whence)]: the new position, or an error (and an
    unchanged cursor) when the target is negative.  Seeking beyond the end
    is allowed. *)
Definition Seek (offset : Z) (w : whence) : IO (Z * option error) :=
  fun f =>
    let base := match w with
                | SeekStart => 0
                | SeekCurrent => Z.of_nat (pos f)
                | SeekEnd => size f
                end in
    let target := base + offset in
    if target <? 0 then Done (0, Some ErrNegativePosition) f
    else Done (target, None) (mkFile (content f) (Z.to_nat target)).

(** [rw.Read(buf)] with [len(buf) = n]: the bytes read, which are the
    first [length bs] bytes of [buf] afterwards.  An empty buffer reads
    nothing; at or beyond the end the result is [0, io.EOF]; otherwise a
    regular file delivers as many bytes as the buffer takes and the file
    has. *)
Definition Read (n : Z) : IO (list byte * option error) :=
  fun f =>
    if n <=? 0 then Done ([], None) f
    else if size f <=? Z.of_nat (pos f) then Done ([], Some EOF) f
    else
      let k := Z.to_nat (Z.min n (size f - Z.of_nat (pos f))) in
      let bs := firstn k (skipn (pos f) (content f)) in
      Done (bs, None) (mkFile (content f) (pos f + length bs)).

(** The bytes of the file after [bs] is written at position [p]: a write
    beyond the end fills the hole with zero bytes. *)
Definition overwrite (c : list byte) (p : nat) (bs : list byte) : list byte :=
  firstn p c ++ repeat x00 (p - length c) ++ bs ++ skipn (p + length bs) c.

(** [rw.Write(bs)]: a regular file takes all the bytes. *)
Definition Write (bs : list byte) : IO (Z * option error) :=
  fun f =>
    match bs with
    | [] => Done (0, None) f
    | _ => Done (Z.of_nat (length bs), None)
                (mkFile (overwrite (content f) (pos f) bs) (pos f + length bs))
    end.

(** ** Helpers of the package that [flac.go] calls *)

Definition Z_of_byte (b : byte) : Z := Z.of_N (Byte.to_N b).

Definition byte_of_Z (z : Z) : byte :=
  match Byte.of_N (Z.to_N (z mod 256)) with
  | Some b => b
  | None => x00
  end.

(** Modelled from the spec: [getBit] of the Bit/Int Byte Reader, the flag
    extraction of bit [n] of a byte. *)
Definition getBit (b : Z) (n : Z) : bool := Z.testbit b n.

(** Modelled from the spec: [readBytes] of the Bit/Int Byte Reader reads
    exactly [n] bytes; a short read is an error ([io.ReadFull]: [io.EOF]
    when nothing was read, [io.ErrUnexpectedEOF] otherwise). *)
Definition readBytes (n : Z) : IO (res (list byte)) :=
  r <- Read n ;;
  let bs := fst r in
  if Z.of_nat (length bs) =? n then ret (Val bs)
  else ret (Err (match bs with [] => EOF | _ => ErrUnexpectedEOF end)).

(** Modelled from the spec: [readString] is [readBytes] seen as a Go
    string, which is a sequence of bytes. *)
Definition readString (n : Z) : IO (res (list byte)) := readBytes n.

(** Modelled from the spec: the big-endian unsigned integer of a byte
    slice. *)
Definition getInt (bs : list byte) : Z :=
  fold_left (fun n x => Z.lor (Z.shiftl n 8) (Z_of_byte x)) bs 0.

(** Modelled from the spec: [readInt] reads [n] bytes as a big-endian
    unsigned integer. *)
Definition readInt (n : Z) : IO (res Z) :=
  r <- readBytes n ;;
  match r with
  | Val bs => ret (Val (getInt bs))
  | Err e => ret (Err e)
  end.

(** Modelled from the spec: [formatUintBigEndian(n, size)] encodes [n] as
    [size] big-endian bytes.  It returns the slice alone, so a value that
    does not fit keeps its low bytes. *)
Fixpoint formatUint_rev (n : Z) (sz : nat) : list byte :=
  match sz with
  | O => []
  | S sz' => byte_of_Z (Z.land n 255) :: formatUint_rev (Z.shiftr n 8) sz'
  end.

Definition formatUintBigEndian (n : Z) (sz : nat) : list byte :=
  rev (formatUint_rev n sz).

(** The signature of a FLAC container. *)
Definition fLaC : list byte := ["f"; "L"; "a"; "C"]%byte.

(** ** [flac.go] *)

(** FLAC block types. *)
Definition paddingBlock : Z := 1.
Definition vorbisCommentBlock : Z := 4.
Definition pictureBlock : Z := 6.

Record flacMetaHeadersLayout : Type := mkLayout {
  commentBlockPos : Z;
  commentBlockLen : Z;
  paddingBlockPos : Z;
  paddingBlockLen : Z
}.

(** [flacMetaHeadersLayout{}] *)
Definition zeroLayout : flacMetaHeadersLayout := mkLayout 0 0 0 0.

(** How an iteration of a [for] loop that may [return] an error ends. *)
Inductive loopExit : Type :=
| Break
| Return (e : error).

(** The [for] loop of [findBlocks]: [bi] counts the blocks,
    [commentBlockIndex] is the index of the last comment block seen (0
    before any), [m] is the receiver, updated through the pointer. *)
Fixpoint findBlocks_loop (fuel : nat) (bi commentBlockIndex : Z)
    (m : flacMetaHeadersLayout) : IO (flacMetaHeadersLayout * loopExit) :=
  match fuel with
  | O => fun _ => OutOfFuel
  | S fuel' =>
    hb <- readBytes 1 ;;
    match hb with
    | Err e => ret (m, Return e)
    | Val blockHeader =>
      let b0 := Z_of_byte (nth 0 blockHeader x00) in
      let last := getBit b0 7 in
      let b0 := if last then Z.lxor b0 (Z.shiftl 1 7) else b0 in
      bl <- readInt 3 ;;
      match bl with
      | Err e => ret (m, Return e)
      | Val blockLen =>
        let next (m : flacMetaHeadersLayout) (commentBlockIndex : Z) :=
          Seek blockLen SeekCurrent ;;;
          if last then ret (m, Break)
          else findBlocks_loop fuel' (bi + 1) commentBlockIndex m in
        if b0 =? vorbisCommentBlock then
          p <- Seek 0 SeekCurrent ;;
          next (mkLayout (fst p - 4) blockLen
                         (paddingBlockPos m) (paddingBlockLen m)) bi
        else if b0 =? paddingBlock then
          (* We want only the padding block immediately after comment block *)
          if bi =? commentBlockIndex + 1 then
            p <- Seek 0 SeekCurrent ;;
            ret (mkLayout (commentBlockPos m) (commentBlockLen m)
                          (fst p - 4) blockLen, Break)
          else next m commentBlockIndex
        else next m commentBlockIndex
      end
    end
  end.

(** [func (m *flacMetaHeadersLayout) findBlocks(r io.ReadSeeker) error]:
    the receiver after the call and the error returned. *)
Definition findBlocks (fuel : nat) (m : flacMetaHeadersLayout)
  : IO (flacMetaHeadersLayout * option error) :=
  o <- Seek 0 SeekCurrent ;;
  let originalPos := fst o in
  r <- findBlocks_loop fuel 0 0 m ;;
  match snd r with
  | Return e => ret (fst r, Some e)
  | Break => Seek originalPos SeekStart ;;; ret (fst r, None)
  end.

(** [uint(n)] of a Go [int]. *)
Definition uint (n : Z) : Z := n mod 2 ^ 64.

(** A buffer after [Read] has put [bs] at its front. *)
Definition fill (buf bs : list byte) : list byte := bs ++ skipn (length bs) buf.

Definition shiftPadding (m : flacMetaHeadersLayout) (newCommentBlockLen : Z)
  : IO unit :=
  let offset := newCommentBlockLen - commentBlockLen m in
  let newPadBlockLen := paddingBlockLen m - offset in
  let newPadBlockPos := paddingBlockPos m + offset in
  let origPadBlockHeaderByte := [x00] in
  Seek (paddingBlockPos m) SeekStart ;;;
  r <- Read 1 ;;
  let origPadBlockHeaderByte := fill origPadBlockHeaderByte (fst r) in
  Seek newPadBlockPos SeekStart ;;;
  Write origPadBlockHeaderByte ;;;
  let blockLenBytes := formatUintBigEndian (uint newPadBlockLen) 3 in
  Write blockLenBytes ;;;
  ret tt.

Definition bytes_eqb (a b : list byte) : bool :=
  if list_eq_dec Byte.byte_eq_dec a b then true else false.

(** [ShiftFileLeft]: the loop, with the cursor at the place the contents
    are pulled to. *)
Definition leftBufLen : Z := 1024 * 1024.

Fixpoint ShiftFileLeft_loop (fuel : nat) (offset : Z) : IO loopExit :=
  match fuel with
  | O => fun _ => OutOfFuel
  | S fuel' =>
    s <- Seek offset SeekCurrent ;;
    match snd s with
    | Some e => ret (Return e)
    | None =>
      r <- Read leftBufLen ;;
      let buf := fst r in
      let n := Z.of_nat (length buf) in
      let err := snd r in
      let body (after : IO loopExit) : IO loopExit :=
        if n >? 0 then
          s <- Seek (- (n + offset)) SeekCurrent ;;
          match snd s with
          | Some e => ret (Return e)
          | None =>
            w <- Write buf ;;
            match snd w with
            | Some e => ret (Return e)
            | None => after
            end
          end
        else after in
      match err with
      | None => body (ShiftFileLeft_loop fuel' offset)
      | Some EOF => body (ret Break)
      | Some e => ret (Return e)
      end
    end
  end.

Definition ShiftFileLeft (fuel : nat) (offset : Z) : IO (option error) :=
  o <- Seek 0 SeekCurrent ;;
  let originalPosition := fst o in
  x <- ShiftFileLeft_loop fuel offset ;;
  match x with
  | Return e => ret (Some e)
  | Break => Seek originalPosition SeekStart ;;; ret None
  end.

(** [ShiftFileRight]: [arr] is the array behind [buf], whose length is the
    capacity of the slice, and [bufLen] the current length of [buf];
    [bufLen64] is kept apart as in the source. *)
Fixpoint ShiftFileRight_loop (fuel : nat) (offset originalPosition : Z)
    (arr : list byte) (bufLen bufLen64 : Z) (stop : bool) : IO unit :=
  match fuel with
  | O => fun _ => OutOfFuel
  | S fuel' =>
    r <- Read bufLen ;;
    let arr := fill arr (fst r) in
    Seek (- bufLen64 + offset) SeekCurrent ;;;
    Write (firstn (Z.to_nat bufLen) arr) ;;;
    if stop then
      Seek (- bufLen64 - offset) SeekCurrent ;;;
      (* buf = buf[:offset] *)
      if (offset <? 0) || (Z.of_nat (length arr) <? offset)
      then throw SliceBoundsOutOfRange
      else
        let buf := repeat "_"%byte (Z.to_nat offset) in
        Write buf ;;;
        ret tt
    else
      c <- Seek (- bufLen64 - offset) SeekCurrent ;;
      let curPos := fst c in
      if curPos - originalPosition >=? bufLen64 then
        Seek (- bufLen64) SeekCurrent ;;;
        ShiftFileRight_loop fuel' offset originalPosition arr bufLen bufLen64 false
      else
        Seek (- (curPos - originalPosition)) SeekCurrent ;;;
        (* buf = buf[:(curPos - originalPosition)] *)
        let k := curPos - originalPosition in
        if (k <? 0) || (Z.of_nat (length arr) <? k)
        then throw SliceBoundsOutOfRange
        else ShiftFileRight_loop fuel' offset originalPosition arr k k true
  end.

Definition ShiftFileRight (fuel : nat) (offset : Z) : IO unit :=
  o <- Seek 0 SeekCurrent ;;
  let originalPosition := fst o in
  e <- Seek 0 SeekEnd ;;
  let fileSize := fst e in
  Seek originalPosition SeekStart ;;;
  let bufSize := 100 in
  let stop := false in
  let '(bufSize, stop) :=
    if fileSize - originalPosition <? bufSize
    then (fileSize - originalPosition, true) else (bufSize, stop) in
  (* buf := make([]byte, bufSize) *)
  if bufSize <? 0 then throw MakesliceLenOutOfRange
  else
    let arr := repeat x00 (Z.to_nat bufSize) in
    let bufLen64 := Z.of_nat (length arr) in
    Seek (- bufLen64) SeekEnd ;;;
    ShiftFileRight_loop fuel offset originalPosition arr bufLen64 bufLen64 stop ;;;
    Seek originalPosition SeekStart ;;;
    ret tt.

Section Tags.

(** The tags to write, [map[string]string] in the source, and their
    encoder, which lives in another file of the package. *)
Variable Data : Type.
Variable PrepareVorbisComment : Data -> list byte.

(** The [for] loop of [findAndWriteFlacCommentBlock]. *)
Fixpoint findAndWriteFlacCommentBlock (fuel : nat) (data : Data)
  : IO (option error) :=
  match fuel with
  | O => fun _ => OutOfFuel
  | S fuel' =>
    hb <- readBytes 1 ;;
    match hb with
    | Err e => ret (Some e)
    | Val blockHeader =>
      let b0 := Z_of_byte (nth 0 blockHeader x00) in
      bl <- readInt 3 ;;
      match bl with
      | Err e => ret (Some e)
      | Val blockLen =>
        let after : IO (option error) :=
          if getBit b0 7 then ret None
          else findAndWriteFlacCommentBlock fuel' data in
        if b0 =? vorbisCommentBlock then
          let preparedVorbisComment := PrepareVorbisComment data in
          let newBlockLen := Z.of_nat (length preparedVorbisComment) in
          let blockLenBytes := formatUintBigEndian (uint newBlockLen) 3 in
          Seek (-3) SeekCurrent ;;;
          Write blockLenBytes ;;;
          if newBlockLen <=? blockLen then
            w <- Write preparedVorbisComment ;;
            match snd w with
            | Some e => ret (Some e)
            | None =>
              if fst w <? newBlockLen then
                ret (Some (errorString
                  "number of bytes written to file is less than tags length"%string))
              else
                let shift := blockLen - newBlockLen in
                if shift >? 0 then ShiftFileLeft fuel' shift
                else after
            end
          else
            p <- Seek 0 SeekCurrent ;;
            let blockDataStartPos := fst p in
            Seek blockLen SeekCurrent ;;;
            ShiftFileRight fuel' (newBlockLen - blockLen) ;;;
            Seek blockDataStartPos SeekStart ;;;
            w <- Write preparedVorbisComment ;;
            match snd w with
            | Some e => ret (Some e)
            | None =>
              if fst w <? newBlockLen then
                ret (Some (errorString
                  "number of bytes written to file is less than tags length"%string))
              else ret None
            end
        else
          Seek blockLen SeekCurrent ;;;
          after
      end
    end
  end.

(** [WriteFLACTags].  The source ends with
    [return errors.New("cannot write tags without padding")] followed by
    [return findAndWriteFlacCommentBlock(rw, data)]: the second [return]
    is never reached. *)
Definition WriteFLACTags (fuel : nat) (data : Data) : IO (option error) :=
  r <- readString 4 ;;
  match r with
  | Err e => ret (Some e)
  | Val flac =>
    if negb (bytes_eqb flac fLaC) then
      ret (Some (errorString "expected 'fLaC'"%string))
    else
      t <- findBlocks fuel zeroLayout ;;
      let techMeta := fst t in
      let preparedVorbisComment := PrepareVorbisComment data in
      let newCommentBlockLen := Z.of_nat (length preparedVorbisComment) in
      if (newCommentBlockLen <?
            commentBlockLen techMeta + (paddingBlockLen techMeta - 4))
         && (paddingBlockLen techMeta >? 0)
      then
        shiftPadding techMeta newCommentBlockLen ;;;
        Seek (commentBlockPos techMeta + 1) SeekStart ;;;
        let blockLenBytes := formatUintBigEndian (uint newCommentBlockLen) 3 in
        Write blockLenBytes ;;;
        Write preparedVorbisComment ;;;
        ret None
      else
        ret (Some (errorString "cannot write tags without padding"%string))
  end.

(** The reader of the package: the decoders of the comment and picture
    payloads live in other files, and are taken as they come. *)
Variable Metadata : Type.
Variable newMetadataVorbis : Metadata.
Variable readVorbisComment : Metadata -> IO (Metadata * option error).
Variable readPictureBlock : Metadata -> IO (Metadata * option error).

(** [readFLACMetadataBlock]: the receiver after the call, [last] and
    [err]. *)
Definition readFLACMetadataBlock (m : Metadata)
  : IO (Metadata * bool * option error) :=
  hb <- readBytes 1 ;;
  match hb with
  | Err e => ret (m, false, Some e)
  | Val blockHeader =>
    let b0 := Z_of_byte (nth 0 blockHeader x00) in
    let last := getBit b0 7 in
    let b0 := if last then Z.lxor b0 (Z.shiftl 1 7) else b0 in
    bl <- readInt 3 ;;
    match bl with
    | Err e => ret (m, last, Some e)
    | Val blockLen =>
      if b0 =? vorbisCommentBlock then
        x <- readVorbisComment m ;; ret (fst x, last, snd x)
      else if b0 =? pictureBlock then
        x <- readPictureBlock m ;; ret (fst x, last, snd x)
      else
        s <- Seek blockLen SeekCurrent ;; ret (m, last, snd s)
    end
  end.

Fixpoint ReadFLACTags_loop (fuel : nat) (m : Metadata) : IO (res Metadata) :=
  match fuel with
  | O => fun _ => OutOfFuel
  | S fuel' =>
    x <- readFLACMetadataBlock m ;;
    let '(m', last, err) := x in
    match err with
    | Some e => ret (Err e)
    | None => if (last : bool) then ret (Val m') else ReadFLACTags_loop fuel' m'
    end
  end.

Definition ReadFLACTags (fuel : nat) : IO (res Metadata) :=
  r <- readString 4 ;;
  match r with
  | Err e => ret (Err e)
  | Val flac =>
    if negb (bytes_eqb flac fLaC) then
      ret (Err (errorString "expected 'fLaC'"%string))
    else ReadFLACTags_loop fuel newMetadataVorbis
  end.

End Tags.

(** What [Write] makes of the bytes of the file: an empty slice writes
    nothing. *)
Definition written (c : list byte) (p : nat) (bs : list byte) : list byte :=
  match bs with [] => c | _ => overwrite c p bs end.

(** The file during a right shift by [o] of the bytes [c], when the bytes
    from [e] on have already been copied [o] bytes further. *)
Definition moved_from (c : list byte) (o e : nat) : list byte :=
  firstn (e + o) c ++ skipn e c.

(** The bytes of [c] are restored in [c'] but for a gap of [offset] bytes
    at [p]. *)
Definition restored_but_gap (c c' : list byte) (p : nat) (offset : Z) : Prop :=
  exists gap, Z.of_nat (length gap) = offset
              /\ c' = firstn p c ++ gap ++ skipn (p + length gap) c.

(** ** Containers *)

(** The four bytes of a block header. *)
Definition blockHeader (last : bool) (ty len : Z) : list byte :=
  byte_of_Z ((if last then 128 else 0) + ty) :: formatUintBigEndian len 3.

(** A metadata block on the wire: its header and its payload. *)
Definition encodeBlock (last : bool) (ty : Z) (payload : list byte)
  : list byte :=
  blockHeader last ty (Z.of_nat (length payload)) ++ payload.

(** A block in front of the comment block, by its type and payload: it is
    neither a comment block nor a padding block, and its payload fits the
    24-bit length field. *)
Definition plainBlock (b : Z * list byte) : Prop :=
  0 <= fst b < 128 /\ fst b <> vorbisCommentBlock /\ fst b <> paddingBlock
  /\ Z.of_nat (length (snd b)) < 2 ^ 24.

Definition encodeChain (bs : list (Z * list byte)) : list byte :=
  flat_map (fun b => encodeBlock false (fst b) (snd b)) bs.

(** The layout scanned for a write: the scan starts behind the signature. *)
Definition layoutOf (fuel : nat) (f : File) : flacMetaHeadersLayout :=
  match findBlocks fuel zeroLayout (mkFile (content f) (pos f + 4)) with
  | Done (m, _) _ => m
  | _ => zeroLayout
  end.

(** The fields of a layout are positions and lengths. *)
Definition layout_ok (m : flacMetaHeadersLayout) : Prop :=
  0 <= commentBlockPos m /\ 0 <= commentBlockLen m
  /\ 0 <= paddingBlockPos m /\ 0 <= paddingBlockLen m.

(** In the examples the tags are given by their encoding. *)
Definition encoded (payload : list byte) : list byte := payload.

Definition audio : list byte := ["A"; "U"; "D"; "I"; "O"]%byte.

(** The container of the spec's scenarios: the signature, a stream info
    block, a comment block of length 20 at offset 42, the last block, a
    padding block of length 100, at offset 66, and the audio frames. *)
Definition scenario : list byte :=
  fLaC ++ blockHeader false 0 34 ++ repeat x00 34
       ++ blockHeader false 4 20 ++ repeat "c"%byte 20
       ++ blockHeader true 1 100 ++ repeat x00 100
       ++ audio.

(** The same container with an empty padding block. *)
Definition scenario_pad0 : list byte :=
  fLaC ++ blockHeader false 0 34 ++ repeat x00 34
       ++ blockHeader false 4 20 ++ repeat "c"%byte 20
       ++ blockHeader true 1 0
       ++ audio.

(** A container without a comment block: stream info, then padding. *)
Definition no_comment : list byte :=
  fLaC ++ blockHeader false 0 34 ++ repeat x00 34
       ++ blockHeader true 1 100 ++ repeat x00 100
       ++ audio.

(** A chain that ends without a last block: the scan runs into the end of
    the file. *)
Definition unterminated : list byte :=
  fLaC ++ blockHeader false 0 2 ++ repeat x00 2.

Definition abcdef : list byte := ["a"; "b"; "c"; "d"; "e"; "f"]%byte.

(** ** The rewrite of a comment block *)

(** The case [vorbisCommentBlock] of the switch of
    [findAndWriteFlacCommentBlock], with the cursor behind the header of
    the block: [after] is what follows the switch when the case falls
    through. *)
Definition rewriteCommentBlock (fuel : nat) (preparedVorbisComment : list byte)
    (blockLen : Z) (after : IO (option error)) : IO (option error) :=
  let newBlockLen := Z.of_nat (length preparedVorbisComment) in
  let blockLenBytes := formatUintBigEndian (uint newBlockLen) 3 in
  Seek (-3) SeekCurrent ;;;
  Write blockLenBytes ;;;
  if newBlockLen <=? blockLen then
    w <- Write preparedVorbisComment ;;
    match snd w with
    | Some e => ret (Some e)
    | None =>
      if fst w <? newBlockLen then
        ret (Some (errorString
          "number of bytes written to file is less than tags length"%string))
      else
        let shift := blockLen - newBlockLen in
        if shift >? 0 then ShiftFileLeft fuel shift
        else after
    end
  else
    p <- Seek 0 SeekCurrent ;;
    let blockDataStartPos := fst p in
    Seek blockLen SeekCurrent ;;;
    ShiftFileRight fuel (newBlockLen - blockLen) ;;;
    Seek blockDataStartPos SeekStart ;;;
    w <- Write preparedVorbisComment ;;
    match snd w with
    | Some e => ret (Some e)
    | None =>
      if fst w <? newBlockLen then
        ret (Some (errorString
          "number of bytes written to file is less than tags length"%string))
      else ret None
    end.

(** A block that the rewriting loops pass over, by its type and payload:
    it is not a comment block, and its payload fits the 24-bit length
    field. *)
Definition skippedBlock (b : Z * list byte) : Prop :=
  0 <= fst b < 128 /\ fst b <> vorbisCommentBlock
  /\ Z.of_nat (length (snd b)) < 2 ^ 24.

(** A block that the reader passes over: neither a comment block nor a
    picture block. *)
Definition opaqueBlock (b : Z * list byte) : Prop :=
  0 <= fst b < 128 /\ fst b <> vorbisCommentBlock /\ fst b <> pictureBlock
  /\ Z.of_nat (length (snd b)) < 2 ^ 24.

(** ** The earlier revision of [flac.go] (part_000)

    [ReadFLACTags], [ShiftFileLeft], [ShiftFileRight] and
    [readFLACMetadataBlock] are the same text as in [flac.go]; the writer
    has no layout scan and goes straight to the rewriting loop, which
    tests the last-block flag before it reads the length. *)
Module Part000.

(** Modelled from the spec: [formatIntBigEndian(n, size)], the name under
    which this revision calls the big-endian encoder of the block length. *)
Definition formatIntBigEndian (n : Z) (sz : nat) : list byte :=
  formatUintBigEndian n sz.

Section Tags.

Variable Data : Type.
Variable PrepareVorbisComment : Data -> list byte.

Fixpoint findAndWriteFlacCommentBlock (fuel : nat) (data : Data)
  : IO (option error) :=
  match fuel with
  | O => fun _ => OutOfFuel
  | S fuel' =>
    hb <- readBytes 1 ;;
    match hb with
    | Err e => ret (Some e)
    | Val blockHeader =>
      let b0 := Z_of_byte (nth 0 blockHeader x00) in
      if getBit b0 7 then ret None
      else
        bl <- readInt 3 ;;
        match bl with
        | Err e => ret (Some e)
        | Val blockLen =>
          if b0 =? vorbisCommentBlock then
            let preparedVorbisComment := PrepareVorbisComment data in
            let newBlockLen := Z.of_nat (length preparedVorbisComment) in
            let blockLenBytes := formatIntBigEndian (uint newBlockLen) 3 in
            Seek (-3) SeekCurrent ;;;
            Write blockLenBytes ;;;
            if newBlockLen <=? blockLen then
              w <- Write preparedVorbisComment ;;
              match snd w with
              | Some e => ret (Some e)
              | None =>
                if fst w <? newBlockLen then
                  ret (Some (errorString
                    "number of bytes written to file is less than tags length"%string))
                else
                  let shift := blockLen - newBlockLen in
                  if shift >? 0 then ShiftFileLeft fuel' shift
                  else findAndWriteFlacCommentBlock fuel' data
              end
            else
              p <- Seek 0 SeekCurrent ;;
              let blockDataStartPos := fst p in
              Seek blockLen SeekCurrent ;;;
              ShiftFileRight fuel' (newBlockLen - blockLen) ;;;
              Seek blockDataStartPos SeekStart ;;;
              w <- Write preparedVorbisComment ;;
              match snd w with
              | Some e => ret (Some e)
              | None =>
                if fst w <? newBlockLen then
                  ret (Some (errorString
                    "number of bytes written to file is less than tags length"%string))
                else ret None
              end
          else
            Seek blockLen SeekCurrent ;;;
            findAndWriteFlacCommentBlock fuel' data
        end
    end
  end.

Definition WriteFLACTags (fuel : nat) (data : Data) : IO (option error) :=
  r <- readString 4 ;;
  match r with
  | Err e => ret (Some e)
  | Val flac =>
    if negb (bytes_eqb flac fLaC) then
      ret (Some (errorString "expected 'fLaC'"%string))
    else findAndWriteFlacCommentBlock fuel data
  end.

End Tags.

End Part000.

(** * Properties *)

(** ** The stream operations *)

Ltac zbool :=
  repeat match goal with
  | |- context [?a <? ?b] => destruct (Z.ltb_spec a b)
  | |- context [?a <=? ?b] => destruct (Z.leb_spec a b)
  | |- context [?a =? ?b] => destruct (Z.eqb_spec a b)
  | |- context [?a >? ?b] => rewrite (Z.gtb_ltb a b)
  | |- context [?a >=? ?b] => rewrite (Z.geb_leb a b)
  end.

Lemma bind_Done {A B} (c : IO A) (k : A -> IO B) f a f' :
  c f = Done a f' -> bind c k f = k a f'.
Proof. intros H; unfold bind; now rewrite H. Qed.

Lemma Seek_ok (offset : Z) (w : whence) (f : File) :
  let base := match w with
              | SeekStart => 0
              | SeekCurrent => Z.of_nat (pos f)
              | SeekEnd => size f
              end in
  0 <= base + offset ->
  Seek offset w f =
    Done (base + offset, None) (mkFile (content f) (Z.to_nat (base + offset))).
Proof. intros base H; unfold Seek; fold base; zbool; [lia | reflexivity]. Qed.

Lemma Seek_content offset w f a f' :
  Seek offset w f = Done a f' -> content f' = content f.
Proof.
  unfold Seek; destruct (_ <? 0); intros H; inversion H; reflexivity.
Qed.

Lemma Seek_current_0 f :
  Seek 0 SeekCurrent f = Done (Z.of_nat (pos f), None) f.
Proof.
  rewrite Seek_ok by (simpl; lia); simpl.
  rewrite Z.add_0_r, Nat2Z.id; now destruct f.
Qed.

(** The bytes [Read] delivers when the cursor is inside the file. *)
Lemma Read_inside n f :
  0 < n -> Z.of_nat (pos f) < size f ->
  Read n f =
    let bs := firstn (Z.to_nat (Z.min n (size f - Z.of_nat (pos f))))
                     (skipn (pos f) (content f)) in
    Done (bs, None) (mkFile (content f) (pos f + length bs)).
Proof. intros Hn Hp; unfold Read; zbool; try lia; reflexivity. Qed.

Lemma Read_full n f :
  0 < n -> Z.of_nat (pos f) + n <= size f ->
  Read n f =
    Done (firstn (Z.to_nat n) (skipn (pos f) (content f)), None)
         (mkFile (content f) (pos f + Z.to_nat n)).
Proof.
  intros Hn Hp; rewrite Read_inside by lia; cbv zeta.
  rewrite Z.min_l by lia.
  rewrite length_firstn, length_skipn.
  unfold size in Hp; do 2 f_equal; lia.
Qed.

Lemma Read_eof n f :
  0 < n -> size f <= Z.of_nat (pos f) -> Read n f = Done ([], Some EOF) f.
Proof. intros Hn Hp; unfold Read; zbool; try lia; reflexivity. Qed.

Lemma Read_content n f a f' : Read n f = Done a f' -> content f' = content f.
Proof.
  unfold Read; destruct (n <=? 0); [|destruct (_ <=? _)];
    intros H; inversion H; reflexivity.
Qed.

Lemma Read_Done n f : exists a f', Read n f = Done a f' /\ content f' = content f.
Proof.
  unfold Read; destruct (n <=? 0); [|destruct (_ <=? _)]; eauto.
Qed.

(** [readBytes] either delivers exactly [n] bytes and advances the cursor
    by [n], or fails on a short read. *)
Lemma readBytes_full n f :
  0 < n -> Z.of_nat (pos f) + n <= size f ->
  readBytes n f =
    Done (Val (firstn (Z.to_nat n) (skipn (pos f) (content f))))
         (mkFile (content f) (pos f + Z.to_nat n)).
Proof.
  intros Hn Hp; unfold readBytes.
  rewrite (bind_Done _ _ _ _ _ (Read_full n f Hn Hp)); cbn [fst].
  rewrite length_firstn, length_skipn; unfold size in Hp.
  replace (Z.of_nat _ =? n) with true; [reflexivity|].
  symmetry; apply Z.eqb_eq; lia.
Qed.

Lemma readBytes_short n f :
  0 < n -> size f < Z.of_nat (pos f) + n ->
  exists e f', readBytes n f = Done (Err e) f' /\ content f' = content f
    /\ (pos f <= pos f')%nat
    /\ (e = EOF \/ e = ErrUnexpectedEOF).
Proof.
  intros Hn Hp; unfold readBytes.
  destruct (Z.le_gt_cases (size f) (Z.of_nat (pos f))) as [He|Hi].
  - rewrite (bind_Done _ _ _ _ _ (Read_eof n f Hn He)); cbn [fst length].
    replace (Z.of_nat 0 =? n) with false by (symmetry; apply Z.eqb_neq; lia).
    exists EOF, f; unfold ret; auto.
  - rewrite (bind_Done _ _ _ _ _ (Read_inside n f Hn Hi)); cbv zeta; cbn [fst].
    rewrite Z.min_r by lia.
    set (bs := firstn _ _).
    assert (Hl : Z.of_nat (length bs) = size f - Z.of_nat (pos f)).
    { unfold bs; rewrite length_firstn, length_skipn; unfold size in *; lia. }
    replace (Z.of_nat (length bs) =? n) with false
      by (symmetry; apply Z.eqb_neq; lia).
    eexists _, _; unfold ret; split; [reflexivity|]; cbn [content pos].
    repeat split; [lia|destruct bs; auto].
Qed.

Lemma getInt_acc_nonneg bs : forall a, 0 <= a ->
  0 <= fold_left (fun n x => Z.lor (Z.shiftl n 8) (Z_of_byte x)) bs a.
Proof.
  induction bs as [|b bs IH]; intros a Ha; cbn [fold_left]; [assumption|].
  apply IH, Z.lor_nonneg; split.
  - apply Z.shiftl_nonneg; assumption.
  - unfold Z_of_byte; lia.
Qed.

Lemma getInt_nonneg bs : 0 <= getInt bs.
Proof. apply getInt_acc_nonneg; lia. Qed.

Lemma readInt_full n f :
  0 < n -> Z.of_nat (pos f) + n <= size f ->
  readInt n f =
    Done (Val (getInt (firstn (Z.to_nat n) (skipn (pos f) (content f)))))
         (mkFile (content f) (pos f + Z.to_nat n)).
Proof.
  intros Hn Hp; unfold readInt.
  now rewrite (bind_Done _ _ _ _ _ (readBytes_full n f Hn Hp)).
Qed.

Lemma readInt_short n f :
  0 < n -> size f < Z.of_nat (pos f) + n ->
  exists e f', readInt n f = Done (Err e) f' /\ content f' = content f
    /\ (pos f <= pos f')%nat.
Proof.
  intros Hn Hp; unfold readInt.
  destruct (readBytes_short n f Hn Hp) as (e & f' & H & Hc & Hq & _).
  rewrite (bind_Done _ _ _ _ _ H); eauto.
Qed.

(** ** The layout scan *)

Ltac step H := rewrite (bind_Done _ _ _ _ _ H).

(** The scan always ends: every block read moves the cursor forward, and
    a header that starts at or beyond the end of the file is an error.  It
    never writes. *)
Lemma findBlocks_loop_total : forall fuel bi ci m f,
  (length (content f) - pos f < fuel)%nat ->
  exists r f', findBlocks_loop fuel bi ci m f = Done r f'
               /\ content f' = content f
               /\ (layout_ok m -> layout_ok (fst r)).
Proof.
  induction fuel as [|fuel IH]; intros bi ci m f Hf; [lia|].
  cbn [findBlocks_loop].
  destruct (Z.le_gt_cases (Z.of_nat (pos f) + 1) (size f)) as [H1|H1].
  2:{ destruct (readBytes_short 1 f) as (e & f' & H & Hc & _); [lia..|].
      step H; unfold ret; eauto. }
  step (readBytes_full 1 f ltac:(lia) H1).
  set (f1 := mkFile (content f) (pos f + Z.to_nat 1)).
  set (b0 := Z_of_byte _).
  destruct (Z.le_gt_cases (Z.of_nat (pos f1) + 3) (size f1)) as [H3|H3].
  2:{ destruct (readInt_short 3 f1) as (e & f' & H & Hc & _); [lia..|].
      step H; unfold ret; eauto. }
  step (readInt_full 3 f1 ltac:(lia) H3).
  set (blockLen := getInt _).
  set (f2 := mkFile (content f1) (pos f1 + Z.to_nat 3)).
  assert (Hb : 0 <= blockLen) by apply getInt_nonneg.
  assert (Hnext : forall m' ci',
    (layout_ok m -> layout_ok m') ->
    exists r f',
      bind (Seek blockLen SeekCurrent)
        (fun _ => if getBit b0 7 then ret (m', Break)
                  else findBlocks_loop fuel (bi + 1) ci' m') f2 = Done r f'
      /\ content f' = content f
      /\ (layout_ok m -> layout_ok (fst r))).
  { intros m' ci' Hm'.
    step (Seek_ok blockLen SeekCurrent f2 ltac:(simpl; lia)).
    destruct (getBit b0 7); [unfold ret; eauto|].
    match goal with |- context [findBlocks_loop _ _ _ _ ?g] =>
      destruct (IH (bi + 1) ci' m' g) as (r & f' & H & Hc & Hok) end.
    { cbn [content pos f2 f1]; unfold size in *; cbn [content pos f1] in *.
      lia. }
    exists r, f'; split; [exact H|]; split; [rewrite Hc; reflexivity|auto]. }
  destruct (_ =? vorbisCommentBlock).
  - step (Seek_current_0 f2). apply Hnext.
    unfold layout_ok; cbn [commentBlockPos commentBlockLen paddingBlockPos
                            paddingBlockLen fst pos f2 f1]; lia.
  - destruct (_ =? paddingBlock); [destruct (bi =? ci + 1)|];
      try (apply Hnext; tauto).
    step (Seek_current_0 f2). unfold ret; eexists _, _.
    split; [reflexivity|]; split; [reflexivity|].
    unfold layout_ok; cbn [commentBlockPos commentBlockLen paddingBlockPos
                            paddingBlockLen fst pos f2 f1]; lia.
Qed.

Lemma findBlocks_total fuel m f :
  (length (content f) - pos f < fuel)%nat ->
  exists r f', findBlocks fuel m f = Done r f' /\ content f' = content f
               /\ (layout_ok m -> layout_ok (fst r)).
Proof.
  intros Hf; unfold findBlocks.
  step (Seek_current_0 f); cbn [fst].
  destruct (findBlocks_loop_total fuel 0 0 m f Hf)
    as ([m' x] & f' & H & Hc & Hok).
  step H; cbn [fst snd] in *.
  destruct x as [|e]; [|unfold ret; eauto].
  step (Seek_ok (Z.of_nat (pos f)) SeekStart f' ltac:(simpl; lia)).
  unfold ret; eauto.
Qed.

(** When the scan returns no error, the cursor is back where it was. *)
Lemma findBlocks_restores fuel m f m' f' :
  findBlocks fuel m f = Done (m', None) f' -> pos f' = pos f.
Proof.
  unfold findBlocks.
  step (Seek_current_0 f); cbn [fst].
  unfold bind at 1.
  destruct (findBlocks_loop fuel 0 0 m f) as [[m1 x] f1| |]; try discriminate.
  cbn [fst snd]; destruct x as [|e]; [|unfold ret; discriminate].
  step (Seek_ok (Z.of_nat (pos f)) SeekStart f1 ltac:(simpl; lia)).
  unfold ret; intros H; inversion H; cbn [pos]; lia.
Qed.

(** ** The signature check *)

Lemma bytes_eqb_false a b : a <> b -> bytes_eqb a b = false.
Proof. intros H; unfold bytes_eqb; destruct (list_eq_dec _ a b); congruence. Qed.

Lemma bytes_eqb_true a : bytes_eqb a a = true.
Proof. unfold bytes_eqb; destruct (list_eq_dec _ a a); congruence. Qed.

(** C9: when the four bytes at the cursor are not the signature "fLaC"
    (or fewer than four remain), ReadFLACTags and WriteFLACTags both fail
    with the same error, which is "expected 'fLaC'" when four bytes were
    there; the bytes of the file are unchanged and the cursor has moved
    over the signature read at most, so no block was read, whatever the
    decoders of the block payloads do. *)
Theorem bad_signature_rejected :
  forall (Data : Type) (PrepareVorbisComment : Data -> list byte)
         (Metadata : Type) (newMetadataVorbis : Metadata)
         (readVorbisComment readPictureBlock :
            Metadata -> IO (Metadata * option error))
         (fuel : nat) (data : Data) (f : File),
    firstn 4 (skipn (pos f) (content f)) <> fLaC ->
    exists e f',
      WriteFLACTags Data PrepareVorbisComment fuel data f = Done (Some e) f'
      /\ ReadFLACTags Metadata newMetadataVorbis readVorbisComment
           readPictureBlock fuel f = Done (Err e) f'
      /\ content f' = content f
      /\ (pos f <= pos f' <= pos f + 4)%nat
      /\ (Z.of_nat (pos f) + 4 <= size f ->
          e = errorString "expected 'fLaC'").
Proof.
  intros Data P Metadata m0 rvc rpb fuel data f Hsig.
  unfold WriteFLACTags, ReadFLACTags, readString.
  destruct (Z.le_gt_cases (Z.of_nat (pos f) + 4) (size f)) as [H4|H4].
  - step (readBytes_full 4 f ltac:(lia) H4).
    step (readBytes_full 4 f ltac:(lia) H4).
    change (Z.to_nat 4) with 4%nat.
    rewrite (bytes_eqb_false _ _ Hsig); cbn [negb]; unfold ret.
    eexists _, _; repeat split; cbn [pos]; lia.
  - destruct (readBytes_short 4 f) as (e & f' & H & Hc & Hp & He); [lia..|].
    step H. step H. unfold ret.
    exists e, f'; repeat split; try assumption; try lia.
    revert H; unfold readBytes, bind, Read.
    destruct (4 <=? 0); [|destruct (size f <=? _)]; cbn [fst].
    + destruct (_ =? 4); unfold ret; intros H; inversion H; subst; lia.
    + destruct (_ =? 4); unfold ret; intros H; inversion H; subst; lia.
    + destruct (_ =? 4); unfold ret; intros H; inversion H; subst; cbn [pos];
        rewrite length_firstn; lia.
Qed.

Lemma bad_signature_rejected_witness :
  exists e f',
    WriteFLACTags (list byte) encoded 10 [] (mkFile ("X"%byte :: tl scenario) 0)
      = Done (Some e) f'
    /\ ReadFLACTags unit tt (fun m => ret (m, None)) (fun m => ret (m, None)) 10
         (mkFile ("X"%byte :: tl scenario) 0) = Done (Err e) f'
    /\ content f' = "X"%byte :: tl scenario
    /\ (0 <= pos f' <= 0 + 4)%nat
    /\ (Z.of_nat 0 + 4 <= size (mkFile ("X"%byte :: tl scenario) 0) ->
        e = errorString "expected 'fLaC'").
Proof.
  apply (bad_signature_rejected (list byte) encoded unit tt
           (fun m => ret (m, None)) (fun m => ret (m, None)) 10 []
           (mkFile ("X"%byte :: tl scenario) 0)).
  vm_compute; discriminate.
Defined.

Lemma signature_inside f :
  firstn 4 (skipn (pos f) (content f)) = fLaC ->
  Z.of_nat (pos f) + 4 <= size f.
Proof.
  intros H; apply (f_equal (@length byte)) in H.
  rewrite length_firstn, length_skipn in H.
  change (length fLaC) with 4%nat in H; unfold size; lia.
Qed.

(** After a good signature the writer scans the layout from the byte
    behind it. *)
Lemma WriteFLACTags_scanned Data (P : Data -> list byte) fuel data f :
  firstn 4 (skipn (pos f) (content f)) = fLaC ->
  (length (content f) < fuel)%nat ->
  exists e f1,
    findBlocks fuel zeroLayout (mkFile (content f) (pos f + 4))
      = Done (layoutOf fuel f, e) f1
    /\ content f1 = content f
    /\ layout_ok (layoutOf fuel f)
    /\ WriteFLACTags Data P fuel data f =
       (let techMeta := layoutOf fuel f in
        let newCommentBlockLen := Z.of_nat (length (P data)) in
        if (newCommentBlockLen <?
              commentBlockLen techMeta + (paddingBlockLen techMeta - 4))
           && (paddingBlockLen techMeta >? 0)
        then
          shiftPadding techMeta newCommentBlockLen ;;;
          Seek (commentBlockPos techMeta + 1) SeekStart ;;;
          Write (formatUintBigEndian (uint newCommentBlockLen) 3) ;;;
          Write (P data) ;;;
          ret None
        else
          ret (Some (errorString "cannot write tags without padding"))) f1.
Proof.
  intros Hsig Hfuel.
  pose proof (signature_inside f Hsig) as H4.
  destruct (findBlocks_total fuel zeroLayout (mkFile (content f) (pos f + 4)))
    as ([m e] & f1 & Hfb & Hc & Hok); [cbn [content pos]; lia|].
  exists e, f1; unfold layoutOf; rewrite Hfb.
  split; [reflexivity|]; split; [exact Hc|]; split.
  { apply Hok; unfold layout_ok, zeroLayout; cbn; lia. }
  unfold WriteFLACTags, readString.
  step (readBytes_full 4 f ltac:(lia) H4).
  change (Z.to_nat 4) with 4%nat.
  rewrite Hsig, bytes_eqb_true; cbn [negb].
  step Hfb; reflexivity.
Qed.

(** ** The write without usable padding *)

(** C1, as the code has it: after a good signature, when the scanned
    layout has no padding (its length is 0) or the new payload is not
    shorter than the comment length plus the padding length minus 4,
    WriteFLACTags does not fall back to a scan-and-shift rewrite: it
    returns the error "cannot write tags without padding" and the bytes of
    the file, and so its length, are unchanged. *)
Theorem no_padding_no_write :
  forall (Data : Type) (PrepareVorbisComment : Data -> list byte)
         (fuel : nat) (data : Data) (f : File),
    (length (content f) < fuel)%nat ->
    firstn 4 (skipn (pos f) (content f)) = fLaC ->
    (paddingBlockLen (layoutOf fuel f) <= 0
     \/ commentBlockLen (layoutOf fuel f) + (paddingBlockLen (layoutOf fuel f) - 4)
        <= Z.of_nat (length (PrepareVorbisComment data))) ->
    exists f',
      WriteFLACTags Data PrepareVorbisComment fuel data f =
        Done (Some (errorString "cannot write tags without padding")) f'
      /\ content f' = content f.
Proof.
  intros Data P fuel data f Hfuel Hsig Hno.
  destruct (WriteFLACTags_scanned Data P fuel data f Hsig Hfuel)
    as (e & f1 & _ & Hc & _ & ->); cbv zeta.
  replace (_ && _) with false; [unfold ret; eauto|].
  symmetry; apply andb_false_iff.
  rewrite Z.gtb_ltb, Z.ltb_ge, Z.ltb_ge; tauto.
Qed.

Lemma no_padding_no_write_witness :
  exists f',
    WriteFLACTags (list byte) encoded 200 (repeat "n"%byte 200)
      (mkFile scenario 0) =
      Done (Some (errorString "cannot write tags without padding")) f'
    /\ content f' = scenario.
Proof.
  apply (no_padding_no_write (list byte) encoded 200 (repeat "n"%byte 200)
           (mkFile scenario 0)).
  - vm_compute; lia.
  - reflexivity.
  - right; vm_compute; discriminate.
Defined.

(** C1 fails on the spec's scenario: with a new payload of 200 bytes the
    call returns an error, nothing is shifted or written, and the file
    keeps its length instead of growing by 180. *)
Lemma fallback_scenario_counterexample :
  WriteFLACTags (list byte) encoded 200 (repeat "n"%byte 200)
    (mkFile scenario 0) =
    Done (Some (errorString "cannot write tags without padding"))
         (mkFile scenario 4)
  /\ ~ (exists r f',
          WriteFLACTags (list byte) encoded 200 (repeat "n"%byte 200)
            (mkFile scenario 0) = Done r f'
          /\ length (content f') = (length scenario + 180)%nat).
Proof.
  assert (H : WriteFLACTags (list byte) encoded 200 (repeat "n"%byte 200)
                (mkFile scenario 0) =
              Done (Some (errorString "cannot write tags without padding"))
                   (mkFile scenario 4)) by (vm_compute; reflexivity).
  split; [exact H|].
  intros (r & f' & H' & Hl); rewrite H in H'; inversion H'; subst.
  vm_compute in Hl; discriminate.
Qed.

(** The call that is never reached would not do better on that scenario:
    run behind the signature, findAndWriteFlacCommentBlock patches the
    length header, copies the trailing bytes 180 bytes further and then
    panics in ShiftFileRight, whose buffer has 100 bytes. *)
Lemma unreachable_fallback_on_scenario :
  exists f',
    findAndWriteFlacCommentBlock (list byte) encoded 200 (repeat "n"%byte 200)
      (mkFile scenario 4) = Panicked SliceBoundsOutOfRange f'
    /\ length (content f') = (length scenario + 180)%nat.
Proof. eexists; split; vm_compute; reflexivity. Qed.

(** ** The scan on chains it mishandles *)

(** C6 fails on a chain without a comment block whose second block is a
    padding block: [commentBlockIndex] is 0 from the start, so the padding
    block at index 1 passes the test [bi == commentBlockIndex+1] and is
    recorded, with the comment fields still zero. *)
Theorem findBlocks_records_padding_without_comment :
  findBlocks 10 zeroLayout (mkFile no_comment 4) =
    Done (mkLayout 0 0 42 100, None) (mkFile no_comment 4).
Proof. vm_compute; reflexivity. Qed.

(** C7 fails on a chain that ends without a last block: the scan returns
    the read error from inside the loop and leaves the cursor at the end
    of the file, not at offset 4 where it started. *)
Theorem findBlocks_error_leaves_cursor :
  findBlocks 10 zeroLayout (mkFile unterminated 4) =
    Done (zeroLayout, Some EOF) (mkFile unterminated 10).
Proof. vm_compute; reflexivity. Qed.

(** C8 fails on the same chain without a comment block: the write takes
    the padding path with the comment block "at offset 0", returns no
    error and overwrites the file from offset 1 on, the signature
    included. *)
Theorem missing_comment_block_is_written :
  exists f',
    WriteFLACTags (list byte) encoded 10 (repeat "n"%byte 30)
      (mkFile no_comment 0) = Done None f'
    /\ firstn 34 (content f') =
         "f"%byte :: formatUintBigEndian 30 3 ++ repeat "n"%byte 30
    /\ content f' <> no_comment.
Proof.
  eexists; split; [vm_compute; reflexivity|].
  split; [vm_compute; reflexivity|vm_compute; discriminate].
Qed.

(** ** The shifts on small files *)

(** C3 fails as soon as the offset is larger than the transfer buffer: on
    a file of 6 bytes with the cursor at 1 the buffer has 5 bytes, and a
    shift by 6 panics at [buf[:offset]]; so does the shift by 180 of the
    spec's scenario, whose buffer has 100 bytes. *)
Theorem ShiftFileRight_panics_on_large_offset :
  (exists f', ShiftFileRight 10 6 (mkFile abcdef 1)
              = Panicked SliceBoundsOutOfRange f')
  /\ (exists f', ShiftFileRight 10 180 (mkFile scenario 66)
                 = Panicked SliceBoundsOutOfRange f').
Proof. split; eexists; vm_compute; reflexivity. Qed.

(** C4 fails on every file: nothing truncates it.  On "abcdef" with the
    cursor at 1, a left shift by 2 gives "adefef", of length 6 and not 4. *)
Lemma ShiftFileLeft_counterexample :
  ShiftFileLeft 10 2 (mkFile abcdef 1) =
    Done None (mkFile ["a"; "d"; "e"; "f"; "e"; "f"]%byte 1)
  /\ ~ (exists r f', ShiftFileLeft 10 2 (mkFile abcdef 1) = Done r f'
                     /\ size f' = size (mkFile abcdef 1) - 2).
Proof.
  assert (H : ShiftFileLeft 10 2 (mkFile abcdef 1) =
              Done None (mkFile ["a"; "d"; "e"; "f"; "e"; "f"]%byte 1))
    by (vm_compute; reflexivity).
  split; [exact H|].
  intros (r & f' & H' & Hs); rewrite H in H'; inversion H'; subst.
  vm_compute in Hs; discriminate.
Qed.

(** C5 fails: on "abcdef" with the cursor at 1, a left shift by 2 and then
    a right shift by 2 give "a__defef": the result is 2 bytes longer than
    the original. *)
Lemma shift_left_right_counterexample :
  (exists f1, ShiftFileLeft 10 2 (mkFile abcdef 1) = Done None f1
     /\ ShiftFileRight 10 2 f1 =
        Done tt (mkFile ["a"; "_"; "_"; "d"; "e"; "f"; "e"; "f"]%byte 1))
  /\ ~ restored_but_gap abcdef ["a"; "_"; "_"; "d"; "e"; "f"; "e"; "f"]%byte 1 2.
Proof.
  split.
  - eexists; split; vm_compute; reflexivity.
  - intros (gap & Hl & H); apply (f_equal (@length byte)) in H.
    rewrite !length_app, length_firstn, length_skipn in H.
    cbn [length abcdef] in H; lia.
Qed.

(** ** Writing inside the file *)

Lemma overwrite_inside (c : list byte) p bs :
  (p <= length c)%nat ->
  overwrite c p bs = firstn p c ++ bs ++ skipn (p + length bs) c.
Proof.
  intros H; unfold overwrite.
  replace (p - length c)%nat with 0%nat by lia; reflexivity.
Qed.

Lemma length_overwrite_inside (c : list byte) p bs :
  (p + length bs <= length c)%nat -> length (overwrite c p bs) = length c.
Proof.
  intros H; rewrite overwrite_inside by lia.
  rewrite !length_app, length_firstn, length_skipn; lia.
Qed.

Lemma skipn_overwrite (c : list byte) p bs n :
  (p <= length c)%nat -> (p + length bs <= n)%nat ->
  skipn n (overwrite c p bs) = skipn n c.
Proof.
  intros Hp Hn; rewrite overwrite_inside by lia.
  rewrite !skipn_app, length_firstn.
  rewrite (skipn_all2 (firstn p c)) by (rewrite length_firstn; lia).
  rewrite (skipn_all2 bs) by lia.
  rewrite skipn_skipn; cbn [app]; f_equal; lia.
Qed.

Lemma firstn_overwrite_end (c : list byte) p bs :
  (p <= length c)%nat ->
  firstn (p + length bs) (overwrite c p bs) = firstn p c ++ bs.
Proof.
  intros Hp; rewrite overwrite_inside by lia.
  rewrite app_assoc.
  replace (p + length bs)%nat with (length (firstn p c ++ bs) + 0)%nat
    by (rewrite length_app, length_firstn; lia).
  rewrite firstn_app_2, firstn_0, app_nil_r; reflexivity.
Qed.

Lemma firstn_overwrite_before (c : list byte) p bs n :
  (n <= p)%nat -> (p <= length c)%nat ->
  firstn n (overwrite c p bs) = firstn n c.
Proof.
  intros Hn Hp; rewrite overwrite_inside by lia.
  rewrite firstn_app, length_firstn.
  replace (n - Nat.min p (length c))%nat with 0%nat by lia.
  rewrite firstn_0, app_nil_r, firstn_firstn; f_equal; lia.
Qed.

Lemma Write_inside bs f :
  bs <> [] ->
  Write bs f = Done (Z.of_nat (length bs), None)
                 (mkFile (overwrite (content f) (pos f) bs)
                         (pos f + length bs)).
Proof. destruct bs; [congruence|reflexivity]. Qed.

(** ** Shift Left *)

(** The loop of [ShiftFileLeft] with the write cursor at [w]: the bytes
    from [w + offset] on are pulled to [w], and the file keeps its length:
    its last [offset] bytes stay as they are. *)
Lemma ShiftFileLeft_loop_spec : forall fuel offset c w,
  0 <= offset ->
  (length c - (w + Z.to_nat offset) < fuel)%nat ->
  exists w',
    ShiftFileLeft_loop fuel offset (mkFile c w) =
      Done Break
        (mkFile (firstn w c ++ skipn (w + Z.to_nat offset) c
                   ++ skipn (Nat.max w (length c - Z.to_nat offset)) c) w').
Proof.
  induction fuel as [|fuel IH]; intros offset c w Ho Hf; [lia|].
  set (o := Z.to_nat offset) in *.
  cbn [ShiftFileLeft_loop].
  step (Seek_ok offset SeekCurrent (mkFile c w) ltac:(simpl; lia)).
  cbn [snd content pos].
  replace (Z.to_nat (Z.of_nat w + offset)) with (w + o)%nat by lia.
  set (f1 := mkFile c (w + o)).
  assert (Hlb : 0 < leftBufLen) by (unfold leftBufLen; lia).
  destruct (Z.le_gt_cases (size f1) (Z.of_nat (pos f1))) as [He|Hi].
  - (* end of file: nothing to move *)
    step (Read_eof leftBufLen f1 Hlb He); cbn [fst snd length].
    change (Z.of_nat 0 >? 0) with false; cbv iota; unfold ret.
    exists (w + o)%nat; unfold f1; do 2 f_equal.
    unfold size in He; cbn [content pos f1] in He.
    rewrite (skipn_all2 c (n := w + o)) by lia.
    replace (Nat.max w (length c - o)) with w by lia.
    cbn [app]; now rewrite firstn_skipn.
  - step (Read_inside leftBufLen f1 Hlb Hi); cbv zeta; cbn [fst snd].
    unfold size in Hi |- *; cbn [content pos f1] in Hi |- *.
    set (k := Z.to_nat (Z.min leftBufLen (Z.of_nat (length c) - Z.of_nat (w + o)))).
    set (bs := firstn k (skipn (w + o) c)).
    assert (Hk : (0 < k /\ w + o + k <= length c)%nat) by (unfold k; lia).
    assert (Hbs : length bs = k).
    { unfold bs; rewrite length_firstn, length_skipn; lia. }
    rewrite Hbs.
    replace (Z.of_nat k >? 0) with true by (symmetry; apply Z.gtb_lt; lia).
    step (Seek_ok (- (Z.of_nat k + offset)) SeekCurrent (mkFile c (w + o + k))
            ltac:(simpl; lia)).
    cbn [snd content pos].
    replace (Z.to_nat (Z.of_nat (w + o + k) + - (Z.of_nat k + offset)))
      with w by lia.
    step (Write_inside bs (mkFile c w)
            ltac:(intros E; rewrite E in Hbs; simpl in Hbs; lia)).
    cbn [snd content pos]; rewrite Hbs.
    set (c1 := overwrite c w bs).
    assert (Hl1 : length c1 = length c)
      by (apply length_overwrite_inside; lia).
    destruct (IH offset c1 (w + k)%nat Ho) as (w' & ->); [fold o; lia|].
    exists w'; do 2 f_equal. fold o. rewrite Hl1.
    replace (Nat.max (w + k) (length c - o)) with (length c - o)%nat by lia.
    replace (Nat.max w (length c - o)) with (length c - o)%nat by lia.
    unfold c1.
    rewrite <- Hbs at 1; rewrite firstn_overwrite_end by lia.
    rewrite !skipn_overwrite by lia.
    rewrite <- app_assoc; f_equal.
    rewrite app_assoc; f_equal.
    rewrite <- (firstn_skipn k (skipn (w + o) c)); fold bs.
    f_equal. rewrite skipn_skipn; f_equal; lia.
Qed.

(** The bytes of a file of content [c] after a left shift by [o] at [p]. *)
Lemma length_shifted_left (c : list byte) (p o : nat) :
  length (firstn p c ++ skipn (p + o) c
            ++ skipn (Nat.max p (length c - o)) c) = length c.
Proof. rewrite !length_app, length_firstn, !length_skipn; lia. Qed.

(** [ShiftFileLeft] for a non-negative offset and enough fuel for the
    loop. *)
Lemma ShiftFileLeft_spec fuel offset f :
  0 <= offset ->
  (length (content f) < fuel)%nat ->
  ShiftFileLeft fuel offset f =
    Done None
      (mkFile (firstn (pos f) (content f)
                 ++ skipn (pos f + Z.to_nat offset) (content f)
                 ++ skipn (Nat.max (pos f)
                             (length (content f) - Z.to_nat offset))
                          (content f))
              (pos f)).
Proof.
  destruct f as [c p]; cbn [content pos]; intros Ho Hf.
  unfold ShiftFileLeft.
  step (Seek_current_0 (mkFile c p)); cbn [fst pos].
  destruct (ShiftFileLeft_loop_spec fuel offset c p) as (w' & H); [lia..|].
  step H.
  match goal with |- context [mkFile ?c' w'] =>
    step (Seek_ok (Z.of_nat p) SeekStart (mkFile c' w') ltac:(simpl; lia)) end.
  cbn [content]; rewrite Z.add_0_l, Nat2Z.id; reflexivity.
Qed.

(** C4, as the code has it: for a positive offset and enough fuel for the
    loop, ShiftFileLeft returns no error, puts the cursor back at p, and
    moves the bytes of [p+offset, S) to [p, S-offset); the file is not
    truncated: its length is still S, and the bytes from S-offset on (from
    p on, when fewer than offset bytes follow the cursor) are the ones
    that were there. *)
Theorem ShiftFileLeft_moves_and_keeps_length :
  forall (fuel : nat) (offset : Z) (f : File),
    0 < offset ->
    (length (content f) < fuel)%nat ->
    let c := content f in
    let p := pos f in
    let o := Z.to_nat offset in
    exists f',
      ShiftFileLeft fuel offset f = Done None f'
      /\ content f' =
           firstn p c ++ skipn (p + o) c ++ skipn (Nat.max p (length c - o)) c
      /\ pos f' = p
      /\ size f' = size f.
Proof.
  intros fuel offset f Ho Hf; cbv zeta.
  rewrite ShiftFileLeft_spec by lia.
  eexists; split; [reflexivity|]; cbn [content pos].
  repeat split.
  unfold size; cbn [content]; now rewrite length_shifted_left.
Qed.

Lemma ShiftFileLeft_moves_and_keeps_length_witness :
  exists f',
    ShiftFileLeft 10 2 (mkFile abcdef 1) = Done None f'
    /\ content f' =
         firstn 1 abcdef ++ skipn (1 + Z.to_nat 2) abcdef
           ++ skipn (Nat.max 1 (length abcdef - Z.to_nat 2)) abcdef
    /\ pos f' = 1%nat
    /\ size f' = size (mkFile abcdef 1).
Proof.
  apply (ShiftFileLeft_moves_and_keeps_length 10 2 (mkFile abcdef 1)).
  - lia.
  - vm_compute; lia.
Defined.

(** ** Shift Right *)

Lemma fill_full (arr bs : list byte) :
  length bs = length arr -> fill arr bs = bs.
Proof.
  intros H; unfold fill; rewrite skipn_all2 by lia; apply app_nil_r.
Qed.

Lemma firstn_fill (arr bs : list byte) :
  firstn (length bs) (fill arr bs) = bs.
Proof.
  unfold fill.
  replace (length bs) with (length bs + 0)%nat at 1 by lia.
  now rewrite firstn_app_2, firstn_0, app_nil_r.
Qed.

Lemma length_fill (arr bs : list byte) :
  (length bs <= length arr)%nat -> length (fill arr bs) = length arr.
Proof. intros H; unfold fill; rewrite length_app, length_skipn; lia. Qed.

Lemma Write_written bs f :
  Write bs f = Done (Z.of_nat (length bs), None)
                 (mkFile (written (content f) (pos f) bs) (pos f + length bs)).
Proof.
  destruct bs; [|reflexivity]; cbn [Write written length].
  rewrite Nat.add_0_r; now destruct f.
Qed.

(** One turn of the loop of [ShiftFileRight] on a full chunk of [l] bytes
    at [s]: the chunk is copied [offset] bytes further, and the loop goes
    on with the chunk before it, or with what is left down to the
    original position [p]. *)
Lemma ShiftFileRight_loop_chunk fuel offset p arr l cur s :
  0 <= offset -> length arr = l -> (0 < l)%nat ->
  (s + l <= length cur)%nat -> (p <= s)%nat ->
  ShiftFileRight_loop (S fuel) offset (Z.of_nat p) arr
      (Z.of_nat l) (Z.of_nat l) false (mkFile cur s) =
    let bs := firstn l (skipn s cur) in
    let cur' := overwrite cur (s + Z.to_nat offset) bs in
    if (l <=? s - p)%nat then
      ShiftFileRight_loop fuel offset (Z.of_nat p) bs
        (Z.of_nat l) (Z.of_nat l) false (mkFile cur' (s - l))
    else
      ShiftFileRight_loop fuel offset (Z.of_nat p) bs
        (Z.of_nat (s - p)) (Z.of_nat (s - p)) true (mkFile cur' p).
Proof.
  intros Ho Harr Hl Hs Hp; cbv zeta.
  set (o := Z.to_nat offset).
  set (bs := firstn l (skipn s cur)).
  assert (Hbs : length bs = l)
    by (unfold bs; rewrite length_firstn, length_skipn; lia).
  cbn [ShiftFileRight_loop].
  step (Read_full (Z.of_nat l) (mkFile cur s) ltac:(lia)
          ltac:(unfold size; cbn [content pos]; lia)).
  cbn [fst content pos]; rewrite Nat2Z.id; fold bs.
  rewrite (fill_full arr bs) by lia.
  step (Seek_ok (- Z.of_nat l + offset) SeekCurrent (mkFile cur (s + l))
          ltac:(simpl; lia)).
  cbn [content pos].
  replace (Z.to_nat (Z.of_nat (s + l) + (- Z.of_nat l + offset)))
    with (s + o)%nat by lia.
  rewrite (firstn_all2 bs) by lia.
  step (Write_inside bs (mkFile cur (s + o))
          ltac:(intros E; rewrite E in Hbs; simpl in Hbs; lia)).
  cbn [content pos]; rewrite Hbs.
  set (cur' := overwrite cur (s + o) bs).
  step (Seek_ok (- Z.of_nat l - offset) SeekCurrent (mkFile cur' (s + o + l))
          ltac:(simpl; lia)).
  cbn [fst content pos].
  replace (Z.of_nat (s + o + l) + (- Z.of_nat l - offset)) with (Z.of_nat s)
    by lia.
  rewrite Nat2Z.id, Z.geb_leb.
  destruct (Nat.leb_spec l (s - p)) as [Hge|Hlt].
  - replace (Z.of_nat l <=? Z.of_nat s - Z.of_nat p) with true
      by (symmetry; apply Z.leb_le; lia).
    step (Seek_ok (- Z.of_nat l) SeekCurrent (mkFile cur' s) ltac:(simpl; lia)).
    cbn [content pos].
    replace (Z.to_nat (Z.of_nat s + - Z.of_nat l)) with (s - l)%nat by lia.
    reflexivity.
  - replace (Z.of_nat l <=? Z.of_nat s - Z.of_nat p) with false
      by (symmetry; apply Z.leb_gt; lia).
    step (Seek_ok (- (Z.of_nat s - Z.of_nat p)) SeekCurrent (mkFile cur' s)
            ltac:(simpl; lia)).
    cbn [content pos].
    replace (Z.to_nat (Z.of_nat s + - (Z.of_nat s - Z.of_nat p))) with p by lia.
    replace (Z.of_nat s - Z.of_nat p) with (Z.of_nat (s - p)) by lia.
    replace (Z.of_nat (s - p) <? 0) with false
      by (symmetry; apply Z.ltb_ge; lia).
    rewrite ?Hbs.
    replace (Z.of_nat l <? Z.of_nat (s - p)) with false
      by (symmetry; apply Z.ltb_ge; lia).
    reflexivity.
Qed.

(** The last turn, on the [k] bytes left at the original position: they
    are copied [offset] bytes further, and then [buf[:offset]] is filled
    with "_" and written into the gap, if the array behind [buf] has
    [offset] bytes. *)
Lemma ShiftFileRight_loop_last fuel offset P arr k cur p :
  0 <= offset -> (k <= length arr)%nat -> (p + k <= length cur)%nat ->
  ShiftFileRight_loop (S fuel) offset P arr
      (Z.of_nat k) (Z.of_nat k) true (mkFile cur p) =
    let o := Z.to_nat offset in
    let cur' := written cur (p + o) (firstn k (skipn p cur)) in
    if Z.of_nat (length arr) <? offset
    then Panicked SliceBoundsOutOfRange (mkFile cur' p)
    else Done tt (mkFile (written cur' p (repeat "_"%byte o)) (p + o)).
Proof.
  intros Ho Hk Hp; cbv zeta.
  set (o := Z.to_nat offset).
  set (bs := firstn k (skipn p cur)).
  assert (Hbs : length bs = k)
    by (unfold bs; rewrite length_firstn, length_skipn; lia).
  cbn [ShiftFileRight_loop].
  assert (HR : Read (Z.of_nat k) (mkFile cur p) =
               Done (bs, None) (mkFile cur (p + k))).
  { destruct k as [|k'].
    - unfold Read; cbn [Z.of_nat Z.leb Z.compare].
      unfold bs; rewrite firstn_0, Nat.add_0_r; reflexivity.
    - rewrite Read_full by (unfold size; cbn [content pos]; lia).
      cbn [content pos]; rewrite Nat2Z.id; reflexivity. }
  step HR; cbn [fst].
  step (Seek_ok (- Z.of_nat k + offset) SeekCurrent (mkFile cur (p + k))
          ltac:(simpl; lia)).
  cbn [content pos].
  replace (Z.to_nat (Z.of_nat (p + k) + (- Z.of_nat k + offset)))
    with (p + o)%nat by lia.
  rewrite Nat2Z.id; rewrite <- Hbs at 1; rewrite firstn_fill.
  step (Write_written bs (mkFile cur (p + o))).
  cbn [content pos]; rewrite Hbs.
  set (cur' := written cur (p + o) bs).
  step (Seek_ok (- Z.of_nat k - offset) SeekCurrent (mkFile cur' (p + o + k))
          ltac:(simpl; lia)).
  cbn [content pos].
  replace (Z.to_nat (Z.of_nat (p + o + k) + (- Z.of_nat k - offset)))
    with p by lia.
  replace (offset <? 0) with false by (symmetry; apply Z.ltb_ge; lia).
  cbn [orb]; rewrite length_fill by lia.
  destruct (Z.of_nat (length arr) <? offset); [reflexivity|].
  step (Write_written (repeat "_"%byte o) (mkFile cur' p)).
  cbn [content pos]; rewrite repeat_length; reflexivity.
Qed.

Lemma length_overwrite (c : list byte) p bs :
  length (overwrite c p bs) = Nat.max (length c) (p + length bs).
Proof.
  unfold overwrite.
  rewrite !length_app, length_firstn, repeat_length, length_skipn; lia.
Qed.

Lemma length_written_ge (c : list byte) p bs :
  (length c <= length (written c p bs))%nat.
Proof.
  destruct bs; cbn [written]; [lia|rewrite length_overwrite; lia].
Qed.

Lemma overwrite_app (a r bs : list byte) :
  overwrite (a ++ r) (length a) bs = a ++ bs ++ skipn (length bs) r.
Proof.
  unfold overwrite.
  replace (length a) with (length a + 0)%nat at 1 by lia.
  rewrite firstn_app_2, firstn_0, app_nil_r.
  rewrite length_app.
  replace (length a - (length a + length r))%nat with 0%nat by lia.
  rewrite skipn_app, (skipn_all2 a) by lia.
  cbn [repeat app]; do 3 f_equal; lia.
Qed.

Lemma firstn_skipn_firstn (c : list byte) n s m :
  (s + n <= m)%nat -> firstn n (skipn s (firstn m c)) = firstn n (skipn s c).
Proof.
  intros H; rewrite skipn_firstn_comm, firstn_firstn; f_equal; lia.
Qed.

Section Moving.

(** The bytes [c] of the file before the shift and the distance [o]. *)
Variable c : list byte.
Variable o : nat.

Lemma moved_from_end : moved_from c o (length c) = c.
Proof.
  unfold moved_from.
  rewrite firstn_all2, skipn_all2 by lia; apply app_nil_r.
Qed.

Lemma length_moved_from_ge e :
  (e <= length c)%nat -> (e <= length (moved_from c o e))%nat.
Proof.
  intros H; unfold moved_from; rewrite length_app, length_firstn, length_skipn.
  lia.
Qed.

Variables e s : nat.
Hypothesis Hse : (s <= e <= length c)%nat.
Hypothesis Hinv : e = length c \/ (e + o <= length c)%nat.
Hypothesis Hso : (s + o <= length c)%nat.

(** The chunk [s, e) is still the original one ... *)
Lemma chunk_unmoved :
  firstn (e - s) (skipn s (moved_from c o e)) = firstn (e - s) (skipn s c).
Proof.
  unfold moved_from.
  rewrite skipn_app, firstn_app.
  rewrite length_skipn, length_firstn.
  replace (e - s - (Nat.min (e + o) (length c) - s))%nat with 0%nat by lia.
  rewrite firstn_0, app_nil_r.
  destruct Hinv as [->|H].
  - rewrite (firstn_all2 c (n := length c + o)) by lia; reflexivity.
  - apply firstn_skipn_firstn; lia.
Qed.

(** ... and copying it [o] bytes further gives the file moved from [s]. *)
Lemma chunk_moved :
  written (moved_from c o e) (s + o) (firstn (e - s) (skipn s c))
  = moved_from c o s.
Proof.
  set (bs := firstn (e - s) (skipn s c)).
  assert (Hbs : length bs = (e - s)%nat)
    by (unfold bs; rewrite length_firstn, length_skipn; lia).
  assert (Hsplit : skipn s c = bs ++ skipn e c).
  { unfold bs; rewrite <- (firstn_skipn (e - s) (skipn s c)) at 1.
    f_equal; rewrite skipn_skipn; f_equal; lia. }
  assert (Hm : moved_from c o e =
               firstn (s + o) c ++ skipn (s + o) (firstn (e + o) c)
                 ++ skipn e c).
  { unfold moved_from; rewrite app_assoc; f_equal.
    rewrite <- (firstn_skipn (s + o) (firstn (e + o) c)) at 1.
    f_equal; rewrite firstn_firstn; f_equal; lia. }
  unfold moved_from at 2; rewrite Hsplit.
  destruct bs as [|b bs'] eqn:Ebs; cbn [written].
  - cbn [length] in Hbs; assert (e = s) by lia; subst e.
    unfold moved_from; reflexivity.
  - rewrite <- Ebs in *; clear Ebs.
    rewrite Hm.
    match goal with |- overwrite ?x _ _ = _ =>
      replace (overwrite x (s + o) bs)
        with (overwrite x (length (firstn (s + o) c)) bs)
        by (f_equal; rewrite length_firstn; lia) end.
    rewrite overwrite_app; do 2 f_equal.
    rewrite skipn_app.
    rewrite length_skipn, length_firstn, Hbs.
    destruct Hinv as [->|H].
    + rewrite (firstn_all2 c (n := length c + o)) by lia.
      rewrite !skipn_skipn, !skipn_all2 by (rewrite ?length_skipn; lia).
      reflexivity.
    + rewrite (skipn_all2 (skipn (s + o) (firstn (e + o) c)))
        by (rewrite length_skipn, length_firstn; lia).
      replace (e - s - (Nat.min (e + o) (length c) - (s + o)))%nat
        with 0%nat by lia.
      reflexivity.
Qed.

(** Filling the gap at [s] with [o] bytes. *)
Lemma gap_filled (gap : list byte) :
  length gap = o ->
  written (moved_from c o s) s gap = firstn s c ++ gap ++ skipn s c.
Proof.
  intros Hg; unfold moved_from.
  destruct gap as [|g gap'] eqn:Eg; cbn [written].
  - cbn [length] in Hg; subst o; now rewrite Nat.add_0_r.
  - rewrite <- Eg in *; clear Eg.
    rewrite <- (firstn_skipn s (firstn (s + o) c)), <- app_assoc.
    rewrite firstn_firstn; replace (Nat.min s (s + o)) with s by lia.
    match goal with |- overwrite ?x _ _ = _ =>
      replace (overwrite x s gap)
        with (overwrite x (length (firstn s c)) gap)
        by (f_equal; rewrite length_firstn; lia) end.
    rewrite overwrite_app; do 2 f_equal.
    rewrite skipn_app, skipn_all2
      by (rewrite length_skipn, length_firstn; lia).
    rewrite length_skipn, length_firstn.
    replace (length gap - (Nat.min (s + o) (length c) - s))%nat
      with 0%nat by lia.
    reflexivity.
Qed.

End Moving.

Lemma written_nonempty (c : list byte) p bs :
  bs <> [] -> overwrite c p bs = written c p bs.
Proof. destruct bs; [congruence|reflexivity]. Qed.

Lemma chunk_nonempty (c : list byte) n s :
  (0 < n)%nat -> (s + n <= length c)%nat -> firstn n (skipn s c) <> [].
Proof.
  intros Hn Hs E; apply (f_equal (@length byte)) in E.
  rewrite length_firstn, length_skipn in E; cbn [length] in E; lia.
Qed.

(** The bytes of the file after the last turn of the loop, within the
    capacity of the buffer. *)
Lemma ShiftFileRight_last_moves fuel offset P arr c e p :
  0 <= offset <= Z.of_nat (length arr) ->
  (p <= e <= length c)%nat -> (e - p <= length arr)%nat ->
  e = length c \/ (e + Z.to_nat offset <= length c)%nat ->
  (p + Z.to_nat offset <= length c)%nat ->
  ShiftFileRight_loop (S fuel) offset P arr
      (Z.of_nat (e - p)) (Z.of_nat (e - p)) true
      (mkFile (moved_from c (Z.to_nat offset) e) p) =
    Done tt (mkFile (firstn p c ++ repeat "_"%byte (Z.to_nat offset)
                       ++ skipn p c) (p + Z.to_nat offset)).
Proof.
  intros Ho Hpe Hk Hinv Hpo.
  rewrite ShiftFileRight_loop_last;
    [|lia|lia|pose proof (length_moved_from_ge c (Z.to_nat offset) e); lia].
  cbv zeta.
  replace (Z.of_nat (length arr) <? offset) with false
    by (symmetry; apply Z.ltb_ge; lia).
  rewrite (chunk_unmoved c _ e p), (chunk_moved c _ e p) by assumption.
  rewrite (gap_filled c _ p p); try reflexivity; try lia.
  apply repeat_length.
Qed.

(** The loop on full chunks of 100 bytes, for an offset of at most 100:
    everything from [p] on ends [offset] bytes further, behind a gap
    filled with "_". *)
Lemma ShiftFileRight_loop_moves : forall fuel offset p c e arr,
  0 <= offset <= 100 -> length arr = 100%nat ->
  (p + 100 <= e <= length c)%nat ->
  e = length c \/ (e + Z.to_nat offset <= length c)%nat ->
  (e - p < fuel)%nat ->
  ShiftFileRight_loop fuel offset (Z.of_nat p) arr
      (Z.of_nat 100) (Z.of_nat 100) false
      (mkFile (moved_from c (Z.to_nat offset) e) (e - 100)) =
    Done tt (mkFile (firstn p c ++ repeat "_"%byte (Z.to_nat offset)
                       ++ skipn p c) (p + Z.to_nat offset)).
Proof.
  induction fuel as [|fuel IH]; intros offset p c e arr Ho Harr He Hinv Hf;
    [lia|].
  set (o := Z.to_nat offset) in *.
  pose proof (length_moved_from_ge c o e ltac:(lia)) as Hlen.
  assert (Hchunk : firstn 100 (skipn (e - 100) (moved_from c o e)) =
                   firstn 100 (skipn (e - 100) c)).
  { pose proof (chunk_unmoved c o e (e - 100)) as H.
    replace (e - (e - 100))%nat with 100%nat in H by lia; apply H; lia. }
  assert (Hmoved : written (moved_from c o e) (e - 100 + o)
                     (firstn 100 (skipn (e - 100) c)) =
                   moved_from c o (e - 100)).
  { pose proof (chunk_moved c o e (e - 100)) as H.
    replace (e - (e - 100))%nat with 100%nat in H by lia; apply H; lia. }
  rewrite ShiftFileRight_loop_chunk by lia; cbv zeta; fold o.
  rewrite Hchunk, written_nonempty, Hmoved by (apply chunk_nonempty; lia).
  assert (Hbs : length (firstn 100 (skipn (e - 100) c)) = 100%nat)
    by (rewrite length_firstn, length_skipn; lia).
  destruct (Nat.leb_spec 100 (e - 100 - p)) as [Hge|Hlt].
  - apply IH; try lia; assumption.
  - destruct fuel as [|fuel]; [lia|].
    apply ShiftFileRight_last_moves; rewrite ?Hbs; lia.
Qed.

(** Beyond the capacity of the buffer the loop ends in a panic. *)
Lemma ShiftFileRight_loop_panics : forall fuel offset p cur s arr,
  100 < offset -> length arr = 100%nat ->
  (p <= s)%nat -> (s + 100 <= length cur)%nat ->
  (s - p + 1 < fuel)%nat ->
  exists f',
    ShiftFileRight_loop fuel offset (Z.of_nat p) arr
      (Z.of_nat 100) (Z.of_nat 100) false (mkFile cur s)
    = Panicked SliceBoundsOutOfRange f'.
Proof.
  induction fuel as [|fuel IH]; intros offset p cur s arr Ho Harr Hp Hs Hf;
    [lia|].
  rewrite ShiftFileRight_loop_chunk by lia; cbv zeta.
  set (bs := firstn 100 (skipn s cur)).
  assert (Hbs : length bs = 100%nat)
    by (unfold bs; rewrite length_firstn, length_skipn; lia).
  set (cur' := overwrite cur (s + Z.to_nat offset) bs).
  assert (Hcur' : (length cur <= length cur')%nat)
    by (unfold cur'; rewrite length_overwrite; lia).
  destruct (Nat.leb_spec 100 (s - p)) as [Hge|Hlt].
  - apply IH; lia.
  - destruct fuel as [|fuel]; [lia|].
    rewrite ShiftFileRight_loop_last by lia; cbv zeta.
    replace (Z.of_nat (length bs) <? offset) with true
      by (symmetry; apply Z.ltb_lt; lia).
    eauto.
Qed.

(** The start of [ShiftFileRight]: the size of the buffer and the place
    of the first chunk. *)
Lemma ShiftFileRight_unfold fuel offset c p :
  ShiftFileRight fuel offset (mkFile c p) =
    if (length c <? p)%nat then
      Panicked MakesliceLenOutOfRange (mkFile c p)
    else if (length c - p <? 100)%nat then
      (ShiftFileRight_loop fuel offset (Z.of_nat p)
         (repeat x00 (length c - p))
         (Z.of_nat (length c - p)) (Z.of_nat (length c - p)) true ;;;
       Seek (Z.of_nat p) SeekStart ;;; ret tt) (mkFile c p)
    else
      (ShiftFileRight_loop fuel offset (Z.of_nat p) (repeat x00 100)
         (Z.of_nat 100) (Z.of_nat 100) false ;;;
       Seek (Z.of_nat p) SeekStart ;;; ret tt) (mkFile c (length c - 100)).
Proof.
  unfold ShiftFileRight.
  step (Seek_current_0 (mkFile c p)); cbn [fst pos].
  step (Seek_ok 0 SeekEnd (mkFile c p) ltac:(unfold size; simpl; lia)).
  cbn [fst content]; unfold size; cbn [content]; rewrite Z.add_0_r.
  match goal with |- context [mkFile c ?q] =>
    step (Seek_ok (Z.of_nat p) SeekStart (mkFile c q) ltac:(simpl; lia)) end.
  cbn [content]; rewrite Z.add_0_l, Nat2Z.id.
  destruct (Z.ltb_spec (Z.of_nat (length c) - Z.of_nat p) 100) as [Hs|Hb].
  - destruct (Nat.ltb_spec (length c) p) as [Hlt|Hge].
    + replace (Z.of_nat (length c) - Z.of_nat p <? 0) with true
        by (symmetry; apply Z.ltb_lt; lia).
      reflexivity.
    + replace (Z.of_nat (length c) - Z.of_nat p <? 0) with false
        by (symmetry; apply Z.ltb_ge; lia).
      replace (length c - p <? 100)%nat with true
        by (symmetry; apply Nat.ltb_lt; lia).
      replace (Z.of_nat (length c) - Z.of_nat p)
        with (Z.of_nat (length c - p)) by lia.
      rewrite Nat2Z.id, repeat_length.
      step (Seek_ok (- Z.of_nat (length c - p)) SeekEnd (mkFile c p)
              ltac:(unfold size; simpl; lia)).
      unfold size; cbn [content].
      replace (Z.to_nat (Z.of_nat (length c) + - Z.of_nat (length c - p)))
        with p by lia.
      reflexivity.
  - replace (length c <? p)%nat with false
      by (symmetry; apply Nat.ltb_ge; lia).
    replace (length c - p <? 100)%nat with false
      by (symmetry; apply Nat.ltb_ge; lia).
    change (100 <? 0) with false; cbv iota.
    change (Z.to_nat 100) with 100%nat; rewrite repeat_length.
    step (Seek_ok (- Z.of_nat 100) SeekEnd (mkFile c p)
            ltac:(unfold size; simpl; lia)).
    unfold size; cbn [content].
    replace (Z.to_nat (Z.of_nat (length c) + - Z.of_nat 100))
      with (length c - 100)%nat by lia.
    reflexivity.
Qed.

(** Within the capacity of the buffer, [ShiftFileRight] opens a gap of
    [offset] bytes at the cursor, filled with "_": every byte from the
    cursor on is [offset] bytes further, and the cursor is back. *)
Lemma ShiftFileRight_opens_gap fuel offset f :
  0 <= offset <= Z.min 100 (size f - Z.of_nat (pos f)) ->
  (length (content f) < fuel)%nat ->
  ShiftFileRight fuel offset f =
    Done tt (mkFile (firstn (pos f) (content f)
                       ++ repeat "_"%byte (Z.to_nat offset)
                       ++ skipn (pos f) (content f)) (pos f)).
Proof.
  destruct f as [c p]; unfold size; cbn [content pos]; intros Ho Hf.
  rewrite ShiftFileRight_unfold.
  replace (length c <? p)%nat with false by (symmetry; apply Nat.ltb_ge; lia).
  assert (HS : forall A q, bind (Seek (Z.of_nat p) SeekStart)
                             (fun _ => ret tt) (mkFile A q) = Done tt (mkFile A p)).
  { intros A q.
    step (Seek_ok (Z.of_nat p) SeekStart (mkFile A q) ltac:(simpl; lia)).
    cbn [content]; rewrite Z.add_0_l, Nat2Z.id; reflexivity. }
  destruct (Nat.ltb_spec (length c - p) 100) as [Hs|Hb].
  - destruct fuel as [|fuel]; [lia|].
    pose proof (ShiftFileRight_last_moves fuel offset (Z.of_nat p)
                  (repeat x00 (length c - p)) c (length c) p) as H.
    rewrite moved_from_end, repeat_length in H.
    unfold bind at 1; rewrite H by lia; apply HS.
  - pose proof (ShiftFileRight_loop_moves fuel offset p c (length c)
                  (repeat x00 100)) as H.
    rewrite moved_from_end, repeat_length in H.
    unfold bind at 1; rewrite H by lia; apply HS.
Qed.

(** C10: with enough fuel for the loop, ShiftFileRight ends without a
    panic when the offset is at most min(100, fileSize - cursor), the
    capacity of its buffer, and it panics for every offset beyond that
    bound: at [make] when the cursor is beyond the end of the file, at
    [buf[:offset]] otherwise. *)
Theorem ShiftFileRight_panic_free_iff :
  forall (fuel : nat) (offset : Z) (f : File),
    (length (content f) + 1 < fuel)%nat ->
    (0 <= offset <= Z.min 100 (size f - Z.of_nat (pos f)) ->
     exists f', ShiftFileRight fuel offset f = Done tt f'
                /\ size f' = size f + offset)
    /\ (Z.min 100 (size f - Z.of_nat (pos f)) < offset ->
        exists pn f', ShiftFileRight fuel offset f = Panicked pn f').
Proof.
  intros fuel offset [c p] Hf; cbn [content pos] in Hf; split; intros Ho.
  - rewrite ShiftFileRight_opens_gap by (cbn [content]; lia).
    eexists; split; [reflexivity|].
    unfold size in *; cbn [content pos] in *.
    rewrite !length_app, length_firstn, repeat_length, length_skipn; lia.
  - unfold size in Ho; cbn [content pos] in Ho.
    rewrite ShiftFileRight_unfold.
    destruct (Nat.ltb_spec (length c) p) as [Hlt|Hge]; [eauto|].
    destruct (Nat.ltb_spec (length c - p) 100) as [Hs|Hb].
    + destruct fuel as [|fuel]; [lia|].
      unfold bind at 1.
      rewrite ShiftFileRight_loop_last by (rewrite ?repeat_length; lia).
      cbv zeta; rewrite repeat_length.
      replace (Z.of_nat (length c - p) <? offset) with true
        by (symmetry; apply Z.ltb_lt; lia).
      eauto.
    + destruct (ShiftFileRight_loop_panics fuel offset p c (length c - 100)
                  (repeat x00 100)) as (f' & H);
        rewrite ?repeat_length; try lia.
      unfold bind at 1; rewrite H; eauto.
Qed.

Lemma ShiftFileRight_panic_free_iff_witness :
  (exists f', ShiftFileRight 10 2 (mkFile abcdef 1) = Done tt f'
              /\ size f' = size (mkFile abcdef 1) + 2)
  /\ (exists pn f', ShiftFileRight 10 6 (mkFile abcdef 1) = Panicked pn f').
Proof.
  split.
  - apply (ShiftFileRight_panic_free_iff 10 2 (mkFile abcdef 1));
      vm_compute; try lia; split; discriminate.
  - apply (ShiftFileRight_panic_free_iff 10 6 (mkFile abcdef 1));
      vm_compute; try lia; reflexivity.
Defined.

(** ** Shift Left, then Shift Right *)

(** C5, as the code has it, for an offset within the capacity of the
    buffer of ShiftFileRight (at most 100 and at most the number of bytes
    behind the cursor): ShiftFileLeft and then ShiftFileRight, at the same
    cursor and with enough fuel, give a file that starts with the original
    bytes, but for a gap of [offset] bytes at the cursor, which holds "_"
    bytes, and that goes on with [offset] more bytes, a second copy of the
    last [offset] bytes of the original: the result is [offset] bytes
    longer than the original. *)
Theorem shift_left_then_right :
  forall (fuel : nat) (offset : Z) (f : File),
    0 < offset <= Z.min 100 (size f - Z.of_nat (pos f)) ->
    (length (content f) < fuel)%nat ->
    exists f1 f2 r,
      ShiftFileLeft fuel offset f = Done None f1
      /\ ShiftFileRight fuel offset f1 = Done tt f2
      /\ pos f2 = pos f
      /\ content f2 =
           r ++ skipn (length (content f) - Z.to_nat offset) (content f)
      /\ restored_but_gap (content f) r (pos f) offset
      /\ size f2 = size f + offset.
Proof.
  intros fuel offset [c p]; unfold size; cbn [content pos]; intros Ho Hf.
  set (o := Z.to_nat offset).
  rewrite ShiftFileLeft_spec by (cbn [content]; lia); cbn [content pos].
  fold o; replace (Nat.max p (length c - o)) with (length c - o)%nat by lia.
  set (c1 := firstn p c ++ skipn (p + o) c ++ skipn (length c - o) c).
  assert (Hl1 : length c1 = length c).
  { unfold c1; rewrite !length_app, length_firstn, !length_skipn; lia. }
  assert (Hf1 : firstn p c1 = firstn p c).
  { unfold c1.
    replace p with (length (firstn p c) + 0)%nat at 1
      by (rewrite length_firstn; lia).
    now rewrite firstn_app_2, firstn_0, app_nil_r. }
  assert (Hs1 : skipn p c1 = skipn (p + o) c ++ skipn (length c - o) c).
  { unfold c1; rewrite skipn_app, skipn_all2 by (rewrite length_firstn; lia).
    rewrite length_firstn.
    replace (p - Nat.min p (length c))%nat with 0%nat by lia; reflexivity. }
  exists (mkFile c1 p).
  exists (mkFile (firstn p c1 ++ repeat "_"%byte o ++ skipn p c1) p).
  exists (firstn p c ++ repeat "_"%byte o ++ skipn (p + o) c).
  split; [reflexivity|]; split.
  { rewrite ShiftFileRight_opens_gap
      by (unfold size; cbn [content pos]; rewrite ?Hl1; lia).
    reflexivity. }
  cbn [content pos]; rewrite Hf1, Hs1.
  split; [reflexivity|]; split; [now rewrite <- !app_assoc|]; split.
  - exists (repeat "_"%byte o); rewrite repeat_length; split; [lia|reflexivity].
  - rewrite !length_app, length_firstn, repeat_length, !length_skipn; lia.
Qed.

Lemma shift_left_then_right_witness :
  exists f1 f2 r,
    ShiftFileLeft 10 2 (mkFile abcdef 1) = Done None f1
    /\ ShiftFileRight 10 2 f1 = Done tt f2
    /\ pos f2 = 1%nat
    /\ content f2 = r ++ skipn (length abcdef - Z.to_nat 2) abcdef
    /\ restored_but_gap abcdef r 1 2
    /\ size f2 = size (mkFile abcdef 1) + 2.
Proof.
  apply (shift_left_then_right 10 2 (mkFile abcdef 1)).
  - vm_compute; split; [reflexivity|discriminate].
  - vm_compute; lia.
Defined.

(** ** The header codec *)

Lemma Z_of_byte_range b : 0 <= Z_of_byte b < 256.
Proof. unfold Z_of_byte; pose proof (Byte.to_N_bounded b); lia. Qed.

Lemma Z_of_byte_of_Z z : Z_of_byte (byte_of_Z z) = z mod 256.
Proof.
  unfold Z_of_byte, byte_of_Z.
  pose proof (Z.mod_pos_bound z 256 ltac:(lia)) as Hm.
  destruct (Byte.of_N (Z.to_N (z mod 256))) as [b|] eqn:E.
  - apply Byte.to_of_N in E; rewrite E; lia.
  - apply Byte.of_N_None_iff in E; lia.
Qed.

Lemma lor_shiftl_8 a b :
  0 <= a -> 0 <= b < 256 -> Z.lor (Z.shiftl a 8) b = a * 256 + b.
Proof.
  intros Ha Hb.
  pose proof (Z.add_lor_land (Z.shiftl a 8) b) as H.
  rewrite Z.shiftl_mul_pow2 in * by lia.
  assert (H0 : Z.land (a * 2 ^ 8) b = 0);
    [|rewrite H0 in H; change (2 ^ 8) with 256 in *; lia].
  apply Z.bits_inj'; intros k Hk.
  rewrite Z.land_spec, Z.bits_0.
  destruct (Z.lt_ge_cases k 8) as [Hlt|Hge].
  - rewrite Z.mul_pow2_bits_low by lia; reflexivity.
  - rewrite <- (Z.mod_small b (2 ^ 8)) by (change (2 ^ 8) with 256; lia).
    rewrite Z.mod_pow2_bits_high by lia; apply andb_false_r.
Qed.

Lemma length_formatUintBigEndian n sz :
  length (formatUintBigEndian n sz) = sz.
Proof.
  unfold formatUintBigEndian; rewrite length_rev.
  revert n; induction sz as [|sz IH]; intros n; cbn [formatUint_rev length];
    [reflexivity|now rewrite IH].
Qed.

(** A length that fits the 24-bit field is read back as it was written. *)
Lemma getInt_formatUintBigEndian_3 n :
  0 <= n < 2 ^ 24 -> getInt (formatUintBigEndian n 3) = n.
Proof.
  intros Hn; unfold formatUintBigEndian, getInt.
  cbn [formatUint_rev rev app fold_left].
  rewrite !Z_of_byte_of_Z.
  change 255 with (Z.ones 8); rewrite !Z.land_ones, !Z.shiftr_div_pow2 by lia.
  change (2 ^ 8) with 256 in *; change (2 ^ 24) with 16777216 in *.
  rewrite !Z.mod_mod by lia.
  change (Z.shiftl 0 8) with 0; rewrite Z.lor_0_l.
  pose proof (Z.mod_pos_bound n 256 ltac:(lia)).
  pose proof (Z.mod_pos_bound (n / 256) 256 ltac:(lia)).
  pose proof (Z.mod_pos_bound (n / 256 / 256) 256 ltac:(lia)).
  rewrite (lor_shiftl_8 ((n / 256 / 256) mod 256) ((n / 256) mod 256)) by lia.
  rewrite lor_shiftl_8 by lia.
  pose proof (Z.div_mod n 256 ltac:(lia)).
  pose proof (Z.div_mod (n / 256) 256 ltac:(lia)).
  assert (0 <= n / 256 / 256 < 256).
  { split; [apply Z.div_pos; [apply Z.div_pos|]; lia|].
    apply Z.div_lt_upper_bound; [lia|].
    apply Z.div_lt_upper_bound; lia. }
  rewrite (Z.mod_small (n / 256 / 256) 256) in * by lia.
  generalize dependent (n mod 256); generalize dependent ((n / 256) mod 256).
  generalize dependent (n / 256 / 256); generalize dependent (n / 256).
  intros; lia.
Qed.

Lemma uint_small n : 0 <= n < 2 ^ 24 -> uint n = n.
Proof.
  intros H; unfold uint; apply Z.mod_small.
  change (2 ^ 24) with 16777216 in H; change (2 ^ 64) with 18446744073709551616.
  lia.
Qed.

(** ** The padding-absorbing write *)

Lemma written_inside (c : list byte) p bs :
  (p <= length c)%nat -> written c p bs = overwrite c p bs.
Proof.
  intros H; destruct bs; [|reflexivity]; cbn [written].
  rewrite overwrite_inside by lia; cbn [app length].
  now rewrite Nat.add_0_r, firstn_skipn.
Qed.

Lemma skipn_overwrite_at (c : list byte) p bs :
  (p <= length c)%nat ->
  skipn p (overwrite c p bs) = bs ++ skipn (p + length bs) c.
Proof.
  intros H; rewrite overwrite_inside by lia.
  rewrite skipn_app, skipn_all2 by (rewrite length_firstn; lia).
  rewrite length_firstn.
  replace (p - Nat.min p (length c))%nat with 0%nat by lia; reflexivity.
Qed.

(** Two writes one behind the other are one write. *)
Lemma overwrite_adjacent (c : list byte) p bs bs' :
  (p + length bs <= length c)%nat ->
  overwrite (overwrite c p bs) (p + length bs) bs' = overwrite c p (bs ++ bs').
Proof.
  intros H.
  rewrite (overwrite_inside (overwrite c p bs))
    by (rewrite length_overwrite; lia).
  rewrite firstn_overwrite_end, skipn_overwrite by lia.
  rewrite (overwrite_inside c p (bs ++ bs')) by lia.
  rewrite length_app, <- !app_assoc; do 3 f_equal; f_equal; lia.
Qed.

(** A write that ends where an earlier one started. *)
Lemma overwrite_before (c : list byte) q ys n xs :
  (q + length ys = n)%nat -> (n + length xs <= length c)%nat ->
  overwrite (overwrite c n xs) q ys = overwrite c q (ys ++ xs).
Proof.
  intros Hq Hn.
  rewrite (overwrite_inside (overwrite c n xs))
    by (rewrite length_overwrite; lia).
  rewrite firstn_overwrite_before by lia.
  rewrite Hq, skipn_overwrite_at by lia.
  rewrite (overwrite_inside c q (ys ++ xs)) by lia.
  rewrite length_app, <- !app_assoc; do 3 f_equal; f_equal; lia.
Qed.

(** [shiftPadding] when the old and the new padding header lie in the
    file: the header byte is copied to its new place and the new length
    is written behind it. *)
Lemma shiftPadding_spec m n c q :
  0 <= paddingBlockPos m -> paddingBlockPos m < Z.of_nat (length c) ->
  0 <= paddingBlockPos m + (n - commentBlockLen m) ->
  paddingBlockPos m + (n - commentBlockLen m) + 4 <= Z.of_nat (length c) ->
  shiftPadding m n (mkFile c q) =
    let np := Z.to_nat (paddingBlockPos m + (n - commentBlockLen m)) in
    Done tt
      (mkFile (overwrite c np
                 (firstn 1 (skipn (Z.to_nat (paddingBlockPos m)) c)
                    ++ formatUintBigEndian
                         (uint (paddingBlockLen m - (n - commentBlockLen m))) 3))
              (np + 4)).
Proof.
  intros H0 H1 H2 H3; cbv zeta; unfold shiftPadding.
  set (pp := Z.to_nat (paddingBlockPos m)).
  set (np := Z.to_nat (paddingBlockPos m + (n - commentBlockLen m))).
  set (enc := formatUintBigEndian _ 3).
  assert (Henc : length enc = 3%nat) by apply length_formatUintBigEndian.
  step (Seek_ok (paddingBlockPos m) SeekStart (mkFile c q) ltac:(simpl; lia)).
  cbn [content]; rewrite Z.add_0_l; fold pp.
  step (Read_full 1 (mkFile c pp)
          ltac:(lia) ltac:(unfold size; cbn [content pos]; lia)).
  cbn [fst content pos]; change (Z.to_nat 1) with 1%nat.
  set (h := firstn 1 (skipn pp c)).
  assert (Hh : length h = 1%nat)
    by (unfold h; rewrite length_firstn, length_skipn; lia).
  rewrite (fill_full [x00] h) by (rewrite Hh; reflexivity).
  match goal with |- context [Seek ?z SeekStart] =>
    step (Seek_ok z SeekStart (mkFile c (pp + 1)) ltac:(simpl; lia)) end.
  cbn [content]; rewrite Z.add_0_l; fold np.
  step (Write_written h (mkFile c np)); cbn [content pos]; rewrite Hh.
  step (Write_written enc (mkFile (written c np h) (np + 1))).
  cbn [content pos]; rewrite Henc.
  unfold ret; f_equal; f_equal; [|lia].
  rewrite (written_inside c) by lia.
  rewrite written_inside by (rewrite length_overwrite; lia).
  rewrite <- Hh at 1; apply overwrite_adjacent; lia.
Qed.

Lemma firstn_skipn_mid (a e r : list byte) k :
  k = length a -> firstn (length e) (skipn k (a ++ e ++ r)) = e.
Proof.
  intros ->; rewrite skipn_app, skipn_all, Nat.sub_diag; cbn [app skipn].
  replace (length e) with (length e + 0)%nat at 1 by lia.
  now rewrite firstn_app_2, firstn_0, app_nil_r.
Qed.

(** C2, as the code has it: after a good signature, when the scanned
    layout has a comment block at cPos of length cLen, directly followed
    (at pPos = cPos + 4 + cLen) by a padding block of declared length
    L > 0 that lies in the file, and the new payload is shorter than
    cLen + (L - 4), WriteFLACTags returns no error and the file keeps its
    length; with delta = len(payload) - cLen, the file is the old one but
    for the bytes from cPos + 1 up to pPos + delta + 4: the 3-byte
    encoding of the new length, the payload, the header byte of the
    padding block, and the 3-byte encoding of L - delta.  The two lengths
    are read back as such when they fit in 24 bits. *)
Theorem padding_absorbing_write :
  forall (Data : Type) (PrepareVorbisComment : Data -> list byte)
         (fuel : nat) (data : Data) (f : File),
    (length (content f) < fuel)%nat ->
    firstn 4 (skipn (pos f) (content f)) = fLaC ->
    let m := layoutOf fuel f in
    let payload := PrepareVorbisComment data in
    let n := Z.of_nat (length payload) in
    let delta := n - commentBlockLen m in
    let c := content f in
    paddingBlockPos m = commentBlockPos m + 4 + commentBlockLen m ->
    0 < paddingBlockLen m ->
    paddingBlockPos m + 4 + paddingBlockLen m <= size f ->
    n < commentBlockLen m + (paddingBlockLen m - 4) ->
    exists f',
      WriteFLACTags Data PrepareVorbisComment fuel data f = Done None f'
      /\ size f' = size f
      /\ content f' =
           firstn (Z.to_nat (commentBlockPos m) + 1) c
             ++ formatUintBigEndian (uint n) 3
             ++ payload
             ++ firstn 1 (skipn (Z.to_nat (paddingBlockPos m)) c)
             ++ formatUintBigEndian (uint (paddingBlockLen m - delta)) 3
             ++ skipn (Z.to_nat (paddingBlockPos m + delta) + 4) c
      /\ (n < 2 ^ 24 ->
          getInt (firstn 3 (skipn (Z.to_nat (commentBlockPos m) + 1)
                              (content f'))) = n)
      /\ (paddingBlockLen m - delta < 2 ^ 24 ->
          getInt (firstn 3 (skipn (Z.to_nat (paddingBlockPos m + delta) + 1)
                              (content f'))) = paddingBlockLen m - delta).
Proof.
  intros Data P fuel data f Hfuel Hsig m payload n delta c Hadj HL Hin Hfit.
  destruct (WriteFLACTags_scanned Data P fuel data f Hsig Hfuel)
    as (e & [c1 q1] & _ & Hc & Hok & ->); cbv zeta.
  cbn [content] in Hc; subst c1.
  fold m payload n c; unfold size in Hin; fold c in Hin.
  destruct Hok as (HcP & HcL & HpP & HpL); fold m in HcP, HcL, HpP, HpL.
  replace (_ && _) with true
    by (symmetry; apply andb_true_iff; rewrite Z.gtb_ltb, !Z.ltb_lt; lia).
  unfold bind at 1.
  rewrite shiftPadding_spec by (fold c; lia); cbv zeta; fold c delta.
  set (a := Z.to_nat (commentBlockPos m)).
  set (np := Z.to_nat (paddingBlockPos m + delta)).
  set (h := firstn 1 (skipn (Z.to_nat (paddingBlockPos m)) c)).
  set (encL := formatUintBigEndian (uint (paddingBlockLen m - delta)) 3).
  set (encN := formatUintBigEndian (uint n) 3).
  assert (HencL : length encL = 3%nat) by apply length_formatUintBigEndian.
  assert (HencN : length encN = 3%nat) by apply length_formatUintBigEndian.
  assert (Hh : length h = 1%nat).
  { unfold h; rewrite length_firstn, length_skipn; fold c; lia. }
  assert (Hnp : np = (a + 4 + length payload)%nat) by (unfold np, a, delta; lia).
  set (c2 := overwrite c np (h ++ encL)); cbv beta iota.
  assert (Hl2 : length c2 = length c).
  { unfold c2; apply length_overwrite_inside; rewrite length_app; lia. }
  step (Seek_ok (commentBlockPos m + 1) SeekStart (mkFile c2 (np + 4))
          ltac:(simpl; lia)).
  cbn [content]; rewrite Z.add_0_l.
  replace (Z.to_nat (commentBlockPos m + 1)) with (a + 1)%nat by (unfold a; lia).
  step (Write_written encN (mkFile c2 (a + 1))); cbn [content pos].
  step (Write_written payload (mkFile (written c2 (a + 1) encN)
                                 (a + 1 + length encN))).
  cbn [content pos]; unfold ret.
  rewrite (written_inside c2) by lia.
  rewrite written_inside by (rewrite length_overwrite; lia).
  rewrite overwrite_adjacent by lia.
  unfold c2; rewrite overwrite_before
    by (rewrite !length_app; lia).
  rewrite overwrite_inside by lia.
  rewrite !length_app, HencN, HencL, Hh.
  replace (a + 1 + (3 + length payload + (1 + 3)))%nat with (np + 4)%nat by lia.
  rewrite <- !app_assoc.
  eexists; split; [reflexivity|]; cbn [content].
  split; [|split; [reflexivity|split]].
  - unfold size; cbn [content]; fold c.
    rewrite !length_app, length_firstn, length_skipn, HencN, HencL, Hh; lia.
  - intros Hn; rewrite <- HencN at 1.
    rewrite firstn_skipn_mid by (rewrite length_firstn; lia).
    unfold encN; rewrite uint_small, getInt_formatUintBigEndian_3; lia.
  - intros Hn; rewrite !app_assoc, <- (app_assoc _ encL).
    rewrite <- HencL at 1.
    rewrite firstn_skipn_mid
      by (rewrite !length_app, length_firstn, HencN, Hh; lia).
    unfold encL; rewrite uint_small, getInt_formatUintBigEndian_3; lia.
Qed.

Lemma padding_absorbing_write_witness :
  exists f',
    WriteFLACTags (list byte) encoded 200 (repeat "n"%byte 30)
      (mkFile scenario 0) = Done None f'
    /\ size f' = size (mkFile scenario 0)
    /\ content f' =
         firstn (Z.to_nat 42 + 1) scenario
           ++ formatUintBigEndian (uint 30) 3
           ++ repeat "n"%byte 30
           ++ firstn 1 (skipn (Z.to_nat 66) scenario)
           ++ formatUintBigEndian (uint (100 - (30 - 20))) 3
           ++ skipn (Z.to_nat (66 + (30 - 20)) + 4) scenario
    /\ (30 < 2 ^ 24 ->
        getInt (firstn 3 (skipn (Z.to_nat 42 + 1) (content f'))) = 30)
    /\ (100 - (30 - 20) < 2 ^ 24 ->
        getInt (firstn 3 (skipn (Z.to_nat (66 + (30 - 20)) + 1) (content f')))
        = 100 - (30 - 20)).
Proof.
  apply (padding_absorbing_write (list byte) encoded 200 (repeat "n"%byte 30)
           (mkFile scenario 0)).
  - vm_compute; lia.
  - reflexivity.
  - vm_compute; reflexivity.
  - vm_compute; reflexivity.
  - vm_compute; discriminate.
  - vm_compute; reflexivity.
Defined.

(** C2 fails on a padding block of declared length 0: with a comment block
    of length 20 and a new payload of 10 bytes, 10 < 20 + (0 - 4) holds,
    but the write is refused and the file is left as it was. *)
Lemma empty_padding_counterexample :
  layoutOf 200 (mkFile scenario_pad0 0) = mkLayout 42 20 66 0
  /\ Z.of_nat (length (repeat "n"%byte 10)) < 20 + (0 - 4)
  /\ WriteFLACTags (list byte) encoded 200 (repeat "n"%byte 10)
       (mkFile scenario_pad0 0) =
     Done (Some (errorString "cannot write tags without padding"))
          (mkFile scenario_pad0 4).
Proof. repeat split; vm_compute; reflexivity. Qed.

(** ** The scan on a well-formed chain *)

Lemma flag_bit ty :
  0 <= ty < 128 ->
  Z.testbit ty 7 = false
  /\ Z.testbit (128 + ty) 7 = true
  /\ Z.lxor (128 + ty) (Z.shiftl 1 7) = ty.
Proof.
  intros Hty.
  assert (H7 : Z.testbit ty 7 = false).
  { rewrite <- (Z.mod_small ty (2 ^ 7)) by (change (2 ^ 7) with 128; lia).
    apply Z.mod_pow2_bits_high; lia. }
  assert (Hl : Z.land 128 ty = 0).
  { apply Z.bits_inj'; intros k Hk.
    rewrite Z.land_spec, Z.bits_0.
    change 128 with (2 ^ 7); rewrite Z.pow2_bits_eqb by lia.
    destruct (Z.eqb_spec 7 k) as [<-|_]; [now rewrite H7|reflexivity]. }
  rewrite (Z.add_nocarry_lxor 128 ty Hl).
  split; [exact H7|split].
  - rewrite Z.lxor_spec, H7.
    change 128 with (2 ^ 7); rewrite Z.pow2_bits_eqb by lia; reflexivity.
  - change (Z.shiftl 1 7) with 128.
    rewrite (Z.lxor_comm 128 ty), Z.lxor_assoc, Z.lxor_nilpotent.
    apply Z.lxor_0_r.
Qed.

(** One turn of the scan on a block header that fits the codec. *)
Lemma findBlocks_loop_block fuel bi ci m c p last ty len rest :
  0 <= ty < 128 -> 0 <= len < 2 ^ 24 ->
  skipn p c = blockHeader last ty len ++ rest ->
  findBlocks_loop (S fuel) bi ci m (mkFile c p) =
    let next m' ci' :=
      if last then Done (m', Break) (mkFile c (p + 4 + Z.to_nat len))
      else findBlocks_loop fuel (bi + 1) ci' m'
             (mkFile c (p + 4 + Z.to_nat len)) in
    if ty =? vorbisCommentBlock then
      next (mkLayout (Z.of_nat p) len (paddingBlockPos m) (paddingBlockLen m)) bi
    else if ty =? paddingBlock then
      if bi =? ci + 1 then
        Done (mkLayout (commentBlockPos m) (commentBlockLen m) (Z.of_nat p) len,
              Break) (mkFile c (p + 4))
      else next m ci
    else next m ci.
Proof.
  intros Hty Hlen Hskip; cbv zeta.
  assert (Henc : length (formatUintBigEndian len 3) = 3%nat)
    by apply length_formatUintBigEndian.
  assert (Hp : (p + 4 <= length c)%nat).
  { apply (f_equal (@length byte)) in Hskip.
    rewrite length_skipn in Hskip; unfold blockHeader in Hskip.
    rewrite length_app in Hskip; cbn [length] in Hskip; lia. }
  cbn [findBlocks_loop].
  step (readBytes_full 1 (mkFile c p) ltac:(lia)
          ltac:(unfold size; cbn [content pos]; lia)).
  cbn [content pos]; change (Z.to_nat 1) with 1%nat.
  replace (firstn 1 (skipn p c))
    with [byte_of_Z ((if last then 128 else 0) + ty)]
    by (rewrite Hskip; reflexivity).
  cbn [nth]; rewrite Z_of_byte_of_Z.
  step (readInt_full 3 (mkFile c (p + 1)) ltac:(lia)
          ltac:(unfold size; cbn [content pos]; lia)).
  cbn [content pos]; change (Z.to_nat 3) with 3%nat.
  replace (skipn (p + 1) c) with (formatUintBigEndian len 3 ++ rest).
  2:{ replace (p + 1)%nat with (1 + p)%nat by lia.
      rewrite <- skipn_skipn, Hskip; reflexivity. }
  replace (firstn 3 (formatUintBigEndian len 3 ++ rest))
    with (formatUintBigEndian len 3).
  2:{ rewrite <- Henc at 2.
      replace (length (formatUintBigEndian len 3))
        with (length (formatUintBigEndian len 3) + 0)%nat at 1 by lia.
      now rewrite firstn_app_2, firstn_0, app_nil_r. }
  rewrite getInt_formatUintBigEndian_3 by assumption.
  replace (p + 1 + 3)%nat with (p + 4)%nat by lia.
  destruct (flag_bit ty Hty) as (Hb0 & Hb1 & Hx).
  assert (Hseek : forall A (k : Z * option error -> IO A),
            bind (Seek len SeekCurrent) k (mkFile c (p + 4)) =
            k (Z.of_nat (p + 4) + len, None)
              (mkFile c (p + 4 + Z.to_nat len))).
  { intros A k.
    step (Seek_ok len SeekCurrent (mkFile c (p + 4)) ltac:(simpl; lia)).
    cbn [content pos]; do 2 f_equal; lia. }
  assert (Hcur : forall A (k : Z * option error -> IO A),
            bind (Seek 0 SeekCurrent) k (mkFile c (p + 4)) =
            k (Z.of_nat (p + 4), None) (mkFile c (p + 4))).
  { intros A k; now step (Seek_current_0 (mkFile c (p + 4))). }
  replace (Z.of_nat p) with (Z.of_nat (p + 4) - 4) by lia.
  destruct last.
  - rewrite Z.mod_small by lia.
    unfold getBit; rewrite Hb1, Hx.
    destruct (ty =? vorbisCommentBlock);
      [|destruct (ty =? paddingBlock); [destruct (bi =? ci + 1)|]];
      rewrite ?Hcur, ?Hseek; reflexivity.
  - rewrite Z.add_0_l, Z.mod_small by lia.
    unfold getBit; rewrite Hb0.
    destruct (ty =? vorbisCommentBlock);
      [|destruct (ty =? paddingBlock); [destruct (bi =? ci + 1)|]];
      rewrite ?Hcur, ?Hseek; reflexivity.
Qed.

Lemma skipn_past (a x : list byte) n c :
  skipn n c = a ++ x -> skipn (n + length a) c = x.
Proof.
  intros H; replace (n + length a)%nat with (length a + n)%nat by lia.
  rewrite <- skipn_skipn, H, skipn_app, skipn_all, Nat.sub_diag; reflexivity.
Qed.

(** On a chain of plain blocks followed by a comment block and a padding
    block, the loop skips the plain blocks, records the comment block and
    stops at the padding block. *)
Lemma findBlocks_loop_chain : forall pre fuel bi m c p payload last L rest,
  Forall plainBlock pre ->
  Z.of_nat (length payload) < 2 ^ 24 -> 0 <= L < 2 ^ 24 ->
  skipn p c = encodeChain pre ++ encodeBlock false vorbisCommentBlock payload
                ++ blockHeader last paddingBlock L ++ rest ->
  (length pre + 1 < fuel)%nat ->
  let cp := (p + length (encodeChain pre))%nat in
  findBlocks_loop fuel bi 0 m (mkFile c p) =
    Done (mkLayout (Z.of_nat cp) (Z.of_nat (length payload))
                   (Z.of_nat (cp + 4 + length payload)) L, Break)
         (mkFile c (cp + 4 + length payload + 4)).
Proof.
  induction pre as [|[ty pl] pre IH];
    intros fuel bi m c p payload last L rest Hpre Hpl HL Hskip Hf; cbv zeta;
    assert (Hpl' : 0 <= Z.of_nat (length payload) < 2 ^ 24) by lia.
  - cbn [encodeChain flat_map app length] in *; rewrite Nat.add_0_r.
    destruct fuel as [|[|fuel]]; try lia.
    unfold encodeBlock in Hskip; rewrite <- app_assoc in Hskip.
    assert (H4 : 0 <= vorbisCommentBlock < 128)
      by (unfold vorbisCommentBlock; lia).
    assert (H1 : 0 <= paddingBlock < 128) by (unfold paddingBlock; lia).
    rewrite (findBlocks_loop_block _ _ _ _ _ _ _ _ _ _ H4 Hpl' Hskip).
    cbv zeta; rewrite Z.eqb_refl, Nat2Z.id.
    apply skipn_past in Hskip.
    assert (Hh : length (blockHeader false vorbisCommentBlock
                           (Z.of_nat (length payload))) = 4%nat).
    { unfold blockHeader; cbn [length].
      now rewrite length_formatUintBigEndian. }
    rewrite Hh in Hskip; apply skipn_past in Hskip.
    rewrite (findBlocks_loop_block _ _ _ _ _ _ _ _ _ _ H1 HL Hskip).
    cbv zeta; change (paddingBlock =? vorbisCommentBlock) with false.
    rewrite !Z.eqb_refl; reflexivity.
  - inversion Hpre as [|? ? (Hty & Hnc & Hnp & Hlen) Hpre']; subst.
    cbn [encodeChain flat_map] in Hskip |- *; fold (encodeChain pre) in *.
    cbn [fst snd] in *.
    destruct fuel as [|fuel]; [cbn [length] in Hf; lia|].
    unfold encodeBlock at 1 in Hskip; rewrite <- !app_assoc in Hskip.
    rewrite (findBlocks_loop_block _ _ _ _ _ _ _ _ _ _ Hty
               (conj (Nat2Z.is_nonneg _) Hlen) Hskip).
    cbv zeta.
    replace (ty =? vorbisCommentBlock) with false
      by (symmetry; apply Z.eqb_neq; assumption).
    replace (ty =? paddingBlock) with false
      by (symmetry; apply Z.eqb_neq; assumption).
    rewrite Nat2Z.id.
    apply skipn_past in Hskip.
    assert (Hh : length (blockHeader false ty (Z.of_nat (length pl))) = 4%nat).
    { unfold blockHeader; cbn [length].
      now rewrite length_formatUintBigEndian. }
    rewrite Hh in Hskip; apply skipn_past in Hskip.
    rewrite (IH fuel (bi + 1) m c _ payload last L rest Hpre' Hpl HL Hskip)
      by (cbn [length] in Hf; lia).
    cbv zeta; unfold encodeBlock; rewrite !length_app, Hh.
    do 2 f_equal; [f_equal|]; f_equal; lia.
Qed.

(** The layout scan finds the pair: on a container whose chain has plain
    blocks, then a comment block, then a padding block, it reports the
    offsets and lengths of the two blocks, returns no error and puts the
    cursor back. *)
Lemma findBlocks_locates_pair pre fuel c p payload last L rest :
  Forall plainBlock pre ->
  Z.of_nat (length payload) < 2 ^ 24 -> 0 <= L < 2 ^ 24 ->
  skipn p c = encodeChain pre ++ encodeBlock false vorbisCommentBlock payload
                ++ blockHeader last paddingBlock L ++ rest ->
  (length pre + 1 < fuel)%nat ->
  let cp := (p + length (encodeChain pre))%nat in
  findBlocks fuel zeroLayout (mkFile c p) =
    Done (mkLayout (Z.of_nat cp) (Z.of_nat (length payload))
                   (Z.of_nat cp + 4 + Z.of_nat (length payload)) L, None)
         (mkFile c p).
Proof.
  intros Hpre Hpl HL Hskip Hf; cbv zeta; unfold findBlocks.
  step (Seek_current_0 (mkFile c p)); cbn [fst pos].
  step (findBlocks_loop_chain pre fuel 0 zeroLayout c p payload last L rest
          Hpre Hpl HL Hskip Hf).
  cbn [fst snd].
  match goal with |- context [mkFile c ?q] =>
    step (Seek_ok (Z.of_nat p) SeekStart (mkFile c q) ltac:(simpl; lia)) end.
  cbn [content]; rewrite Z.add_0_l, Nat2Z.id; unfold ret.
  do 3 f_equal; lia.
Qed.

(** * Further properties of the code *)

(** ** The layout scan on every stream *)

Lemma readInt_short_kind n f :
  0 < n -> size f < Z.of_nat (pos f) + n ->
  exists e f', readInt n f = Done (Err e) f' /\ content f' = content f
    /\ (pos f <= pos f')%nat /\ (e = EOF \/ e = ErrUnexpectedEOF).
Proof.
  intros Hn Hp; unfold readInt.
  destruct (readBytes_short n f Hn Hp) as (e & f' & H & Hc & Hq & He).
  step H; unfold ret; eauto 10.
Qed.

Lemma findBlocks_loop_outcome : forall fuel bi ci m f,
  (length (content f) - pos f < fuel)%nat ->
  exists m' x f', findBlocks_loop fuel bi ci m f = Done (m', x) f'
    /\ content f' = content f
    /\ (pos f <= pos f')%nat
    /\ (forall e, x = Return e -> e = EOF \/ e = ErrUnexpectedEOF).
Proof.
  induction fuel as [|fuel IH]; intros bi ci m f Hf; [lia|].
  cbn [findBlocks_loop].
  destruct (Z.le_gt_cases (Z.of_nat (pos f) + 1) (size f)) as [H1|H1].
  2:{ destruct (readBytes_short 1 f) as (e & f' & H & Hc & Hq & He); [lia..|].
      step H; unfold ret; eexists _, _, _; split; [reflexivity|].
      repeat split; try assumption; intros e' E; inversion E; subst; exact He. }
  step (readBytes_full 1 f ltac:(lia) H1).
  set (f1 := mkFile (content f) (pos f + Z.to_nat 1)).
  set (b0 := Z_of_byte _).
  destruct (Z.le_gt_cases (Z.of_nat (pos f1) + 3) (size f1)) as [H3|H3].
  2:{ destruct (readInt_short_kind 3 f1) as (e & f' & H & Hc & Hq & He);
        [lia..|].
      step H; unfold ret; eexists _, _, _; split; [reflexivity|].
      cbn [pos f1] in Hq.
      repeat split; try assumption; try lia.
      intros e' E; inversion E; subst; exact He. }
  step (readInt_full 3 f1 ltac:(lia) H3).
  set (blockLen := getInt _).
  set (f2 := mkFile (content f1) (pos f1 + Z.to_nat 3)).
  assert (Hb : 0 <= blockLen) by apply getInt_nonneg.
  assert (Hnext : forall m' ci',
    exists m'' x f',
      bind (Seek blockLen SeekCurrent)
        (fun _ => if getBit b0 7 then ret (m', Break)
                  else findBlocks_loop fuel (bi + 1) ci' m') f2
      = Done (m'', x) f'
      /\ content f' = content f
      /\ (pos f <= pos f')%nat
      /\ (forall e, x = Return e -> e = EOF \/ e = ErrUnexpectedEOF)).
  { intros m' ci'.
    step (Seek_ok blockLen SeekCurrent f2 ltac:(simpl; lia)).
    destruct (getBit b0 7).
    - unfold ret; eexists _, _, _; split; [reflexivity|].
      cbn [content pos f2 f1]; repeat split; try lia; discriminate.
    - match goal with |- context [findBlocks_loop _ _ _ _ ?g] =>
        destruct (IH (bi + 1) ci' m' g) as (m'' & x & f' & H & Hc & Hq & He)
      end.
      { cbn [content pos f2 f1]; unfold size in *; cbn [content pos f1] in *.
        lia. }
      exists m'', x, f'; split; [exact H|].
      cbn [content pos f2 f1] in Hc, Hq.
      repeat split; [rewrite Hc; reflexivity|lia|exact He]. }
  destruct (_ =? vorbisCommentBlock).
  - step (Seek_current_0 f2). apply Hnext.
  - destruct (_ =? paddingBlock); [destruct (bi =? ci + 1)|];
      try apply Hnext.
    step (Seek_current_0 f2). unfold ret; eexists _, _, _.
    split; [reflexivity|]; cbn [content pos f2 f1].
    repeat split; try lia; discriminate.
Qed.

(** X1: on every stream the layout scan ends without a panic once the
    fuel exceeds the bytes behind the cursor, and it only reads: the bytes
    of the file are unchanged.  When it returns no error the cursor is
    back where it was; the only errors it returns are the two short-read
    errors, and then the cursor has not moved backward. *)
Theorem findBlocks_only_reads :
  forall (fuel : nat) (m : flacMetaHeadersLayout) (f : File),
    (length (content f) - pos f < fuel)%nat ->
    exists m' e f',
      findBlocks fuel m f = Done (m', e) f'
      /\ content f' = content f
      /\ match e with
         | None => pos f' = pos f
         | Some err => (err = EOF \/ err = ErrUnexpectedEOF)
                       /\ (pos f <= pos f')%nat
         end.
Proof.
  intros fuel m f Hf; unfold findBlocks.
  step (Seek_current_0 f); cbn [fst].
  destruct (findBlocks_loop_outcome fuel 0 0 m f Hf)
    as (m' & x & f' & H & Hc & Hq & He).
  step H; cbn [fst snd].
  destruct x as [|e].
  - step (Seek_ok (Z.of_nat (pos f)) SeekStart f' ltac:(simpl; lia)).
    unfold ret; eexists _, _, _; split; [reflexivity|].
    cbn [content pos]; split; [assumption|lia].
  - unfold ret; eexists _, _, _; split; [reflexivity|]; auto.
Qed.

Lemma findBlocks_only_reads_witness :
  exists m' e f',
    findBlocks 200 zeroLayout (mkFile unterminated 4) = Done (m', e) f'
    /\ content f' = unterminated
    /\ match e with
       | None => pos f' = 4%nat
       | Some err => (err = EOF \/ err = ErrUnexpectedEOF) /\ (4 <= pos f')%nat
       end.
Proof.
  apply (findBlocks_only_reads 200 zeroLayout (mkFile unterminated 4)).
  vm_compute; lia.
Defined.

(** X2: on a container whose chain, from the cursor on, has blocks that
    are neither comment nor padding blocks, then a comment block, then a
    padding block (the last block or not), the scan reports the offset and
    the length of the comment block and of the padding block behind it,
    returns no error and leaves the stream as it was. *)
Theorem scan_finds_comment_and_padding :
  forall (pre : list (Z * list byte)) (fuel : nat) (c : list byte) (p : nat)
         (payload : list byte) (last : bool) (L : Z) (rest : list byte),
    Forall plainBlock pre ->
    Z.of_nat (length payload) < 2 ^ 24 -> 0 <= L < 2 ^ 24 ->
    skipn p c = encodeChain pre
                  ++ encodeBlock false vorbisCommentBlock payload
                  ++ blockHeader last paddingBlock L ++ rest ->
    (length pre + 1 < fuel)%nat ->
    let cp := (p + length (encodeChain pre))%nat in
    findBlocks fuel zeroLayout (mkFile c p) =
      Done (mkLayout (Z.of_nat cp) (Z.of_nat (length payload))
                     (Z.of_nat cp + 4 + Z.of_nat (length payload)) L, None)
           (mkFile c p).
Proof. exact findBlocks_locates_pair. Qed.

Lemma plainBlock_streaminfo : plainBlock (0, repeat x00 34).
Proof.
  unfold plainBlock, vorbisCommentBlock, paddingBlock; cbn [fst snd].
  rewrite repeat_length; change (2 ^ 24) with 16777216; lia.
Qed.

Lemma scan_finds_comment_and_padding_witness :
  findBlocks 10 zeroLayout (mkFile scenario 4) =
    Done (mkLayout (Z.of_nat (4 + length (encodeChain [(0, repeat x00 34)])))
            (Z.of_nat (length (repeat "c"%byte 20)))
            (Z.of_nat (4 + length (encodeChain [(0, repeat x00 34)])) + 4
             + Z.of_nat (length (repeat "c"%byte 20))) 100, None)
         (mkFile scenario 4).
Proof.
  apply (scan_finds_comment_and_padding [(0, repeat x00 34)] 10 scenario 4
           (repeat "c"%byte 20) true 100 (repeat x00 100 ++ audio)).
  - constructor; [exact plainBlock_streaminfo|constructor].
  - rewrite repeat_length; reflexivity.
  - split; [discriminate|reflexivity].
  - reflexivity.
  - cbn [length]; lia.
Defined.

(** ** The shifts *)

(** X3: for an offset from 0 up to the capacity of the transfer buffer,
    min(100, fileSize - cursor), and enough fuel for the loop,
    ShiftFileRight ends normally with the cursor back in place: the bytes
    in front of the cursor are unchanged, the bytes from the cursor on are
    [offset] bytes further, and the gap holds [offset] bytes "_". *)
Theorem ShiftFileRight_within_capacity :
  forall (fuel : nat) (offset : Z) (f : File),
    0 <= offset <= Z.min 100 (size f - Z.of_nat (pos f)) ->
    (length (content f) < fuel)%nat ->
    ShiftFileRight fuel offset f =
      Done tt (mkFile (firstn (pos f) (content f)
                         ++ repeat "_"%byte (Z.to_nat offset)
                         ++ skipn (pos f) (content f)) (pos f)).
Proof. exact ShiftFileRight_opens_gap. Qed.

Lemma ShiftFileRight_within_capacity_witness :
  ShiftFileRight 10 2 (mkFile abcdef 1) =
    Done tt (mkFile (firstn 1 abcdef ++ repeat "_"%byte (Z.to_nat 2)
                       ++ skipn 1 abcdef) 1).
Proof.
  apply (ShiftFileRight_within_capacity 10 2 (mkFile abcdef 1)).
  - vm_compute; split; discriminate.
  - vm_compute; lia.
Defined.

(** X4: the shifts in the other order.  For a positive offset within the
    capacity of the buffer, ShiftFileRight and then ShiftFileLeft at the
    same cursor give back all the original bytes, in place, followed by a
    second copy of the last [offset] bytes: the gap is closed, but the
    file stays [offset] bytes longer. *)
Theorem shift_right_then_left :
  forall (fuel : nat) (offset : Z) (f : File),
    0 < offset <= Z.min 100 (size f - Z.of_nat (pos f)) ->
    (length (content f) + Z.to_nat offset < fuel)%nat ->
    exists f1,
      ShiftFileRight fuel offset f = Done tt f1
      /\ ShiftFileLeft fuel offset f1 =
           Done None
             (mkFile (content f
                        ++ skipn (length (content f) - Z.to_nat offset)
                                 (content f))
                     (pos f)).
Proof.
  intros fuel offset [c p]; unfold size; cbn [content pos]; intros Ho Hf.
  set (o := Z.to_nat offset) in *.
  eexists; split.
  { apply ShiftFileRight_opens_gap; unfold size; cbn [content pos]; lia. }
  cbn [content pos]; fold o.
  set (c1 := firstn p c ++ repeat "_"%byte o ++ skipn p c).
  assert (Hl1 : length c1 = (length c + o)%nat).
  { unfold c1; rewrite !length_app, length_firstn, repeat_length, length_skipn.
    lia. }
  rewrite ShiftFileLeft_spec by (cbn [content]; lia).
  cbn [content pos]; fold o; rewrite Hl1.
  replace (Nat.max p (length c + o - o)) with (length c) by lia.
  do 2 f_equal.
  assert (Hg : length (firstn p c ++ repeat "_"%byte o) = (p + o)%nat)
    by (rewrite length_app, length_firstn, repeat_length; lia).
  assert (H1 : firstn p c1 = firstn p c).
  { unfold c1.
    replace p with (length (firstn p c) + 0)%nat at 1
      by (rewrite length_firstn; lia).
    now rewrite firstn_app_2, firstn_0, app_nil_r. }
  assert (H2 : forall k, skipn (p + o + k) c1 = skipn (p + k) c).
  { intros k; unfold c1; rewrite (app_assoc (firstn p c)).
    rewrite skipn_app, Hg, skipn_all2 by lia.
    cbn [app]; rewrite skipn_skipn; f_equal; lia. }
  rewrite H1.
  rewrite <- (Nat.add_0_r (p + o)), H2, Nat.add_0_r.
  replace (length c) with (p + o + (length c - p - o))%nat at 1 by lia.
  rewrite H2, app_assoc, firstn_skipn; do 2 f_equal; lia.
Qed.

Lemma shift_right_then_left_witness :
  exists f1,
    ShiftFileRight 10 2 (mkFile abcdef 1) = Done tt f1
    /\ ShiftFileLeft 10 2 f1 =
         Done None
           (mkFile (abcdef ++ skipn (length abcdef - Z.to_nat 2) abcdef) 1).
Proof.
  apply (shift_right_then_left 10 2 (mkFile abcdef 1)).
  - vm_compute; split; [reflexivity|discriminate].
  - vm_compute; lia.
Defined.

(** X5: a left shift that has nothing to move changes nothing: for offset
    0, and for a non-negative offset that reaches the end of the file or
    goes beyond it, ShiftFileLeft returns no error and leaves the bytes
    and the cursor as they were. *)
Theorem ShiftFileLeft_nothing_to_move :
  forall (fuel : nat) (offset : Z) (f : File),
    0 <= offset ->
    offset = 0 \/ size f <= Z.of_nat (pos f) + offset ->
    (length (content f) < fuel)%nat ->
    ShiftFileLeft fuel offset f = Done None f.
Proof.
  intros fuel offset [c p]; unfold size; cbn [content pos]; intros Ho Hn Hf.
  rewrite ShiftFileLeft_spec by (cbn [content]; lia); cbn [content pos].
  do 2 f_equal.
  destruct (Nat.le_gt_cases (length c) (p + Z.to_nat offset)) as [Hge|Hlt].
  - rewrite (skipn_all2 c (n := p + Z.to_nat offset)) by lia.
    replace (Nat.max p (length c - Z.to_nat offset)) with p by lia.
    cbn [app]; apply firstn_skipn.
  - assert (Z.to_nat offset = 0%nat) as -> by lia.
    rewrite Nat.add_0_r, Nat.sub_0_r.
    replace (Nat.max p (length c)) with (length c) by lia.
    rewrite skipn_all, app_nil_r; apply firstn_skipn.
Qed.

Lemma ShiftFileLeft_nothing_to_move_witness :
  ShiftFileLeft 10 5 (mkFile abcdef 1) = Done None (mkFile abcdef 1).
Proof.
  apply (ShiftFileLeft_nothing_to_move 10 5 (mkFile abcdef 1)).
  - lia.
  - right; vm_compute; discriminate.
  - vm_compute; lia.
Defined.

(** X6: an offset that would take the first seek in front of the start of
    the file makes ShiftFileLeft return the error of that seek at once:
    nothing is read or written and the cursor stays where it was. *)
Theorem ShiftFileLeft_seek_error :
  forall (fuel : nat) (offset : Z) (f : File),
    Z.of_nat (pos f) + offset < 0 ->
    ShiftFileLeft (S fuel) offset f = Done (Some ErrNegativePosition) f.
Proof.
  intros fuel offset f Hneg; unfold ShiftFileLeft.
  step (Seek_current_0 f); cbn [fst ShiftFileLeft_loop].
  unfold bind, Seek; cbn [snd].
  replace (Z.of_nat (pos f) + offset <? 0) with true
    by (symmetry; apply Z.ltb_lt; lia).
  reflexivity.
Qed.

Lemma ShiftFileLeft_seek_error_witness :
  ShiftFileLeft (S 0) (-2) (mkFile abcdef 1) =
    Done (Some ErrNegativePosition) (mkFile abcdef 1).
Proof.
  apply (ShiftFileLeft_seek_error 0 (-2) (mkFile abcdef 1)).
  vm_compute; reflexivity.
Defined.

(** ** The rewrite of a comment block *)

Lemma ShiftFileRight_beyond_capacity fuel offset f :
  (length (content f) + 1 < fuel)%nat ->
  Z.of_nat (pos f) <= size f ->
  Z.min 100 (size f - Z.of_nat (pos f)) < offset ->
  exists f', ShiftFileRight fuel offset f = Panicked SliceBoundsOutOfRange f'.
Proof.
  destruct f as [c p]; unfold size; cbn [content pos]; intros Hf Hp Ho.
  rewrite ShiftFileRight_unfold.
  replace (length c <? p)%nat with false by (symmetry; apply Nat.ltb_ge; lia).
  destruct (Nat.ltb_spec (length c - p) 100) as [Hs|Hb].
  - destruct fuel as [|fuel]; [lia|].
    unfold bind at 1.
    rewrite ShiftFileRight_loop_last by (rewrite ?repeat_length; lia).
    cbv zeta; rewrite repeat_length.
    replace (Z.of_nat (length c - p) <? offset) with true
      by (symmetry; apply Z.ltb_lt; lia).
    eauto.
  - destruct (ShiftFileRight_loop_panics fuel offset p c (length c - 100)
                (repeat x00 100)) as (f' & H);
      rewrite ?repeat_length; try lia.
    unfold bind at 1; rewrite H; eauto.
Qed.

Section Rewrite.

(** The bytes [c] of the file, the place [p] of the header of the comment
    block, whose declared length is [blockLen], and the new payload. *)
Variable c : list byte.
Variable p : nat.
Variable blockLen : Z.
Variable payload : list byte.
Variable after : IO (option error).
Hypothesis Hlen : 0 <= blockLen.
Hypothesis Hin : (p + 4 + Z.to_nat blockLen <= length c)%nat.

Let n := Z.of_nat (length payload).
Let enc := formatUintBigEndian (uint n) 3.
Let e := (p + 4 + Z.to_nat blockLen)%nat.

(** The length header is patched first. *)
Lemma rewrite_header (k : IO (option error)) :
  bind (Seek (-3) SeekCurrent) (fun _ => bind (Write enc) (fun _ => k))
       (mkFile c (p + 4)) =
  k (mkFile (overwrite c (p + 1) enc) (p + 4)).
Proof.
  assert (Henc : length enc = 3%nat) by apply length_formatUintBigEndian.
  step (Seek_ok (-3) SeekCurrent (mkFile c (p + 4)) ltac:(simpl; lia)).
  cbn [content pos].
  replace (Z.to_nat (Z.of_nat (p + 4) + -3)) with (p + 1)%nat by lia.
  step (Write_written enc (mkFile c (p + 1))); cbn [content pos].
  rewrite written_inside, Henc by lia.
  do 2 f_equal; lia.
Qed.

(** The file with the new header and payload in place of the first bytes
    of the block. *)
Lemma payload_written :
  written (overwrite c (p + 1) enc) (p + 4) payload =
    overwrite c (p + 1) (enc ++ payload).
Proof.
  assert (Henc : length enc = 3%nat) by apply length_formatUintBigEndian.
  rewrite written_inside by (rewrite length_overwrite; lia).
  replace (p + 4)%nat with (p + 1 + length enc)%nat by lia.
  apply overwrite_adjacent; lia.
Qed.

(** A shorter payload: the bytes behind the block are pulled left, and
    the file keeps its length. *)
Lemma rewrite_shorter fuel :
  n < blockLen -> (length c < fuel)%nat ->
  rewriteCommentBlock fuel payload blockLen after (mkFile c (p + 4)) =
    Done None
      (mkFile (firstn (p + 1) c ++ enc ++ payload ++ skipn e c
                 ++ skipn (length c - (Z.to_nat blockLen - length payload)) c)
              (p + 4 + length payload)).
Proof.
  intros Hn Hf.
  assert (Henc : length enc = 3%nat) by apply length_formatUintBigEndian.
  unfold rewriteCommentBlock; fold n enc.
  rewrite rewrite_header.
  replace (n <=? blockLen) with true by (symmetry; apply Z.leb_le; lia).
  step (Write_written payload (mkFile (overwrite c (p + 1) enc) (p + 4))).
  cbn [fst snd content pos]; fold n.
  rewrite Z.ltb_irrefl.
  replace (blockLen - n >? 0) with true by (symmetry; apply Z.gtb_lt; lia).
  rewrite payload_written.
  set (c2 := overwrite c (p + 1) (enc ++ payload)).
  assert (Hl2 : length c2 = length c).
  { unfold c2; apply length_overwrite_inside; rewrite length_app; lia. }
  rewrite ShiftFileLeft_spec by (cbn [content]; lia).
  cbn [content pos]; rewrite Hl2.
  replace (Z.to_nat (blockLen - n))
    with (Z.to_nat blockLen - length payload)%nat by lia.
  replace (Nat.max (p + 4 + length payload)
             (length c - (Z.to_nat blockLen - length payload)))
    with (length c - (Z.to_nat blockLen - length payload))%nat by lia.
  do 2 f_equal.
  replace (p + 4 + length payload)%nat
    with (p + 1 + length (enc ++ payload))%nat at 1
    by (rewrite length_app; lia).
  unfold c2; rewrite firstn_overwrite_end by lia.
  rewrite !skipn_overwrite by (rewrite ?length_app; lia).
  rewrite <- !app_assoc.
  replace (p + 4 + length payload
           + (Z.to_nat blockLen - length payload))%nat with e
    by (unfold e, n in *; lia).
  reflexivity.
Qed.

(** A longer payload within the capacity of the buffer of
    [ShiftFileRight]: the bytes behind the block are pushed right by the
    difference, and the payload is written in front of them. *)
Lemma rewrite_longer fuel :
  blockLen < n ->
  n - blockLen <= Z.min 100 (Z.of_nat (length c) - Z.of_nat e) ->
  (length c < fuel)%nat ->
  rewriteCommentBlock fuel payload blockLen after (mkFile c (p + 4)) =
    Done None
      (mkFile (firstn (p + 1) c ++ enc ++ payload ++ skipn e c)
              (p + 4 + length payload)).
Proof.
  intros Hn Hcap Hf.
  assert (Henc : length enc = 3%nat) by apply length_formatUintBigEndian.
  unfold rewriteCommentBlock; fold n enc.
  rewrite rewrite_header.
  replace (n <=? blockLen) with false by (symmetry; apply Z.leb_gt; lia).
  set (c1 := overwrite c (p + 1) enc).
  assert (Hl1 : length c1 = length c)
    by (apply length_overwrite_inside; lia).
  step (Seek_current_0 (mkFile c1 (p + 4))); cbn [fst pos].
  step (Seek_ok blockLen SeekCurrent (mkFile c1 (p + 4)) ltac:(simpl; lia)).
  cbn [content pos].
  replace (Z.to_nat (Z.of_nat (p + 4) + blockLen)) with e by (unfold e; lia).
  unfold bind at 1.
  rewrite ShiftFileRight_opens_gap
    by (unfold size; cbn [content pos]; lia).
  cbn [content pos].
  set (d := Z.to_nat (n - blockLen)).
  match goal with |- context [mkFile ?x e] =>
    step (Seek_ok (Z.of_nat (p + 4)) SeekStart (mkFile x e) ltac:(simpl; lia))
  end.
  cbn [content]; rewrite Z.add_0_l, Nat2Z.id.
  match goal with |- context [mkFile ?x (p + 4)] =>
    step (Write_written payload (mkFile x (p + 4))) end.
  cbn [fst snd content pos]; fold n; rewrite Z.ltb_irrefl.
  unfold ret; do 2 f_equal.
  (* the bytes *)
  assert (Hf1 : firstn e c1 =
                (firstn (p + 1) c ++ enc) ++ firstn (Z.to_nat blockLen)
                                               (skipn (p + 4) c)).
  { rewrite <- (firstn_skipn (p + 4) (firstn e c1)).
    rewrite firstn_firstn; replace (Nat.min (p + 4) e) with (p + 4)%nat
      by (unfold e; lia).
    f_equal.
    - replace (p + 4)%nat with (p + 1 + length enc)%nat by lia.
      unfold c1; apply firstn_overwrite_end; lia.
    - rewrite skipn_firstn_comm.
      replace (e - (p + 4))%nat with (Z.to_nat blockLen) by (unfold e; lia).
      f_equal; unfold c1; apply skipn_overwrite; lia. }
  assert (Hs1 : skipn e c1 = skipn e c)
    by (unfold c1; apply skipn_overwrite; unfold e; lia).
  rewrite Hf1, Hs1, <- !app_assoc.
  rewrite (app_assoc (firstn (p + 1) c) enc).
  rewrite written_inside
    by (rewrite !length_app, length_firstn; lia).
  match goal with |- overwrite ?x _ _ = _ =>
    replace (overwrite x (p + 4) payload)
      with (overwrite x (length (firstn (p + 1) c ++ enc)) payload)
      by (f_equal; rewrite length_app, length_firstn; lia) end.
  rewrite overwrite_app, <- !app_assoc; do 3 f_equal.
  rewrite app_assoc, skipn_app.
  rewrite skipn_all2
    by (rewrite length_app, length_firstn, length_skipn, repeat_length; lia).
  rewrite length_app, length_firstn, length_skipn, repeat_length; fold d.
  replace (length payload
           - (Nat.min (Z.to_nat blockLen) (length c - (p + 4)) + d))%nat
    with 0%nat by lia.
  reflexivity.
Qed.

(** A longer payload beyond that capacity: the loop panics inside
    [ShiftFileRight]. *)
Lemma rewrite_longer_panics fuel :
  blockLen < n ->
  Z.min 100 (Z.of_nat (length c) - Z.of_nat e) < n - blockLen ->
  (length c + 1 < fuel)%nat ->
  exists f',
    rewriteCommentBlock fuel payload blockLen after (mkFile c (p + 4)) =
      Panicked SliceBoundsOutOfRange f'.
Proof.
  intros Hn Hcap Hf.
  unfold rewriteCommentBlock; fold n enc.
  rewrite rewrite_header.
  replace (n <=? blockLen) with false by (symmetry; apply Z.leb_gt; lia).
  set (c1 := overwrite c (p + 1) enc).
  assert (Henc : length enc = 3%nat) by apply length_formatUintBigEndian.
  assert (Hl1 : length c1 = length c)
    by (apply length_overwrite_inside; lia).
  step (Seek_current_0 (mkFile c1 (p + 4))); cbn [fst pos].
  step (Seek_ok blockLen SeekCurrent (mkFile c1 (p + 4)) ltac:(simpl; lia)).
  cbn [content pos].
  replace (Z.to_nat (Z.of_nat (p + 4) + blockLen)) with e by (unfold e; lia).
  destruct (ShiftFileRight_beyond_capacity fuel (n - blockLen) (mkFile c1 e))
    as (f' & H).
  - cbn [content]; lia.
  - unfold size; cbn [content pos]; unfold e; lia.
  - unfold size; cbn [content pos]; rewrite Hl1; exact Hcap.
  - unfold bind at 1; rewrite H; eauto.
Qed.

(** A payload of the same length is written in place, and the switch
    falls through. *)
Lemma rewrite_same fuel :
  n = blockLen ->
  rewriteCommentBlock fuel payload blockLen after (mkFile c (p + 4)) =
    after (mkFile (firstn (p + 1) c ++ enc ++ payload ++ skipn e c)
                  (p + 4 + length payload)).
Proof.
  intros Hn.
  assert (Henc : length enc = 3%nat) by apply length_formatUintBigEndian.
  unfold rewriteCommentBlock; fold n enc.
  rewrite rewrite_header.
  replace (n <=? blockLen) with true by (symmetry; apply Z.leb_le; lia).
  step (Write_written payload (mkFile (overwrite c (p + 1) enc) (p + 4))).
  cbn [fst snd content pos]; fold n.
  rewrite Z.ltb_irrefl.
  replace (blockLen - n >? 0) with false
    by (rewrite Z.gtb_ltb; symmetry; apply Z.ltb_ge; lia).
  rewrite payload_written, overwrite_inside by lia.
  rewrite length_app, Henc, <- !app_assoc.
  replace (p + 1 + (3 + length payload))%nat with e
    by (unfold e, n in *; lia).
  replace (p + 4 + length payload)%nat with e by (unfold e, n in *; lia).
  reflexivity.
Qed.

End Rewrite.

(** ** The rewriting loop of [flac.go] *)

Lemma firstn_past (a x : list byte) n c :
  skipn n c = a ++ x -> firstn (n + length a) c = firstn n c ++ a.
Proof.
  intros H.
  rewrite <- (firstn_skipn n c) at 1; rewrite H.
  assert (Hn : (n <= length c \/ length c < n)%nat) by lia.
  destruct Hn as [Hn|Hn].
  - replace (n + length a)%nat with (length (firstn n c) + length a)%nat
      by (rewrite length_firstn; lia).
    rewrite firstn_app_2; f_equal.
    replace (length a) with (length a + 0)%nat at 1 by lia.
    now rewrite firstn_app_2, firstn_0, app_nil_r.
  - rewrite skipn_all2 in H by lia.
    symmetry in H; apply app_eq_nil in H; destruct H as [-> ->].
    cbn [length]; rewrite Nat.add_0_r, !app_nil_r, firstn_firstn.
    f_equal; lia.
Qed.

Lemma header_inside (b : byte) (enc rest : list byte) p c :
  length enc = 3%nat -> skipn p c = b :: enc ++ rest ->
  (p + 4 + length rest <= length c)%nat
  /\ firstn 1 (skipn p c) = [b]
  /\ firstn 3 (skipn (p + 1) c) = enc
  /\ skipn (p + 4) c = rest.
Proof.
  intros Henc Hskip.
  assert (Hl := f_equal (@length byte) Hskip).
  rewrite length_skipn in Hl; cbn [length] in Hl; rewrite length_app in Hl.
  split; [lia|]; split; [rewrite Hskip; reflexivity|].
  assert (H1 : skipn (p + 1) c = enc ++ rest).
  { replace (p + 1)%nat with (1 + p)%nat by lia.
    rewrite <- skipn_skipn, Hskip; reflexivity. }
  split.
  - rewrite H1, <- Henc.
    replace (length enc) with (length enc + 0)%nat at 1 by lia.
    now rewrite firstn_app_2, firstn_0, app_nil_r.
  - replace (p + 4)%nat with (p + 1 + length enc)%nat by lia.
    exact (skipn_past enc rest (p + 1) c H1).
Qed.

Section Loop.

Variable Data : Type.
Variable PrepareVorbisComment : Data -> list byte.

(** One turn of the loop on a block header: the type is compared with the
    flag still in the byte. *)
Lemma findAndWrite_step fuel data c p b len rest :
  0 <= b < 256 -> 0 <= len < 2 ^ 24 ->
  skipn p c = byte_of_Z b :: formatUintBigEndian len 3 ++ rest ->
  findAndWriteFlacCommentBlock Data PrepareVorbisComment (S fuel) data (mkFile c p) =
    (let after := if getBit b 7 then ret None else findAndWriteFlacCommentBlock Data PrepareVorbisComment fuel data in
     if b =? vorbisCommentBlock
     then rewriteCommentBlock fuel (PrepareVorbisComment data) len after
     else bind (Seek len SeekCurrent) (fun _ => after)) (mkFile c (p + 4)).
Proof.
  intros Hb Hlen Hskip; cbv zeta.
  destruct (header_inside _ _ _ _ _ (length_formatUintBigEndian len 3) Hskip)
    as (Hp & H1 & H3 & _).
  cbn [findAndWriteFlacCommentBlock].
  step (readBytes_full 1 (mkFile c p) ltac:(lia)
          ltac:(unfold size; cbn [content pos]; lia)).
  cbn [content pos]; change (Z.to_nat 1) with 1%nat.
  rewrite H1; cbn [nth]; rewrite Z_of_byte_of_Z, Z.mod_small by lia.
  step (readInt_full 3 (mkFile c (p + 1)) ltac:(lia)
          ltac:(unfold size; cbn [content pos]; lia)).
  cbn [content pos]; change (Z.to_nat 3) with 3%nat.
  rewrite H3, getInt_formatUintBigEndian_3 by assumption.
  replace (p + 1 + 3)%nat with (p + 4)%nat by lia.
  reflexivity.
Qed.

(** The loop passes over blocks that are not comment blocks. *)
Lemma findAndWrite_skips : forall pre fuel data c p rest,
  Forall skippedBlock pre ->
  skipn p c = encodeChain pre ++ rest ->
  findAndWriteFlacCommentBlock Data PrepareVorbisComment (length pre + fuel) data (mkFile c p) =
    findAndWriteFlacCommentBlock Data PrepareVorbisComment fuel data (mkFile c (p + length (encodeChain pre))).
Proof.
  induction pre as [|[ty pl] pre IH]; intros fuel data c p rest Hpre Hskip.
  - cbn [length encodeChain flat_map]; now rewrite Nat.add_0_r.
  - inversion Hpre as [|? ? (Hty & Hnc & Hlen) Hpre']; subst.
    cbn [fst snd] in *.
    cbn [encodeChain flat_map] in Hskip |- *; fold (encodeChain pre) in *.
    cbn [fst snd] in *.
    unfold encodeBlock at 1, blockHeader at 1 in Hskip.
    rewrite <- !app_assoc in Hskip; cbn [app] in Hskip.
    rewrite Z.add_0_l in Hskip.
    cbn [length Nat.add].
    assert (Hty' : 0 <= ty < 256) by lia.
    rewrite (findAndWrite_step _ _ _ _ _ _ _ Hty'
               (conj (Nat2Z.is_nonneg _) Hlen) Hskip).
    cbv zeta.
    replace (ty =? vorbisCommentBlock) with false
      by (symmetry; apply Z.eqb_neq; assumption).
    destruct (flag_bit ty Hty) as (Hb0 & _); unfold getBit; rewrite Hb0.
    destruct (header_inside _ _ _ _ _
                (length_formatUintBigEndian _ 3) Hskip) as (Hp & _ & _ & H4).
    step (Seek_ok (Z.of_nat (length pl)) SeekCurrent (mkFile c (p + 4))
            ltac:(simpl; lia)).
    cbn [content pos].
    replace (Z.to_nat (Z.of_nat (p + 4) + Z.of_nat (length pl)))
      with (p + 4 + length pl)%nat by lia.
    rewrite (IH fuel data c (p + 4 + length pl)%nat rest Hpre'
               (skipn_past _ _ _ _ H4)).
    f_equal; f_equal.
    unfold encodeBlock, blockHeader; rewrite !length_app; cbn [length].
    rewrite length_formatUintBigEndian; lia.
Qed.

End Loop.

Lemma length_encodeBlock last ty (pl : list byte) :
  length (encodeBlock last ty pl) = (4 + length pl)%nat.
Proof.
  unfold encodeBlock, blockHeader; rewrite length_app; cbn [length].
  now rewrite length_formatUintBigEndian.
Qed.

(** Where the comment block of a chain lies in the file. *)
Lemma comment_block_located pre (old rest c : list byte) p :
  skipn p c = encodeChain pre ++ encodeBlock false vorbisCommentBlock old
                ++ rest ->
  let cp := (p + length (encodeChain pre))%nat in
  skipn cp c = byte_of_Z vorbisCommentBlock
                 :: formatUintBigEndian (Z.of_nat (length old)) 3
                 ++ (old ++ rest)
  /\ (cp + 4 + length old + length rest <= length c)%nat
  /\ firstn (cp + 1) c = firstn p c ++ encodeChain pre
                           ++ [byte_of_Z vorbisCommentBlock]
  /\ skipn (cp + 4 + length old) c = rest.
Proof.
  intros Hskip cp.
  assert (H0 : skipn cp c = byte_of_Z vorbisCommentBlock
                 :: formatUintBigEndian (Z.of_nat (length old)) 3
                 ++ (old ++ rest)).
  { unfold cp; rewrite (skipn_past _ _ _ _ Hskip).
    unfold encodeBlock, blockHeader; rewrite <- !app_assoc; reflexivity. }
  destruct (header_inside _ _ _ _ _
              (length_formatUintBigEndian _ 3) H0) as (Hp & _ & _ & H4).
  rewrite length_app in Hp.
  split; [exact H0|]; split; [lia|]; split.
  - change (byte_of_Z vorbisCommentBlock
              :: formatUintBigEndian (Z.of_nat (length old)) 3
              ++ (old ++ rest))
      with ([byte_of_Z vorbisCommentBlock]
              ++ (formatUintBigEndian (Z.of_nat (length old)) 3
                    ++ (old ++ rest))) in H0.
    change (cp + 1)%nat with (cp + length [byte_of_Z vorbisCommentBlock])%nat.
    rewrite (firstn_past _ _ _ _ H0).
    unfold cp; rewrite (firstn_past _ _ _ _ Hskip), <- app_assoc; reflexivity.
  - exact (skipn_past _ _ _ _ H4).
Qed.

Section OnComment.

Variable Data : Type.
Variable PrepareVorbisComment : Data -> list byte.

(** The loop of [flac.go] reaches the first comment block of the chain
    and rewrites it. *)
Lemma findAndWrite_reaches_comment pre fuel data (old rest c : list byte) p :
  Forall skippedBlock pre ->
  Z.of_nat (length old) < 2 ^ 24 ->
  skipn p c = encodeChain pre ++ encodeBlock false vorbisCommentBlock old
                ++ rest ->
  findAndWriteFlacCommentBlock Data PrepareVorbisComment
      (length pre + S fuel) data (mkFile c p) =
    rewriteCommentBlock fuel (PrepareVorbisComment data)
      (Z.of_nat (length old))
      (findAndWriteFlacCommentBlock Data PrepareVorbisComment fuel data)
      (mkFile c (p + length (encodeChain pre) + 4)).
Proof.
  intros Hpre Hold Hskip.
  rewrite (findAndWrite_skips _ _ pre (S fuel) data c p _ Hpre Hskip).
  destruct (comment_block_located pre old rest c p Hskip) as (H0 & _).
  assert (H4 : 0 <= vorbisCommentBlock < 256)
    by (unfold vorbisCommentBlock; lia).
  rewrite (findAndWrite_step _ _ _ _ _ _ _ _ _ H4
             (conj (Nat2Z.is_nonneg _) Hold) H0).
  reflexivity.
Qed.

End OnComment.

(** X7: the rewriting loop of flac.go on a chain that has, from the
    cursor on, blocks that are not comment blocks and then a comment block
    that is not the last block.  When the new payload is longer than the
    old one, by no more than min(100, number of bytes behind the block),
    the loop returns no error and the file is the old one with the comment
    block replaced by the new one: the bytes in front of it and the bytes
    behind it keep their values and their order, the latter directly
    behind the new payload, and the file is longer by the difference. *)
Theorem findAndWrite_longer_payload :
  forall (Data : Type) (PrepareVorbisComment : Data -> list byte)
         (pre : list (Z * list byte)) (fuel : nat) (data : Data)
         (old rest c : list byte) (p : nat),
    Forall skippedBlock pre ->
    skipn p c = encodeChain pre ++ encodeBlock false vorbisCommentBlock old
                  ++ rest ->
    let payload := PrepareVorbisComment data in
    (length old < length payload)%nat ->
    Z.of_nat (length payload) < 2 ^ 24 ->
    Z.of_nat (length payload) - Z.of_nat (length old)
      <= Z.min 100 (Z.of_nat (length rest)) ->
    (length pre + length c + 1 < fuel)%nat ->
    findAndWriteFlacCommentBlock Data PrepareVorbisComment fuel data
        (mkFile c p) =
      Done None
        (mkFile (firstn p c ++ encodeChain pre
                   ++ encodeBlock false vorbisCommentBlock payload ++ rest)
                (p + length (encodeChain pre) + 4 + length payload)).
Proof.
  intros Data P pre fuel data old rest c p Hpre Hskip payload Hlt Hn Hcap Hf.
  change (2 ^ 24) with 16777216 in *.
  replace fuel with (length pre + S (fuel - length pre - 1))%nat by lia.
  rewrite (findAndWrite_reaches_comment Data P pre _ data old rest c p Hpre
             ltac:(change (2 ^ 24) with 16777216; lia) Hskip).
  destruct (comment_block_located pre old rest c p Hskip)
    as (_ & Hin & Hfirst & Hrest).
  assert (Hr : length rest
               = (length c - (p + length (encodeChain pre) + 4 + length old))%nat)
    by (rewrite <- Hrest, length_skipn; reflexivity).
  fold payload.
  rewrite rewrite_longer; rewrite ?Nat2Z.id; try lia.
  rewrite Hfirst, Hrest, uint_small
    by (change (2 ^ 24) with 16777216; lia).
  unfold encodeBlock, blockHeader; rewrite <- !app_assoc; reflexivity.
Qed.

Lemma skippedBlock_streaminfo : skippedBlock (0, repeat x00 34).
Proof.
  unfold skippedBlock, vorbisCommentBlock; cbn [fst snd].
  rewrite repeat_length; change (2 ^ 24) with 16777216; lia.
Qed.

Lemma findAndWrite_longer_payload_witness :
  findAndWriteFlacCommentBlock (list byte) encoded 400 (repeat "n"%byte 30)
      (mkFile scenario 4) =
    Done None
      (mkFile (firstn 4 scenario ++ encodeChain [(0, repeat x00 34)]
                 ++ encodeBlock false vorbisCommentBlock
                      (encoded (repeat "n"%byte 30))
                 ++ (blockHeader true 1 100 ++ repeat x00 100 ++ audio))
              (4 + length (encodeChain [(0, repeat x00 34)]) + 4
               + length (encoded (repeat "n"%byte 30)))).
Proof.
  apply (findAndWrite_longer_payload (list byte) encoded
           [(0, repeat x00 34)] 400 (repeat "n"%byte 30)
           (repeat "c"%byte 20)
           (blockHeader true 1 100 ++ repeat x00 100 ++ audio) scenario 4).
  - constructor; [exact skippedBlock_streaminfo|constructor].
  - reflexivity.
  - vm_compute; lia.
  - vm_compute; reflexivity.
  - vm_compute; discriminate.
  - vm_compute; lia.
Defined.

(** X8: on the same chain, when the new payload is shorter than the old
    one, the loop returns no error, the new comment block is in place and
    the bytes that were behind the old block follow it directly; the file
    is not truncated: it keeps its length, and ends with a second copy of
    the last bytes of the original, as many as the payload lost. *)
Theorem findAndWrite_shorter_payload :
  forall (Data : Type) (PrepareVorbisComment : Data -> list byte)
         (pre : list (Z * list byte)) (fuel : nat) (data : Data)
         (old rest c : list byte) (p : nat),
    Forall skippedBlock pre ->
    skipn p c = encodeChain pre ++ encodeBlock false vorbisCommentBlock old
                  ++ rest ->
    let payload := PrepareVorbisComment data in
    (length payload < length old)%nat ->
    Z.of_nat (length old) < 2 ^ 24 ->
    (length pre + length c + 1 < fuel)%nat ->
    findAndWriteFlacCommentBlock Data PrepareVorbisComment fuel data
        (mkFile c p) =
      Done None
        (mkFile (firstn p c ++ encodeChain pre
                   ++ encodeBlock false vorbisCommentBlock payload ++ rest
                   ++ skipn (length c - (length old - length payload)) c)
                (p + length (encodeChain pre) + 4 + length payload)).
Proof.
  intros Data P pre fuel data old rest c p Hpre Hskip payload Hlt Hn Hf.
  replace fuel with (length pre + S (fuel - length pre - 1))%nat by lia.
  rewrite (findAndWrite_reaches_comment Data P pre _ data old rest c p Hpre
             Hn Hskip).
  change (2 ^ 24) with 16777216 in *.
  destruct (comment_block_located pre old rest c p Hskip)
    as (_ & Hin & Hfirst & Hrest).
  fold payload.
  rewrite rewrite_shorter; rewrite ?Nat2Z.id; try lia.
  rewrite Hfirst, Hrest, uint_small
    by (change (2 ^ 24) with 16777216; lia).
  unfold encodeBlock, blockHeader; rewrite <- !app_assoc; reflexivity.
Qed.

Lemma findAndWrite_shorter_payload_witness :
  findAndWriteFlacCommentBlock (list byte) encoded 400 (repeat "n"%byte 10)
      (mkFile scenario 4) =
    Done None
      (mkFile (firstn 4 scenario ++ encodeChain [(0, repeat x00 34)]
                 ++ encodeBlock false vorbisCommentBlock
                      (encoded (repeat "n"%byte 10))
                 ++ (blockHeader true 1 100 ++ repeat x00 100 ++ audio)
                 ++ skipn (length scenario
                           - (length (repeat "c"%byte 20)
                              - length (encoded (repeat "n"%byte 10))))
                          scenario)
              (4 + length (encodeChain [(0, repeat x00 34)]) + 4
               + length (encoded (repeat "n"%byte 10)))).
Proof.
  apply (findAndWrite_shorter_payload (list byte) encoded
           [(0, repeat x00 34)] 400 (repeat "n"%byte 10)
           (repeat "c"%byte 20)
           (blockHeader true 1 100 ++ repeat x00 100 ++ audio) scenario 4).
  - constructor; [exact skippedBlock_streaminfo|constructor].
  - reflexivity.
  - vm_compute; lia.
  - vm_compute; reflexivity.
  - vm_compute; lia.
Defined.

(** X9: on the same chain, when the new payload is longer than the old
    one by more than min(100, number of bytes behind the block), the loop
    does not return: it panics in ShiftFileRight, after the length header
    of the block has been patched. *)
Theorem findAndWrite_much_longer_payload_panics :
  forall (Data : Type) (PrepareVorbisComment : Data -> list byte)
         (pre : list (Z * list byte)) (fuel : nat) (data : Data)
         (old rest c : list byte) (p : nat),
    Forall skippedBlock pre ->
    skipn p c = encodeChain pre ++ encodeBlock false vorbisCommentBlock old
                  ++ rest ->
    let payload := PrepareVorbisComment data in
    Z.of_nat (length old) < 2 ^ 24 ->
    Z.min 100 (Z.of_nat (length rest))
      < Z.of_nat (length payload) - Z.of_nat (length old) ->
    (length pre + length c + 2 < fuel)%nat ->
    exists f',
      findAndWriteFlacCommentBlock Data PrepareVorbisComment fuel data
        (mkFile c p) = Panicked SliceBoundsOutOfRange f'.
Proof.
  intros Data P pre fuel data old rest c p Hpre Hskip payload Hn Hcap Hf.
  replace fuel with (length pre + S (fuel - length pre - 1))%nat by lia.
  rewrite (findAndWrite_reaches_comment Data P pre _ data old rest c p Hpre
             Hn Hskip).
  destruct (comment_block_located pre old rest c p Hskip)
    as (_ & Hin & Hfirst & Hrest).
  assert (Hr : length rest
               = (length c - (p + length (encodeChain pre) + 4 + length old))%nat)
    by (rewrite <- Hrest, length_skipn; reflexivity).
  fold payload.
  apply rewrite_longer_panics; rewrite ?Nat2Z.id; lia.
Qed.

Lemma findAndWrite_much_longer_payload_panics_witness :
  exists f',
    findAndWriteFlacCommentBlock (list byte) encoded 400 (repeat "n"%byte 200)
      (mkFile scenario 4) = Panicked SliceBoundsOutOfRange f'.
Proof.
  apply (findAndWrite_much_longer_payload_panics (list byte) encoded
           [(0, repeat x00 34)] 400 (repeat "n"%byte 200)
           (repeat "c"%byte 20)
           (blockHeader true 1 100 ++ repeat x00 100 ++ audio) scenario 4).
  - constructor; [exact skippedBlock_streaminfo|constructor].
  - reflexivity.
  - vm_compute; reflexivity.
  - vm_compute; reflexivity.
  - vm_compute; lia.
Defined.

(** X10: the rewriting loop of flac.go compares the header byte with the
    comment type without clearing the last-block flag.  On a chain of
    blocks that are not comment blocks, ended by a last block of any type,
    a comment block included, it rewrites nothing: it returns no error,
    the bytes of the file are unchanged and the cursor is behind the last
    block. *)
Theorem findAndWrite_without_rewritable_comment :
  forall (Data : Type) (PrepareVorbisComment : Data -> list byte)
         (pre : list (Z * list byte)) (fuel : nat) (data : Data)
         (ty len : Z) (rest c : list byte) (p : nat),
    Forall skippedBlock pre ->
    0 <= ty < 128 -> 0 <= len < 2 ^ 24 ->
    skipn p c = encodeChain pre ++ blockHeader true ty len ++ rest ->
    (length pre < fuel)%nat ->
    findAndWriteFlacCommentBlock Data PrepareVorbisComment fuel data
        (mkFile c p) =
      Done None (mkFile c (p + length (encodeChain pre) + 4 + Z.to_nat len)).
Proof.
  intros Data P pre fuel data ty len rest c p Hpre Hty Hlen Hskip Hf.
  replace fuel with (length pre + S (fuel - length pre - 1))%nat by lia.
  rewrite (findAndWrite_skips _ _ pre _ data c p _ Hpre Hskip).
  apply skipn_past in Hskip; unfold blockHeader in Hskip.
  assert (Hb : 0 <= 128 + ty < 256) by lia.
  rewrite (findAndWrite_step _ _ _ _ _ _ _ _ _ Hb Hlen Hskip); cbv zeta.
  replace (128 + ty =? vorbisCommentBlock) with false
    by (symmetry; apply Z.eqb_neq; unfold vorbisCommentBlock; lia).
  destruct (flag_bit ty Hty) as (_ & Hb1 & _); unfold getBit; rewrite Hb1.
  match goal with |- context [mkFile c ?q] =>
    step (Seek_ok len SeekCurrent (mkFile c q) ltac:(simpl; lia)) end.
  unfold ret; cbn [content pos]; do 2 f_equal; lia.
Qed.

Lemma findAndWrite_without_rewritable_comment_witness :
  findAndWriteFlacCommentBlock (list byte) encoded 10 (repeat "n"%byte 30)
      (mkFile no_comment 4) =
    Done None
      (mkFile no_comment
         (4 + length (encodeChain [(0, repeat x00 34)]) + 4 + Z.to_nat 100)).
Proof.
  apply (findAndWrite_without_rewritable_comment (list byte) encoded
           [(0, repeat x00 34)] 10 (repeat "n"%byte 30) 1 100
           (repeat x00 100 ++ audio) no_comment 4).
  - constructor; [exact skippedBlock_streaminfo|constructor].
  - lia.
  - split; [discriminate|reflexivity].
  - reflexivity.
  - cbn [length]; lia.
Defined.

(** X11: on a chain of blocks that are not comment blocks and that ends,
    without a last block, less than four bytes before the end of the file,
    the rewriting loop of flac.go returns a short-read error and has
    written nothing. *)
Theorem findAndWrite_unterminated_chain :
  forall (Data : Type) (PrepareVorbisComment : Data -> list byte)
         (pre : list (Z * list byte)) (fuel : nat) (data : Data)
         (tail c : list byte) (p : nat),
    Forall skippedBlock pre ->
    skipn p c = encodeChain pre ++ tail ->
    (length tail < 4)%nat ->
    (length pre < fuel)%nat ->
    exists e f',
      findAndWriteFlacCommentBlock Data PrepareVorbisComment fuel data
        (mkFile c p) = Done (Some e) f'
      /\ content f' = c
      /\ (e = EOF \/ e = ErrUnexpectedEOF).
Proof.
  intros Data P pre fuel data tail c p Hpre Hskip Ht Hf.
  replace fuel with (length pre + S (fuel - length pre - 1))%nat by lia.
  rewrite (findAndWrite_skips _ _ pre _ data c p _ Hpre Hskip).
  apply skipn_past in Hskip.
  set (cp := (p + length (encodeChain pre))%nat) in *.
  assert (Hl := f_equal (@length byte) Hskip); rewrite length_skipn in Hl.
  cbn [findAndWriteFlacCommentBlock].
  destruct (Z.le_gt_cases (Z.of_nat cp + 1) (Z.of_nat (length c))) as [H1|H1].
  - step (readBytes_full 1 (mkFile c cp) ltac:(lia) H1).
    cbn [content pos].
    destruct (readInt_short_kind 3 (mkFile c (cp + Z.to_nat 1)))
      as (e & f' & H & Hc & _ & He);
      [lia|unfold size; cbn [content pos]; lia|].
    step H; unfold ret; eauto.
  - destruct (readBytes_short 1 (mkFile c cp))
      as (e & f' & H & Hc & _ & He);
      [lia|unfold size; cbn [content pos]; lia|].
    step H; unfold ret; eauto.
Qed.

Lemma findAndWrite_unterminated_chain_witness :
  exists e f',
    findAndWriteFlacCommentBlock (list byte) encoded 10 (repeat "n"%byte 30)
      (mkFile unterminated 4) = Done (Some e) f'
    /\ content f' = unterminated
    /\ (e = EOF \/ e = ErrUnexpectedEOF).
Proof.
  apply (findAndWrite_unterminated_chain (list byte) encoded
           [(0, repeat x00 2)] 10 (repeat "n"%byte 30) [] unterminated 4).
  - constructor; [|constructor].
    unfold skippedBlock, vorbisCommentBlock; cbn [fst snd length repeat].
    change (2 ^ 24) with 16777216; lia.
  - reflexivity.
  - cbn [length]; lia.
  - cbn [length]; lia.
Defined.

(** ** The reader *)

Section Reader.

Variable Metadata : Type.
Variable newMetadataVorbis : Metadata.
Variable readVorbisComment : Metadata -> IO (Metadata * option error).
Variable readPictureBlock : Metadata -> IO (Metadata * option error).

(** [readFLACMetadataBlock] on a block header that fits the codec. *)
Lemma readFLACMetadataBlock_block m c p last ty len rest :
  0 <= ty < 128 -> 0 <= len < 2 ^ 24 ->
  skipn p c = blockHeader last ty len ++ rest ->
  readFLACMetadataBlock Metadata readVorbisComment readPictureBlock m
      (mkFile c p) =
    (if ty =? vorbisCommentBlock then
       bind (readVorbisComment m) (fun x => ret (fst x, last, snd x))
     else if ty =? pictureBlock then
       bind (readPictureBlock m) (fun x => ret (fst x, last, snd x))
     else
       bind (Seek len SeekCurrent) (fun s => ret (m, last, snd s)))
      (mkFile c (p + 4)).
Proof.
  intros Hty Hlen Hskip; unfold blockHeader in Hskip; cbn [app] in Hskip.
  destruct (header_inside _ _ _ _ _ (length_formatUintBigEndian len 3) Hskip)
    as (Hp & H1 & H3 & _).
  unfold readFLACMetadataBlock.
  step (readBytes_full 1 (mkFile c p) ltac:(lia)
          ltac:(unfold size; cbn [content pos]; lia)).
  cbn [content pos]; change (Z.to_nat 1) with 1%nat.
  rewrite H1; cbn [nth]; rewrite Z_of_byte_of_Z.
  step (readInt_full 3 (mkFile c (p + 1)) ltac:(lia)
          ltac:(unfold size; cbn [content pos]; lia)).
  cbn [content pos]; change (Z.to_nat 3) with 3%nat.
  rewrite H3, getInt_formatUintBigEndian_3 by assumption.
  replace (p + 1 + 3)%nat with (p + 4)%nat by lia.
  destruct (flag_bit ty Hty) as (Hb0 & Hb1 & Hx).
  destruct last.
  - rewrite Z.mod_small by lia.
    unfold getBit; rewrite Hb1, Hx; reflexivity.
  - rewrite Z.add_0_l, Z.mod_small by lia.
    unfold getBit; rewrite Hb0; reflexivity.
Qed.

Lemma opaque_not_decoded ty :
  ty <> vorbisCommentBlock -> ty <> pictureBlock ->
  (ty =? vorbisCommentBlock) = false /\ (ty =? pictureBlock) = false.
Proof. intros H1 H2; split; apply Z.eqb_neq; assumption. Qed.

(** The reader passes over opaque blocks by their declared length. *)
Lemma ReadFLACTags_loop_skips : forall pre fuel m c p rest,
  Forall opaqueBlock pre ->
  skipn p c = encodeChain pre ++ rest ->
  ReadFLACTags_loop Metadata readVorbisComment readPictureBlock
      (length pre + fuel) m (mkFile c p) =
    ReadFLACTags_loop Metadata readVorbisComment readPictureBlock
      fuel m (mkFile c (p + length (encodeChain pre))).
Proof.
  induction pre as [|[ty pl] pre IH]; intros fuel m c p rest Hpre Hskip.
  - cbn [length encodeChain flat_map]; now rewrite Nat.add_0_r.
  - inversion Hpre as [|? ? (Hty & Hnc & Hnp & Hlen) Hpre']; subst.
    cbn [encodeChain flat_map] in Hskip |- *; fold (encodeChain pre) in *.
    cbn [fst snd] in *.
    unfold encodeBlock at 1 in Hskip; rewrite <- !app_assoc in Hskip.
    cbn [length Nat.add ReadFLACTags_loop].
    unfold bind at 1.
    rewrite (readFLACMetadataBlock_block m c p false ty _ _ Hty
               (conj (Nat2Z.is_nonneg _) Hlen) Hskip).
    destruct (opaque_not_decoded ty Hnc Hnp) as (-> & ->).
    step (Seek_ok (Z.of_nat (length pl)) SeekCurrent (mkFile c (p + 4))
            ltac:(simpl; lia)).
    unfold ret; cbn [content pos snd].
    replace (Z.to_nat (Z.of_nat (p + 4) + Z.of_nat (length pl)))
      with (p + 4 + length pl)%nat by lia.
    apply skipn_past in Hskip.
    assert (Hh : length (blockHeader false ty (Z.of_nat (length pl))) = 4%nat).
    { unfold blockHeader; cbn [length].
      now rewrite length_formatUintBigEndian. }
    rewrite Hh in Hskip; apply skipn_past in Hskip.
    rewrite (IH fuel m c (p + 4 + length pl)%nat rest Hpre' Hskip).
    f_equal; f_equal; rewrite length_app, length_encodeBlock; lia.
Qed.

(** [ReadFLACTags] behind a good signature. *)
Lemma ReadFLACTags_signed fuel c p rest :
  skipn p c = fLaC ++ rest ->
  ReadFLACTags Metadata newMetadataVorbis readVorbisComment readPictureBlock
      fuel (mkFile c p) =
    ReadFLACTags_loop Metadata readVorbisComment readPictureBlock
      fuel newMetadataVorbis (mkFile c (p + 4)).
Proof.
  intros Hskip.
  assert (Hsig : firstn 4 (skipn p c) = fLaC) by (rewrite Hskip; reflexivity).
  pose proof (signature_inside (mkFile c p) Hsig) as H4.
  unfold ReadFLACTags, readString.
  step (readBytes_full 4 (mkFile c p) ltac:(lia) H4).
  cbn [content pos]; change (Z.to_nat 4) with 4%nat.
  rewrite Hsig, bytes_eqb_true; reflexivity.
Qed.

End Reader.

(** X12: on a container whose chain has only blocks that are neither
    comment nor picture blocks, up to and including the last block,
    ReadFLACTags returns the empty metadata it started from, whatever the
    decoders of the payloads are: it passes over every block by its
    declared length, leaves the bytes unchanged and ends with the cursor
    behind the last block. *)
Theorem ReadFLACTags_skips_opaque_blocks :
  forall (Metadata : Type) (newMetadataVorbis : Metadata)
         (readVorbisComment readPictureBlock :
            Metadata -> IO (Metadata * option error))
         (pre : list (Z * list byte)) (fuel : nat)
         (ty len : Z) (rest c : list byte) (p : nat),
    Forall opaqueBlock pre ->
    0 <= ty < 128 -> ty <> vorbisCommentBlock -> ty <> pictureBlock ->
    0 <= len < 2 ^ 24 ->
    skipn p c = fLaC ++ encodeChain pre ++ blockHeader true ty len ++ rest ->
    (length pre < fuel)%nat ->
    ReadFLACTags Metadata newMetadataVorbis readVorbisComment readPictureBlock
        fuel (mkFile c p) =
      Done (Val newMetadataVorbis)
           (mkFile c (p + 4 + length (encodeChain pre) + 4 + Z.to_nat len)).
Proof.
  intros Metadata m0 rvc rpb pre fuel ty len rest c p Hpre Hty Hnc Hnp Hlen
         Hskip Hf.
  rewrite (ReadFLACTags_signed _ _ _ _ _ _ _ _ Hskip).
  apply (skipn_past fLaC) in Hskip; change (length fLaC) with 4%nat in Hskip.
  replace fuel with (length pre + S (fuel - length pre - 1))%nat by lia.
  rewrite (ReadFLACTags_loop_skips _ _ _ pre _ m0 c _ _ Hpre Hskip).
  apply skipn_past in Hskip.
  cbn [ReadFLACTags_loop]; unfold bind at 1.
  rewrite (readFLACMetadataBlock_block _ _ _ m0 c _ true ty len rest Hty Hlen
             Hskip).
  destruct (opaque_not_decoded ty Hnc Hnp) as (-> & ->).
  match goal with |- context [mkFile c ?q] =>
    step (Seek_ok len SeekCurrent (mkFile c q) ltac:(simpl; lia)) end.
  unfold ret; cbn [content pos snd]; do 2 f_equal; lia.
Qed.

Lemma ReadFLACTags_skips_opaque_blocks_witness :
  ReadFLACTags unit tt (fun m => ret (m, None)) (fun m => ret (m, None)) 10
      (mkFile no_comment 0) =
    Done (Val tt)
         (mkFile no_comment
            (0 + 4 + length (encodeChain [(0, repeat x00 34)]) + 4
             + Z.to_nat 100)).
Proof.
  apply (ReadFLACTags_skips_opaque_blocks unit tt
           (fun m => ret (m, None)) (fun m => ret (m, None))
           [(0, repeat x00 34)] 10 1 100 (repeat x00 100 ++ audio)
           no_comment 0).
  - constructor; [|constructor].
    unfold opaqueBlock, vorbisCommentBlock, pictureBlock; cbn [fst snd].
    rewrite repeat_length; change (2 ^ 24) with 16777216; lia.
  - lia.
  - discriminate.
  - discriminate.
  - split; [discriminate|reflexivity].
  - reflexivity.
  - cbn [length]; lia.
Defined.

(** X13: when the last block of the chain is a comment block (or a picture
    block) behind blocks that are neither, ReadFLACTags calls the decoder
    of that payload on the empty metadata with the cursor on the first
    byte of the payload, and returns what the decoder returns: its error
    if it has one, its metadata otherwise.  The stream is left as the
    decoder left it: the declared length of the block is not used. *)
Theorem ReadFLACTags_hands_over_to_decoder :
  forall (Metadata : Type) (newMetadataVorbis : Metadata)
         (readVorbisComment readPictureBlock :
            Metadata -> IO (Metadata * option error))
         (pre : list (Z * list byte)) (fuel : nat)
         (ty len : Z) (rest c : list byte) (p : nat)
         (m' : Metadata) (r : option error) (f' : File),
    Forall opaqueBlock pre ->
    ty = vorbisCommentBlock \/ ty = pictureBlock ->
    0 <= len < 2 ^ 24 ->
    skipn p c = fLaC ++ encodeChain pre ++ blockHeader true ty len ++ rest ->
    (length pre < fuel)%nat ->
    (if ty =? vorbisCommentBlock then readVorbisComment else readPictureBlock)
      newMetadataVorbis
      (mkFile c (p + 4 + length (encodeChain pre) + 4)) = Done (m', r) f' ->
    ReadFLACTags Metadata newMetadataVorbis readVorbisComment readPictureBlock
        fuel (mkFile c p) =
      Done (match r with Some e => Err e | None => Val m' end) f'.
Proof.
  intros Metadata m0 rvc rpb pre fuel ty len rest c p m' r f' Hpre Hty Hlen
         Hskip Hf Hdec.
  assert (Hty' : 0 <= ty < 128)
    by (unfold vorbisCommentBlock, pictureBlock in Hty; lia).
  rewrite (ReadFLACTags_signed _ _ _ _ _ _ _ _ Hskip).
  apply (skipn_past fLaC) in Hskip; change (length fLaC) with 4%nat in Hskip.
  replace fuel with (length pre + S (fuel - length pre - 1))%nat by lia.
  rewrite (ReadFLACTags_loop_skips _ _ _ pre _ m0 c _ _ Hpre Hskip).
  apply skipn_past in Hskip.
  cbn [ReadFLACTags_loop]; unfold bind at 1.
  rewrite (readFLACMetadataBlock_block _ _ _ m0 c _ true ty len rest Hty' Hlen
             Hskip).
  destruct Hty as [-> | ->].
  - change (vorbisCommentBlock =? vorbisCommentBlock) with true in *.
    cbv iota in *; step Hdec; unfold ret; cbn [fst snd].
    destruct r; reflexivity.
  - change (pictureBlock =? vorbisCommentBlock) with false in *.
    change (pictureBlock =? pictureBlock) with true.
    cbv iota in *; step Hdec; unfold ret; cbn [fst snd].
    destruct r; reflexivity.
Qed.

Lemma ReadFLACTags_hands_over_to_decoder_witness :
  ReadFLACTags nat 0%nat
      (fun m => bind (Seek 2 SeekCurrent)
                  (fun _ => ret (S m, Some (errorString "bad comment"%string))))
      (fun m => ret (m, None)) 10
      (mkFile (fLaC ++ blockHeader true 4 20 ++ repeat "c"%byte 20) 0) =
    Done (Err (errorString "bad comment"%string))
         (mkFile (fLaC ++ blockHeader true 4 20 ++ repeat "c"%byte 20) 10).
Proof.
  apply (ReadFLACTags_hands_over_to_decoder nat 0%nat
           (fun m => bind (Seek 2 SeekCurrent)
                       (fun _ => ret (S m, Some (errorString "bad comment"%string))))
           (fun m => ret (m, None)) [] 10 4 20 (repeat "c"%byte 20)
           (fLaC ++ blockHeader true 4 20 ++ repeat "c"%byte 20) 0
           1%nat (Some (errorString "bad comment"%string))
           (mkFile (fLaC ++ blockHeader true 4 20 ++ repeat "c"%byte 20) 10)).
  - constructor.
  - left; reflexivity.
  - split; [discriminate|reflexivity].
  - reflexivity.
  - cbn [length]; lia.
  - reflexivity.
Defined.

(** X14: on a container whose chain of blocks that are neither comment
    nor picture blocks ends, without a last block, less than four bytes
    before the end of the file, ReadFLACTags fails with a short-read
    error, whatever the decoders are, and the bytes are unchanged. *)
Theorem ReadFLACTags_unterminated_chain :
  forall (Metadata : Type) (newMetadataVorbis : Metadata)
         (readVorbisComment readPictureBlock :
            Metadata -> IO (Metadata * option error))
         (pre : list (Z * list byte)) (fuel : nat)
         (tail c : list byte) (p : nat),
    Forall opaqueBlock pre ->
    skipn p c = fLaC ++ encodeChain pre ++ tail ->
    (length tail < 4)%nat ->
    (length pre < fuel)%nat ->
    exists e f',
      ReadFLACTags Metadata newMetadataVorbis readVorbisComment
        readPictureBlock fuel (mkFile c p) = Done (Err e) f'
      /\ content f' = c
      /\ (e = EOF \/ e = ErrUnexpectedEOF).
Proof.
  intros Metadata m0 rvc rpb pre fuel tail c p Hpre Hskip Ht Hf.
  rewrite (ReadFLACTags_signed _ _ _ _ _ _ _ _ Hskip).
  apply (skipn_past fLaC) in Hskip; change (length fLaC) with 4%nat in Hskip.
  replace fuel with (length pre + S (fuel - length pre - 1))%nat by lia.
  rewrite (ReadFLACTags_loop_skips _ _ _ pre _ m0 c _ _ Hpre Hskip).
  apply skipn_past in Hskip.
  set (cp := (p + 4 + length (encodeChain pre))%nat) in *.
  assert (Hl := f_equal (@length byte) Hskip); rewrite length_skipn in Hl.
  cbn [ReadFLACTags_loop]; unfold bind at 1, readFLACMetadataBlock.
  destruct (Z.le_gt_cases (Z.of_nat cp + 1) (Z.of_nat (length c))) as [H1|H1].
  - step (readBytes_full 1 (mkFile c cp) ltac:(lia) H1).
    cbn [content pos].
    destruct (readInt_short_kind 3 (mkFile c (cp + Z.to_nat 1)))
      as (e & f' & H & Hc & _ & He);
      [lia|unfold size; cbn [content pos]; lia|].
    step H; unfold ret; eauto.
  - destruct (readBytes_short 1 (mkFile c cp))
      as (e & f' & H & Hc & _ & He);
      [lia|unfold size; cbn [content pos]; lia|].
    step H; unfold ret; eauto.
Qed.

Lemma ReadFLACTags_unterminated_chain_witness :
  exists e f',
    ReadFLACTags unit tt (fun m => ret (m, None)) (fun m => ret (m, None)) 10
      (mkFile unterminated 0) = Done (Err e) f'
    /\ content f' = unterminated
    /\ (e = EOF \/ e = ErrUnexpectedEOF).
Proof.
  apply (ReadFLACTags_unterminated_chain unit tt
           (fun m => ret (m, None)) (fun m => ret (m, None))
           [(0, repeat x00 2)] 10 [] unterminated 0).
  - constructor; [|constructor].
    unfold opaqueBlock, vorbisCommentBlock, pictureBlock.
    cbn [fst snd length repeat]; change (2 ^ 24) with 16777216; lia.
  - reflexivity.
  - cbn [length]; lia.
  - cbn [length]; lia.
Defined.

(** ** The writer of the earlier revision *)

Section Earlier.

Variable Data : Type.
Variable PrepareVorbisComment : Data -> list byte.

(** One turn of the earlier loop on the header of a block that is not the
    last one. *)
Lemma earlier_step fuel data c p ty len rest :
  0 <= ty < 128 -> 0 <= len < 2 ^ 24 ->
  skipn p c = byte_of_Z ty :: formatUintBigEndian len 3 ++ rest ->
  Part000.findAndWriteFlacCommentBlock Data PrepareVorbisComment
      (S fuel) data (mkFile c p) =
    (if ty =? vorbisCommentBlock
     then rewriteCommentBlock fuel (PrepareVorbisComment data) len
            (Part000.findAndWriteFlacCommentBlock Data PrepareVorbisComment
               fuel data)
     else bind (Seek len SeekCurrent)
            (fun _ => Part000.findAndWriteFlacCommentBlock Data
                        PrepareVorbisComment fuel data))
      (mkFile c (p + 4)).
Proof.
  intros Hty Hlen Hskip.
  destruct (header_inside _ _ _ _ _ (length_formatUintBigEndian len 3) Hskip)
    as (Hp & H1 & H3 & _).
  cbn [Part000.findAndWriteFlacCommentBlock].
  step (readBytes_full 1 (mkFile c p) ltac:(lia)
          ltac:(unfold size; cbn [content pos]; lia)).
  cbn [content pos]; change (Z.to_nat 1) with 1%nat.
  rewrite H1; cbn [nth]; rewrite Z_of_byte_of_Z, Z.mod_small by lia.
  destruct (flag_bit ty Hty) as (Hb0 & _); unfold getBit at 1; rewrite Hb0.
  step (readInt_full 3 (mkFile c (p + 1)) ltac:(lia)
          ltac:(unfold size; cbn [content pos]; lia)).
  cbn [content pos]; change (Z.to_nat 3) with 3%nat.
  rewrite H3, getInt_formatUintBigEndian_3 by assumption.
  replace (p + 1 + 3)%nat with (p + 4)%nat by lia.
  reflexivity.
Qed.

(** The earlier loop on the header of the last block: it stops there. *)
Lemma earlier_stops_at_last fuel data c p ty rest :
  0 <= ty < 128 ->
  skipn p c = byte_of_Z (128 + ty) :: rest ->
  Part000.findAndWriteFlacCommentBlock Data PrepareVorbisComment
      (S fuel) data (mkFile c p) = Done None (mkFile c (p + 1)).
Proof.
  intros Hty Hskip.
  assert (Hl := f_equal (@length byte) Hskip).
  rewrite length_skipn in Hl; cbn [length] in Hl.
  cbn [Part000.findAndWriteFlacCommentBlock].
  step (readBytes_full 1 (mkFile c p) ltac:(lia)
          ltac:(unfold size; cbn [content pos]; lia)).
  cbn [content pos]; change (Z.to_nat 1) with 1%nat.
  rewrite Hskip; cbn [firstn nth]; rewrite Z_of_byte_of_Z, Z.mod_small by lia.
  destruct (flag_bit ty Hty) as (_ & Hb1 & _); unfold getBit; rewrite Hb1.
  reflexivity.
Qed.

Lemma earlier_skips : forall pre fuel data c p rest,
  Forall skippedBlock pre ->
  skipn p c = encodeChain pre ++ rest ->
  Part000.findAndWriteFlacCommentBlock Data PrepareVorbisComment
      (length pre + fuel) data (mkFile c p) =
    Part000.findAndWriteFlacCommentBlock Data PrepareVorbisComment
      fuel data (mkFile c (p + length (encodeChain pre))).
Proof.
  induction pre as [|[ty pl] pre IH]; intros fuel data c p rest Hpre Hskip.
  - cbn [length encodeChain flat_map]; now rewrite Nat.add_0_r.
  - inversion Hpre as [|? ? (Hty & Hnc & Hlen) Hpre']; subst.
    cbn [encodeChain flat_map] in Hskip |- *; fold (encodeChain pre) in *.
    cbn [fst snd] in *.
    unfold encodeBlock at 1, blockHeader at 1 in Hskip.
    rewrite <- !app_assoc in Hskip; cbn [app] in Hskip.
    rewrite Z.add_0_l in Hskip.
    cbn [length Nat.add].
    rewrite (earlier_step _ _ _ _ _ _ _ Hty
               (conj (Nat2Z.is_nonneg _) Hlen) Hskip).
    replace (ty =? vorbisCommentBlock) with false
      by (symmetry; apply Z.eqb_neq; assumption).
    destruct (header_inside _ _ _ _ _
                (length_formatUintBigEndian _ 3) Hskip) as (Hp & _ & _ & H4).
    step (Seek_ok (Z.of_nat (length pl)) SeekCurrent (mkFile c (p + 4))
            ltac:(simpl; lia)).
    cbn [content pos].
    replace (Z.to_nat (Z.of_nat (p + 4) + Z.of_nat (length pl)))
      with (p + 4 + length pl)%nat by lia.
    rewrite (IH fuel data c (p + 4 + length pl)%nat rest Hpre'
               (skipn_past _ _ _ _ H4)).
    f_equal; f_equal; rewrite length_app, length_encodeBlock; lia.
Qed.

(** The earlier writer behind a good signature. *)
Lemma earlier_signed fuel data c p rest :
  skipn p c = fLaC ++ rest ->
  Part000.WriteFLACTags Data PrepareVorbisComment fuel data (mkFile c p) =
    Part000.findAndWriteFlacCommentBlock Data PrepareVorbisComment
      fuel data (mkFile c (p + 4)).
Proof.
  intros Hskip.
  assert (Hsig : firstn 4 (skipn p c) = fLaC) by (rewrite Hskip; reflexivity).
  pose proof (signature_inside (mkFile c p) Hsig) as H4.
  unfold Part000.WriteFLACTags, readString.
  step (readBytes_full 4 (mkFile c p) ltac:(lia) H4).
  cbn [content pos]; change (Z.to_nat 4) with 4%nat.
  rewrite Hsig, bytes_eqb_true; reflexivity.
Qed.

(** The earlier writer reaches the first comment block of the chain, if
    it is not the last block, and rewrites it. *)
Lemma earlier_reaches_comment pre fuel data (old rest c : list byte) p :
  Forall skippedBlock pre ->
  Z.of_nat (length old) < 2 ^ 24 ->
  skipn p c = fLaC ++ encodeChain pre
                ++ encodeBlock false vorbisCommentBlock old ++ rest ->
  Part000.WriteFLACTags Data PrepareVorbisComment
      (length pre + S fuel) data (mkFile c p) =
    rewriteCommentBlock fuel (PrepareVorbisComment data)
      (Z.of_nat (length old))
      (Part000.findAndWriteFlacCommentBlock Data PrepareVorbisComment fuel data)
      (mkFile c (p + 4 + length (encodeChain pre) + 4)).
Proof.
  intros Hpre Hold Hskip.
  rewrite (earlier_signed _ _ _ _ _ Hskip).
  apply (skipn_past fLaC) in Hskip; change (length fLaC) with 4%nat in Hskip.
  rewrite (earlier_skips pre (S fuel) data c _ _ Hpre Hskip).
  destruct (comment_block_located pre old rest c _ Hskip) as (H0 & _).
  assert (H4 : 0 <= vorbisCommentBlock < 128)
    by (unfold vorbisCommentBlock; lia).
  rewrite (earlier_step _ _ _ _ _ _ _ H4
             (conj (Nat2Z.is_nonneg _) Hold) H0).
  reflexivity.
Qed.

End Earlier.

(** X15: the writer of the earlier revision on a container with a good
    signature whose chain has blocks that are not comment blocks and then
    a comment block that is not the last block.  When the new payload is
    longer than the old one, by no more than min(100, number of bytes
    behind the block), WriteFLACTags returns no error and the file is the
    old one with the comment block replaced by the new one: everything
    behind the block has moved right by the difference, unchanged. *)
Theorem earlier_WriteFLACTags_longer_payload :
  forall (Data : Type) (PrepareVorbisComment : Data -> list byte)
         (pre : list (Z * list byte)) (fuel : nat) (data : Data)
         (old rest c : list byte) (p : nat),
    Forall skippedBlock pre ->
    skipn p c = fLaC ++ encodeChain pre
                  ++ encodeBlock false vorbisCommentBlock old ++ rest ->
    let payload := PrepareVorbisComment data in
    (length old < length payload)%nat ->
    Z.of_nat (length payload) < 2 ^ 24 ->
    Z.of_nat (length payload) - Z.of_nat (length old)
      <= Z.min 100 (Z.of_nat (length rest)) ->
    (length pre + length c + 1 < fuel)%nat ->
    Part000.WriteFLACTags Data PrepareVorbisComment fuel data (mkFile c p) =
      Done None
        (mkFile (firstn (p + 4) c ++ encodeChain pre
                   ++ encodeBlock false vorbisCommentBlock payload ++ rest)
                (p + 4 + length (encodeChain pre) + 4 + length payload)).
Proof.
  intros Data P pre fuel data old rest c p Hpre Hskip payload Hlt Hn Hcap Hf.
  change (2 ^ 24) with 16777216 in *.
  replace fuel with (length pre + S (fuel - length pre - 1))%nat by lia.
  rewrite (earlier_reaches_comment Data P pre _ data old rest c p Hpre
             ltac:(change (2 ^ 24) with 16777216; lia) Hskip).
  apply (skipn_past fLaC) in Hskip; change (length fLaC) with 4%nat in Hskip.
  destruct (comment_block_located pre old rest c _ Hskip)
    as (_ & Hin & Hfirst & Hrest).
  assert (Hr : length rest
               = (length c
                  - (p + 4 + length (encodeChain pre) + 4 + length old))%nat)
    by (rewrite <- Hrest, length_skipn; reflexivity).
  fold payload.
  rewrite rewrite_longer; rewrite ?Nat2Z.id; try lia.
  rewrite Hfirst, Hrest, uint_small
    by (change (2 ^ 24) with 16777216; lia).
  unfold encodeBlock, blockHeader; rewrite <- !app_assoc; reflexivity.
Qed.

Lemma earlier_WriteFLACTags_longer_payload_witness :
  Part000.WriteFLACTags (list byte) encoded 400 (repeat "n"%byte 30)
      (mkFile scenario 0) =
    Done None
      (mkFile (firstn (0 + 4) scenario ++ encodeChain [(0, repeat x00 34)]
                 ++ encodeBlock false vorbisCommentBlock
                      (encoded (repeat "n"%byte 30))
                 ++ (blockHeader true 1 100 ++ repeat x00 100 ++ audio))
              (0 + 4 + length (encodeChain [(0, repeat x00 34)]) + 4
               + length (encoded (repeat "n"%byte 30)))).
Proof.
  apply (earlier_WriteFLACTags_longer_payload (list byte) encoded
           [(0, repeat x00 34)] 400 (repeat "n"%byte 30)
           (repeat "c"%byte 20)
           (blockHeader true 1 100 ++ repeat x00 100 ++ audio) scenario 0).
  - constructor; [exact skippedBlock_streaminfo|constructor].
  - reflexivity.
  - vm_compute; lia.
  - vm_compute; reflexivity.
  - vm_compute; discriminate.
  - vm_compute; lia.
Defined.

(** X16: on the same container, when the new payload is shorter than the
    old one, the earlier WriteFLACTags returns no error, the new comment
    block is in place and what was behind the old block follows it
    directly; the file keeps its length and ends with a second copy of the
    last bytes of the original, as many as the payload lost. *)
Theorem earlier_WriteFLACTags_shorter_payload :
  forall (Data : Type) (PrepareVorbisComment : Data -> list byte)
         (pre : list (Z * list byte)) (fuel : nat) (data : Data)
         (old rest c : list byte) (p : nat),
    Forall skippedBlock pre ->
    skipn p c = fLaC ++ encodeChain pre
                  ++ encodeBlock false vorbisCommentBlock old ++ rest ->
    let payload := PrepareVorbisComment data in
    (length payload < length old)%nat ->
    Z.of_nat (length old) < 2 ^ 24 ->
    (length pre + length c + 1 < fuel)%nat ->
    Part000.WriteFLACTags Data PrepareVorbisComment fuel data (mkFile c p) =
      Done None
        (mkFile (firstn (p + 4) c ++ encodeChain pre
                   ++ encodeBlock false vorbisCommentBlock payload ++ rest
                   ++ skipn (length c - (length old - length payload)) c)
                (p + 4 + length (encodeChain pre) + 4 + length payload)).
Proof.
  intros Data P pre fuel data old rest c p Hpre Hskip payload Hlt Hn Hf.
  replace fuel with (length pre + S (fuel - length pre - 1))%nat by lia.
  rewrite (earlier_reaches_comment Data P pre _ data old rest c p Hpre
             Hn Hskip).
  change (2 ^ 24) with 16777216 in *.
  apply (skipn_past fLaC) in Hskip; change (length fLaC) with 4%nat in Hskip.
  destruct (comment_block_located pre old rest c _ Hskip)
    as (_ & Hin & Hfirst & Hrest).
  fold payload.
  rewrite rewrite_shorter; rewrite ?Nat2Z.id; try lia.
  rewrite Hfirst, Hrest, uint_small
    by (change (2 ^ 24) with 16777216; lia).
  unfold encodeBlock, blockHeader; rewrite <- !app_assoc; reflexivity.
Qed.

Lemma earlier_WriteFLACTags_shorter_payload_witness :
  Part000.WriteFLACTags (list byte) encoded 400 (repeat "n"%byte 10)
      (mkFile scenario 0) =
    Done None
      (mkFile (firstn (0 + 4) scenario ++ encodeChain [(0, repeat x00 34)]
                 ++ encodeBlock false vorbisCommentBlock
                      (encoded (repeat "n"%byte 10))
                 ++ (blockHeader true 1 100 ++ repeat x00 100 ++ audio)
                 ++ skipn (length scenario
                           - (length (repeat "c"%byte 20)
                              - length (encoded (repeat "n"%byte 10))))
                          scenario)
              (0 + 4 + length (encodeChain [(0, repeat x00 34)]) + 4
               + length (encoded (repeat "n"%byte 10)))).
Proof.
  apply (earlier_WriteFLACTags_shorter_payload (list byte) encoded
           [(0, repeat x00 34)] 400 (repeat "n"%byte 10)
           (repeat "c"%byte 20)
           (blockHeader true 1 100 ++ repeat x00 100 ++ audio) scenario 0).
  - constructor; [exact skippedBlock_streaminfo|constructor].
  - reflexivity.
  - vm_compute; lia.
  - vm_compute; reflexivity.
  - vm_compute; lia.
Defined.

(** X17: the earlier loop tests the last-block flag before anything else
    and stops there.  On a container with a good signature whose blocks in
    front of the last block are not comment blocks, the earlier
    WriteFLACTags rewrites nothing, even when the last block is the
    comment block: it returns no error, the bytes are unchanged, and the
    cursor is behind the first header byte of the last block. *)
Theorem earlier_WriteFLACTags_never_rewrites_last_block :
  forall (Data : Type) (PrepareVorbisComment : Data -> list byte)
         (pre : list (Z * list byte)) (fuel : nat) (data : Data)
         (ty len : Z) (rest c : list byte) (p : nat),
    Forall skippedBlock pre ->
    0 <= ty < 128 ->
    skipn p c = fLaC ++ encodeChain pre ++ blockHeader true ty len ++ rest ->
    (length pre < fuel)%nat ->
    Part000.WriteFLACTags Data PrepareVorbisComment fuel data (mkFile c p) =
      Done None (mkFile c (p + 4 + length (encodeChain pre) + 1)).
Proof.
  intros Data P pre fuel data ty len rest c p Hpre Hty Hskip Hf.
  rewrite (earlier_signed _ _ _ _ _ _ _ Hskip).
  apply (skipn_past fLaC) in Hskip; change (length fLaC) with 4%nat in Hskip.
  replace fuel with (length pre + S (fuel - length pre - 1))%nat by lia.
  rewrite (earlier_skips _ _ pre _ data c _ _ Hpre Hskip).
  apply skipn_past in Hskip; unfold blockHeader in Hskip; cbn [app] in Hskip.
  exact (earlier_stops_at_last _ _ _ data c _ ty _ Hty Hskip).
Qed.

Lemma earlier_WriteFLACTags_never_rewrites_last_block_witness :
  Part000.WriteFLACTags (list byte) encoded 10 (repeat "n"%byte 30)
      (mkFile (fLaC ++ blockHeader true 4 20 ++ repeat "c"%byte 20) 0) =
    Done None
      (mkFile (fLaC ++ blockHeader true 4 20 ++ repeat "c"%byte 20)
              (0 + 4 + length (encodeChain []) + 1)).
Proof.
  apply (earlier_WriteFLACTags_never_rewrites_last_block (list byte) encoded
           [] 10 (repeat "n"%byte 30) 4 20 (repeat "c"%byte 20)
           (fLaC ++ blockHeader true 4 20 ++ repeat "c"%byte 20) 0).
  - constructor.
  - lia.
  - reflexivity.
  - cbn [length]; lia.
Defined.

(** X18: on the container of X15, when the new payload has the length of
    the old one and the blocks behind the comment block, up to the last
    block, are not comment blocks, the earlier WriteFLACTags returns no
    error and writes the new comment block in place of the old one: every
    other byte of the file, and its length, are unchanged. *)
Theorem earlier_WriteFLACTags_same_length :
  forall (Data : Type) (PrepareVorbisComment : Data -> list byte)
         (pre post : list (Z * list byte)) (fuel : nat) (data : Data)
         (ty len : Z) (old rest c : list byte) (p : nat),
    Forall skippedBlock pre -> Forall skippedBlock post ->
    0 <= ty < 128 ->
    skipn p c = fLaC ++ encodeChain pre
                  ++ encodeBlock false vorbisCommentBlock old
                  ++ encodeChain post ++ blockHeader true ty len ++ rest ->
    let payload := PrepareVorbisComment data in
    length payload = length old ->
    Z.of_nat (length old) < 2 ^ 24 ->
    (length pre + length post + 1 < fuel)%nat ->
    exists q,
      Part000.WriteFLACTags Data PrepareVorbisComment fuel data (mkFile c p) =
        Done None
          (mkFile (firstn (p + 4) c ++ encodeChain pre
                     ++ encodeBlock false vorbisCommentBlock payload
                     ++ encodeChain post ++ blockHeader true ty len ++ rest)
                  q).
Proof.
  intros Data P pre post fuel data ty len old rest c p Hpre Hpost Hty Hskip
         payload Hsame Hn Hf.
  replace fuel
    with (length pre + S (length post + S (fuel - length pre - length post - 2)))%nat
    by lia.
  rewrite (earlier_reaches_comment Data P pre _ data old _ c p Hpre Hn Hskip).
  change (2 ^ 24) with 16777216 in *.
  apply (skipn_past fLaC) in Hskip; change (length fLaC) with 4%nat in Hskip.
  destruct (comment_block_located pre old _ c _ Hskip)
    as (_ & Hin & Hfirst & Hrest).
  fold payload.
  rewrite rewrite_same; rewrite ?Nat2Z.id; try lia.
  rewrite Hfirst, Hrest, uint_small
    by (change (2 ^ 24) with 16777216; lia).
  set (front := firstn (p + 4) c ++ encodeChain pre
                  ++ [byte_of_Z vorbisCommentBlock]).
  set (enc := formatUintBigEndian (Z.of_nat (length payload)) 3).
  set (c' := front ++ enc ++ payload ++ encodeChain post
               ++ blockHeader true ty len ++ rest).
  assert (Hfront : length front
                   = (p + 4 + length (encodeChain pre) + 1)%nat).
  { unfold front; rewrite <- Hfirst, length_firstn; lia. }
  assert (Hs' : skipn (p + 4 + length (encodeChain pre) + 4 + length payload) c'
                = encodeChain post ++ blockHeader true ty len ++ rest).
  { replace (p + 4 + length (encodeChain pre) + 4 + length payload)%nat
      with (length (front ++ enc ++ payload))
      by (rewrite !length_app, Hfront; unfold enc;
          rewrite length_formatUintBigEndian; lia).
    replace c' with ((front ++ enc ++ payload)
                       ++ encodeChain post ++ blockHeader true ty len ++ rest)
      by (unfold c'; rewrite <- !app_assoc; reflexivity).
    rewrite skipn_app, skipn_all, Nat.sub_diag; reflexivity. }
  rewrite (earlier_skips _ _ post _ data c' _ _ Hpost Hs').
  apply skipn_past in Hs'; unfold blockHeader in Hs'; cbn [app] in Hs'.
  rewrite (earlier_stops_at_last _ _ _ data c' _ ty _ Hty Hs').
  eexists; f_equal; f_equal.
  unfold c', front, enc, encodeBlock, blockHeader.
  rewrite <- !app_assoc; reflexivity.
Qed.

Lemma earlier_WriteFLACTags_same_length_witness :
  exists q,
    Part000.WriteFLACTags (list byte) encoded 10 (repeat "n"%byte 20)
      (mkFile scenario 0) =
      Done None
        (mkFile (firstn (0 + 4) scenario ++ encodeChain [(0, repeat x00 34)]
                   ++ encodeBlock false vorbisCommentBlock
                        (encoded (repeat "n"%byte 20))
                   ++ encodeChain [] ++ blockHeader true 1 100
                   ++ (repeat x00 100 ++ audio))
                q).
Proof.
  apply (earlier_WriteFLACTags_same_length (list byte) encoded
           [(0, repeat x00 34)] [] 10 (repeat "n"%byte 20) 1 100
           (repeat "c"%byte 20) (repeat x00 100 ++ audio) scenario 0).
  - constructor; [exact skippedBlock_streaminfo|constructor].
  - constructor.
  - lia.
  - reflexivity.
  - reflexivity.
  - vm_compute; reflexivity.
  - cbn [length]; lia.
Defined.

(** ** The padding path and the chain *)

(** The writes of the padding path of [WriteFLACTags], as one write. *)
Lemma padding_path m (payload c : list byte) q :
  let n := Z.of_nat (length payload) in
  let delta := n - commentBlockLen m in
  let a := Z.to_nat (commentBlockPos m) in
  0 <= commentBlockPos m -> 0 <= commentBlockLen m ->
  paddingBlockPos m = commentBlockPos m + 4 + commentBlockLen m ->
  0 < paddingBlockLen m ->
  paddingBlockPos m + 4 + paddingBlockLen m <= Z.of_nat (length c) ->
  n < commentBlockLen m + (paddingBlockLen m - 4) ->
  bind (shiftPadding m n)
    (fun _ => bind (Seek (commentBlockPos m + 1) SeekStart)
    (fun _ => bind (Write (formatUintBigEndian (uint n) 3))
    (fun _ => bind (Write payload) (fun _ => ret (@None error)))))
    (mkFile c q) =
  Done None
    (mkFile (overwrite c (a + 1)
               (formatUintBigEndian (uint n) 3 ++ payload
                  ++ firstn 1 (skipn (Z.to_nat (paddingBlockPos m)) c)
                  ++ formatUintBigEndian (uint (paddingBlockLen m - delta)) 3))
            (a + 4 + length payload)).
Proof.
  intros n delta a HcP HcL Hadj HL Hin Hfit.
  unfold bind at 1.
  rewrite shiftPadding_spec by lia; cbv zeta; fold delta.
  set (np := Z.to_nat (paddingBlockPos m + delta)).
  set (h := firstn 1 (skipn (Z.to_nat (paddingBlockPos m)) c)).
  set (encL := formatUintBigEndian (uint (paddingBlockLen m - delta)) 3).
  set (encN := formatUintBigEndian (uint n) 3).
  assert (HencL : length encL = 3%nat) by apply length_formatUintBigEndian.
  assert (HencN : length encN = 3%nat) by apply length_formatUintBigEndian.
  assert (Hh : length h = 1%nat).
  { unfold h; rewrite length_firstn, length_skipn; lia. }
  assert (Hnp : np = (a + 4 + length payload)%nat)
    by (unfold np, a, delta, n; lia).
  set (c2 := overwrite c np (h ++ encL)); cbv beta iota.
  assert (Hl2 : length c2 = length c).
  { unfold c2; apply length_overwrite_inside; rewrite length_app; lia. }
  step (Seek_ok (commentBlockPos m + 1) SeekStart (mkFile c2 (np + 4))
          ltac:(simpl; lia)).
  cbn [content]; rewrite Z.add_0_l.
  replace (Z.to_nat (commentBlockPos m + 1)) with (a + 1)%nat by (unfold a; lia).
  step (Write_written encN (mkFile c2 (a + 1))); cbn [content pos].
  step (Write_written payload (mkFile (written c2 (a + 1) encN)
                                 (a + 1 + length encN))).
  cbn [content pos]; unfold ret.
  rewrite (written_inside c2) by lia.
  rewrite written_inside by (rewrite length_overwrite; lia).
  rewrite overwrite_adjacent by lia.
  unfold c2; rewrite overwrite_before by (rewrite !length_app; lia).
  rewrite <- !app_assoc; do 2 f_equal; lia.
Qed.

(** X19: the padding path keeps the chain in step.  On a container with a
    good signature whose chain has blocks that are neither comment nor
    padding blocks, then a comment block, then a padding block of declared
    length L whose payload lies in the file, a write of a payload shorter
    than the old length plus L - 4 (all lengths fitting 24 bits) returns
    no error and gives a container of the same length and the same shape:
    the same blocks in front, the new comment block, and directly behind
    it a padding block of declared length L - delta, which ends where the
    old one ended, in front of the same bytes.  A new layout scan of the
    result finds that pair. *)
Theorem padded_write_keeps_chain :
  forall (Data : Type) (PrepareVorbisComment : Data -> list byte)
         (pre : list (Z * list byte)) (fuel : nat) (data : Data)
         (old : list byte) (last : bool) (L : Z) (rest c : list byte) (p : nat),
    Forall plainBlock pre ->
    skipn p c = fLaC ++ encodeChain pre
                  ++ encodeBlock false vorbisCommentBlock old
                  ++ blockHeader last paddingBlock L ++ rest ->
    let payload := PrepareVorbisComment data in
    let n := Z.of_nat (length payload) in
    let delta := n - Z.of_nat (length old) in
    let cp := (p + 4 + length (encodeChain pre))%nat in
    Z.of_nat (length old) < 2 ^ 24 -> 0 < L < 2 ^ 24 ->
    L <= Z.of_nat (length rest) ->
    n < Z.of_nat (length old) + (L - 4) ->
    n < 2 ^ 24 -> L - delta < 2 ^ 24 ->
    (length pre + 1 < fuel)%nat ->
    exists c' rest',
      WriteFLACTags Data PrepareVorbisComment fuel data (mkFile c p) =
        Done None (mkFile c' (cp + 4 + length payload))
      /\ length c' = length c
      /\ skipn p c' = fLaC ++ encodeChain pre
                        ++ encodeBlock false vorbisCommentBlock payload
                        ++ blockHeader last paddingBlock (L - delta) ++ rest'
      /\ skipn (Z.to_nat (L - delta)) rest' = skipn (Z.to_nat L) rest
      /\ findBlocks fuel zeroLayout (mkFile c' (p + 4)) =
           Done (mkLayout (Z.of_nat cp) n (Z.of_nat cp + 4 + n) (L - delta),
                 None) (mkFile c' (p + 4)).
Proof.
  intros Data P pre fuel data old last L rest c p Hpre Hskip payload n delta cp
         Hold HL Hrest Hfit Hn HL' Hf.
  assert (Hsig : firstn 4 (skipn p c) = fLaC) by (rewrite Hskip; reflexivity).
  pose proof (signature_inside (mkFile c p) Hsig) as H4.
  assert (Hskip4 := skipn_past fLaC _ _ _ Hskip).
  change (length fLaC) with 4%nat in Hskip4.
  rewrite app_assoc in Hskip4.
  destruct (comment_block_located pre old _ c _
              ltac:(rewrite <- app_assoc in Hskip4; exact Hskip4))
    as (_ & Hin & Hfirst & Hpad).
  fold cp in Hin, Hfirst, Hpad.
  rewrite <- app_assoc in Hskip4.
  assert (Hfind := findBlocks_locates_pair pre fuel c (p + 4) old last L rest
                     Hpre Hold (conj (Z.lt_le_incl _ _ (proj1 HL)) (proj2 HL))
                     Hskip4 Hf).
  cbv zeta in Hfind; fold cp in Hfind.
  set (M := mkLayout (Z.of_nat cp) (Z.of_nat (length old))
              (Z.of_nat cp + 4 + Z.of_nat (length old)) L) in Hfind.
  (* the bytes written *)
  set (X := formatUintBigEndian (uint n) 3 ++ payload
              ++ firstn 1 (skipn (Z.to_nat (paddingBlockPos M)) c)
              ++ formatUintBigEndian
                   (uint (paddingBlockLen M - (n - commentBlockLen M))) 3).
  set (c' := overwrite c (Z.to_nat (commentBlockPos M) + 1) X).
  assert (Hpp : Z.to_nat (paddingBlockPos M) = (cp + 4 + length old)%nat)
    by (cbn [paddingBlockPos M]; lia).
  assert (Hh : firstn 1 (skipn (Z.to_nat (paddingBlockPos M)) c)
               = [byte_of_Z ((if last then 128 else 0) + paddingBlock)])
    by (rewrite Hpp, Hpad; reflexivity).
  assert (HX : X = formatUintBigEndian n 3 ++ payload
                     ++ blockHeader last paddingBlock (L - delta)).
  { unfold X; rewrite Hh; cbn [commentBlockLen paddingBlockLen M].
    fold delta; rewrite !uint_small by lia; reflexivity. }
  assert (HlX : length X = (3 + length payload + 4)%nat).
  { rewrite HX; unfold blockHeader; rewrite !length_app; cbn [length].
    rewrite !length_formatUintBigEndian; lia. }
  assert (Hlr : length (blockHeader last paddingBlock L ++ rest)
                = (4 + length rest)%nat).
  { unfold blockHeader; rewrite length_app; cbn [length].
    rewrite length_formatUintBigEndian; lia. }
  rewrite Hlr in Hin.
  assert (Hcp : Z.to_nat (commentBlockPos M) = cp)
    by (cbn [commentBlockPos M]; lia).
  exists c', (skipn (cp + 1 + length X) c).
  split; [|split; [|split; [|split]]].
  - unfold WriteFLACTags, readString.
    step (readBytes_full 4 (mkFile c p) ltac:(lia) H4).
    cbn [content pos]; change (Z.to_nat 4) with 4%nat.
    rewrite Hsig, bytes_eqb_true; cbn [negb].
    step Hfind; cbn [fst]; fold payload n.
    replace (_ && _) with true.
    2:{ symmetry; apply andb_true_iff; cbn [commentBlockLen paddingBlockLen M].
        rewrite Z.gtb_ltb, !Z.ltb_lt; lia. }
    unfold n at 1 2.
    rewrite (padding_path M payload c (p + 4));
      cbn [commentBlockPos commentBlockLen paddingBlockPos paddingBlockLen M];
      fold n; try lia.
    f_equal; f_equal; lia.
  - unfold c'; rewrite Hcp; apply length_overwrite_inside; lia.
  - unfold c'; rewrite Hcp, overwrite_inside by lia.
    assert (Hfirst' : firstn (cp + 1) c
                      = firstn p c ++ fLaC ++ encodeChain pre
                          ++ [byte_of_Z vorbisCommentBlock]).
    { rewrite Hfirst.
      change (p + 4)%nat with (p + length fLaC)%nat.
      rewrite (firstn_past fLaC _ _ _ Hskip), <- !app_assoc; reflexivity. }
    rewrite Hfirst', <- !app_assoc, skipn_app.
    rewrite skipn_all2 by (rewrite length_firstn; lia).
    rewrite length_firstn.
    replace (p - Nat.min p (length c))%nat with 0%nat by lia.
    rewrite HX; unfold encodeBlock, blockHeader.
    cbn [app skipn]; rewrite <- !app_assoc; reflexivity.
  - assert (Hrest4 : skipn (cp + 4 + length old + 4) c = rest).
    { pose proof (skipn_past _ _ _ _ Hpad) as H.
      unfold blockHeader in H; cbn [length] in H.
      rewrite length_formatUintBigEndian in H; exact H. }
    rewrite <- Hrest4, !skipn_skipn; f_equal; unfold delta, n in *; lia.
  - assert (Hskip4' : skipn (p + 4) c'
              = encodeChain pre ++ encodeBlock false vorbisCommentBlock payload
                  ++ blockHeader last paddingBlock (L - delta)
                  ++ skipn (cp + 1 + length X) c).
    { unfold c'; rewrite Hcp, overwrite_inside by lia.
      rewrite Hfirst, <- !app_assoc, skipn_app.
      rewrite skipn_all2 by (rewrite length_firstn; lia).
      rewrite length_firstn.
      replace (p + 4 - Nat.min (p + 4) (length c))%nat with 0%nat by lia.
      rewrite HX; unfold encodeBlock, blockHeader.
      cbn [app skipn]; rewrite <- !app_assoc; reflexivity. }
    exact (findBlocks_locates_pair pre fuel c' (p + 4) payload last
             (L - delta) _ Hpre Hn ltac:(lia) Hskip4' Hf).
Qed.

Lemma padded_write_keeps_chain_witness :
  exists c' rest',
    WriteFLACTags (list byte) encoded 10 (repeat "n"%byte 30)
      (mkFile scenario 0) =
      Done None
        (mkFile c' (0 + 4 + length (encodeChain [(0, repeat x00 34)]) + 4
                    + length (encoded (repeat "n"%byte 30))))
    /\ length c' = length scenario
    /\ skipn 0 c' = fLaC ++ encodeChain [(0, repeat x00 34)]
                      ++ encodeBlock false vorbisCommentBlock
                           (encoded (repeat "n"%byte 30))
                      ++ blockHeader true paddingBlock
                           (100 - (Z.of_nat (length (encoded (repeat "n"%byte 30)))
                                   - Z.of_nat (length (repeat "c"%byte 20))))
                      ++ rest'
    /\ skipn (Z.to_nat
                (100 - (Z.of_nat (length (encoded (repeat "n"%byte 30)))
                        - Z.of_nat (length (repeat "c"%byte 20))))) rest'
       = skipn (Z.to_nat 100) (repeat x00 100 ++ audio)
    /\ findBlocks 10 zeroLayout (mkFile c' (0 + 4)) =
         Done (mkLayout
                 (Z.of_nat (0 + 4 + length (encodeChain [(0, repeat x00 34)])))
                 (Z.of_nat (length (encoded (repeat "n"%byte 30))))
                 (Z.of_nat (0 + 4 + length (encodeChain [(0, repeat x00 34)]))
                  + 4 + Z.of_nat (length (encoded (repeat "n"%byte 30))))
                 (100 - (Z.of_nat (length (encoded (repeat "n"%byte 30)))
                         - Z.of_nat (length (repeat "c"%byte 20)))),
               None) (mkFile c' (0 + 4)).
Proof.
  apply (padded_write_keeps_chain (list byte) encoded
           [(0, repeat x00 34)] 10 (repeat "n"%byte 30)
           (repeat "c"%byte 20) true 100 (repeat x00 100 ++ audio) scenario 0).
  - constructor; [exact plainBlock_streaminfo|constructor].
  - reflexivity.
  - vm_compute; reflexivity.
  - split; vm_compute; reflexivity.
  - vm_compute; discriminate.
  - vm_compute; reflexivity.
  - vm_compute; reflexivity.
  - vm_compute; reflexivity.
  - cbn [length]; lia.
Defined.

(** ** Containers that the writer of [flac.go] refuses *)

(** The layout scan passes over blocks that are neither comment nor
    padding blocks. *)
Lemma findBlocks_loop_skips : forall pre fuel bi ci m c p rest,
  Forall plainBlock pre ->
  skipn p c = encodeChain pre ++ rest ->
  findBlocks_loop (length pre + fuel) bi ci m (mkFile c p) =
    findBlocks_loop fuel (bi + Z.of_nat (length pre)) ci m
      (mkFile c (p + length (encodeChain pre))).
Proof.
  induction pre as [|[ty pl] pre IH]; intros fuel bi ci m c p rest Hpre Hskip.
  - cbn [length encodeChain flat_map]; rewrite Nat.add_0_r.
    now replace (bi + Z.of_nat 0) with bi by lia.
  - inversion Hpre as [|? ? (Hty & Hnc & Hnp & Hlen) Hpre']; subst.
    cbn [encodeChain flat_map] in Hskip |- *; fold (encodeChain pre) in *.
    cbn [fst snd] in *.
    unfold encodeBlock at 1 in Hskip; rewrite <- !app_assoc in Hskip.
    cbn [length Nat.add].
    rewrite (findBlocks_loop_block _ _ _ _ _ _ _ _ _ _ Hty
               (conj (Nat2Z.is_nonneg _) Hlen) Hskip).
    cbv zeta.
    replace (ty =? vorbisCommentBlock) with false
      by (symmetry; apply Z.eqb_neq; assumption).
    replace (ty =? paddingBlock) with false
      by (symmetry; apply Z.eqb_neq; assumption).
    rewrite Nat2Z.id.
    apply skipn_past in Hskip.
    assert (Hh : length (blockHeader false ty (Z.of_nat (length pl))) = 4%nat).
    { unfold blockHeader; cbn [length].
      now rewrite length_formatUintBigEndian. }
    rewrite Hh in Hskip; apply skipn_past in Hskip.
    rewrite (IH fuel (bi + 1) ci m c _ rest Hpre' Hskip).
    f_equal; [lia|].
    f_equal; rewrite length_app, length_encodeBlock; lia.
Qed.

(** X20: on a container with a good signature whose comment block is
    followed by no padding block at all (the blocks in front of it and the
    blocks behind it, up to and including the last block, are neither
    comment nor padding blocks), WriteFLACTags of flac.go returns the
    error "cannot write tags without padding" for every set of tags, and
    writes nothing. *)
Theorem WriteFLACTags_refuses_without_padding :
  forall (Data : Type) (PrepareVorbisComment : Data -> list byte)
         (pre post : list (Z * list byte)) (fuel : nat) (data : Data)
         (ty len : Z) (old rest c : list byte) (p : nat),
    Forall plainBlock pre -> Forall plainBlock post ->
    0 <= ty < 128 -> ty <> vorbisCommentBlock -> ty <> paddingBlock ->
    0 <= len < 2 ^ 24 ->
    Z.of_nat (length old) < 2 ^ 24 ->
    skipn p c = fLaC ++ encodeChain pre
                  ++ encodeBlock false vorbisCommentBlock old
                  ++ encodeChain post ++ blockHeader true ty len ++ rest ->
    (length pre + length post + 1 < fuel)%nat ->
    WriteFLACTags Data PrepareVorbisComment fuel data (mkFile c p) =
      Done (Some (errorString "cannot write tags without padding"))
           (mkFile c (p + 4)).
Proof.
  intros Data P pre post fuel data ty len old rest c p Hpre Hpost Hty Hnc Hnp
         Hlen Hold Hskip Hf.
  assert (Hsig : firstn 4 (skipn p c) = fLaC) by (rewrite Hskip; reflexivity).
  pose proof (signature_inside (mkFile c p) Hsig) as H4.
  apply (skipn_past fLaC) in Hskip; change (length fLaC) with 4%nat in Hskip.
  set (cp := (p + 4 + length (encodeChain pre))%nat).
  set (M := mkLayout (Z.of_nat cp) (Z.of_nat (length old)) 0 0).
  assert (Hscan : exists q,
            findBlocks_loop fuel 0 0 zeroLayout (mkFile c (p + 4)) =
              Done (M, Break) (mkFile c q)).
  { replace fuel
      with (length pre
            + S (length post + S (fuel - length pre - length post - 2)))%nat
      by lia.
    rewrite (findBlocks_loop_skips pre _ 0 0 zeroLayout c _ _ Hpre Hskip).
    apply skipn_past in Hskip; fold cp in Hskip.
    unfold encodeBlock in Hskip; rewrite <- app_assoc in Hskip.
    assert (Hc4 : 0 <= vorbisCommentBlock < 128)
      by (unfold vorbisCommentBlock; lia).
    rewrite (findBlocks_loop_block _ _ _ _ _ _ _ _ _ _ Hc4
               (conj (Nat2Z.is_nonneg _) Hold) Hskip).
    cbv zeta; rewrite Z.eqb_refl, Nat2Z.id.
    cbn [paddingBlockPos paddingBlockLen zeroLayout]; fold M.
    apply skipn_past in Hskip.
    assert (Hh : length (blockHeader false vorbisCommentBlock
                           (Z.of_nat (length old))) = 4%nat).
    { unfold blockHeader; cbn [length].
      now rewrite length_formatUintBigEndian. }
    rewrite Hh in Hskip; apply skipn_past in Hskip.
    rewrite (findBlocks_loop_skips post _ _ _ M c _ _ Hpost Hskip).
    apply skipn_past in Hskip.
    rewrite (findBlocks_loop_block _ _ _ _ _ _ _ _ _ _ Hty Hlen Hskip).
    cbv zeta.
    replace (ty =? vorbisCommentBlock) with false
      by (symmetry; apply Z.eqb_neq; assumption).
    replace (ty =? paddingBlock) with false
      by (symmetry; apply Z.eqb_neq; assumption).
    eauto. }
  destruct Hscan as (q & Hscan).
  assert (Hfind : findBlocks fuel zeroLayout (mkFile c (p + 4)) =
                  Done (M, None) (mkFile c (p + 4))).
  { unfold findBlocks.
    step (Seek_current_0 (mkFile c (p + 4))); cbn [fst pos].
    step Hscan; cbn [fst snd].
    step (Seek_ok (Z.of_nat (p + 4)) SeekStart (mkFile c q) ltac:(simpl; lia)).
    cbn [content]; rewrite Z.add_0_l, Nat2Z.id; reflexivity. }
  unfold WriteFLACTags, readString.
  step (readBytes_full 4 (mkFile c p) ltac:(lia) H4).
  cbn [content pos]; change (Z.to_nat 4) with 4%nat.
  rewrite Hsig, bytes_eqb_true; cbn [negb].
  step Hfind; cbn [fst paddingBlockLen commentBlockLen M].
  rewrite andb_false_r; reflexivity.
Qed.

Lemma WriteFLACTags_refuses_without_padding_witness :
  WriteFLACTags (list byte) encoded 10 (repeat "n"%byte 5)
      (mkFile (fLaC ++ encodeBlock false 4 (repeat "c"%byte 20)
                 ++ blockHeader true 6 3 ++ repeat "p"%byte 3 ++ audio) 0) =
    Done (Some (errorString "cannot write tags without padding"))
         (mkFile (fLaC ++ encodeBlock false 4 (repeat "c"%byte 20)
                    ++ blockHeader true 6 3 ++ repeat "p"%byte 3 ++ audio)
                 (0 + 4)).
Proof.
  apply (WriteFLACTags_refuses_without_padding (list byte) encoded
           [] [] 10 (repeat "n"%byte 5) 6 3 (repeat "c"%byte 20)
           (repeat "p"%byte 3 ++ audio)).
  - constructor.
  - constructor.
  - lia.
  - discriminate.
  - discriminate.
  - split; [discriminate|reflexivity].
  - vm_compute; reflexivity.
  - reflexivity.
  - cbn [length]; lia.
Defined.

(** X21: a right shift by zero bytes with the cursor inside the file or at
    its end changes nothing: ShiftFileRight ends normally and leaves the
    bytes and the cursor as they were. *)
Theorem ShiftFileRight_by_zero :
  forall (fuel : nat) (f : File),
    Z.of_nat (pos f) <= size f ->
    (length (content f) < fuel)%nat ->
    ShiftFileRight fuel 0 f = Done tt f.
Proof.
  intros fuel [c p]; unfold size; cbn [content pos]; intros Hp Hf.
  rewrite ShiftFileRight_opens_gap
    by (unfold size; cbn [content pos]; lia).
  cbn [content pos Z.to_nat repeat app]; now rewrite firstn_skipn.
Qed.

Lemma ShiftFileRight_by_zero_witness :
  ShiftFileRight 10 0 (mkFile abcdef 6) = Done tt (mkFile abcdef 6).
Proof.
  apply (ShiftFileRight_by_zero 10 (mkFile abcdef 6)).
  - vm_compute; discriminate.
  - vm_compute; lia.
Defined.
